(** * Base Aave metrics indexer: model and verified properties

    A shallow embedding of [src/base-metrics-indexer.js] (the live indexer, the
    historical block fetcher and the comparison helpers) and of
    [src/db-storage.js] (the PostgreSQL persistence layer).

    JavaScript numbers are IEEE 754 binary64 values and are modelled by Rocq's
    primitive floats, which are the same numbers with the same rounding.
    Block numbers and Unix timestamps are integers and are modelled by [Z]. *)

From Stdlib Require Import ZArith Uint63 Floats Ascii String Lia List.
From stdpp Require Import base option list gmap strings sorting pretty.

Open Scope Z_scope.

(** ** JavaScript numbers *)

Module Js.

(** [a > b] on numbers. *)
Definition gt (a b : float) : bool := PrimFloat.ltb b a.

(** [a === b] on numbers: [NaN] differs from itself, [0] equals [-0]. *)
Definition strict_eq (a b : float) : bool := PrimFloat.eqb a b.

(** [Math.abs]. *)
Definition Math_abs (a : float) : float := PrimFloat.abs a.

(** [Array.prototype.reduce] with an initial value: a left fold. *)
Definition reduce {A B : Type} (f : B -> A -> B) (init : B) (l : list A) : B :=
  fold_left f l init.

End Js.

(** What the code takes from the JavaScript runtime: the conversions from
    strings to numbers and the rendering of a date. *)
Class JsRuntime := {
  (** the global [parseFloat] *)
  parseFloat : string -> float;
  (** the conversion [ToNumber] that [*] applies to a string operand *)
  ToNumber : string -> float;
  (** [new Date(ms).toISOString()], for a time value that is a valid date *)
  toISOString : Z -> string
}.

(** ** Data model *)

(** A reserve as [formatReservesAndIncentives] of [@aave/math-utils] returns
    it; only the fields the indexer reads. Numeric fields are decimal strings. *)
Record FormattedReserve := {
  name : string;
  symbol : string;
  priceInMarketReferenceCurrency : string;
  totalLiquidity : string;
  totalDebt : string;
  totalLiquidityUSD : string;
  totalDebtUSD : string;
  reserves : string;
  reserveFactor : string;
  formattedReserveLiquidationThreshold : string;
  borrowingEnabled : bool;
  supplyCap : string;
  borrowCap : string;
  supplyAPY : string;
  variableBorrowAPY : string;
  stableBorrowAPY : string
}.

(** [reserves.baseCurrencyData]. *)
Record BaseCurrencyData := {
  marketReferenceCurrencyDecimals : Z;
  marketReferenceCurrencyPriceInUsd : string
}.

(** One element of [tokenMetrics]. *)
Record TokenMetric := {
  tm_token : string;
  tm_symbol : string;
  tm_priceInUSD : float;
  tm_liquidity : float;
  tm_liquidityUSD : float;
  tm_totalSupplied : float;
  tm_totalSuppliedUSD : float;
  tm_totalBorrowed : float;
  tm_totalBorrowedUSD : float;
  tm_utilizationRate : float;
  tm_reserves : float;
  tm_reserveFactor : float;
  tm_liquidationThreshold : float;
  tm_borrowEnabled : bool;
  tm_supplyCap : float;
  tm_borrowCap : float;
  tm_supplyAPY : float;
  tm_variableBorrowAPY : float;
  tm_stableBorrowAPY : float
}.

(** The object [metricsData]: one snapshot of the market. *)
Record Snapshot := {
  network : string;
  chainId : Z;
  blockNumber : Z;
  timestamp : Z;
  date : string;
  totalMarketSize : float;
  totalAvailable : float;
  totalBorrows : float;
  averageUtilization : float;
  tokenCount : nat;
  tokenMetrics : list TokenMetric
}.

Definition BASE_CHAIN_ID : Z := 8453.

(** ** The transform of both ingestion paths *)

Section Transform.
Context {rt : JsRuntime}.
Local Open Scope float_scope.

(** The utilization rate, as both paths compute it:
    [totalSupplied > 0 ? (totalBorrowed / totalSupplied) * 100 : 0]. *)
Definition utilizationRate (totalSupplied totalBorrowed : float) : float :=
  if Js.gt totalSupplied 0 then (totalBorrowed / totalSupplied) * 100 else 0.

(** The body of [formattedReserves.map(reserve => ...)]. The two paths differ
    in one constant only, the divisor of the price, which is the parameter
    [divisor] here. *)
Definition tokenMetricOf (divisor : float) (base : BaseCurrencyData)
    (reserve : FormattedReserve) : TokenMetric :=
  let priceInUSD :=
    (ToNumber reserve.(priceInMarketReferenceCurrency)
      * ToNumber base.(marketReferenceCurrencyPriceInUsd)) / divisor in
  let totalSupplied := parseFloat reserve.(totalLiquidity) in
  let totalBorrowed := parseFloat reserve.(totalDebt) in
  let liquidity := totalSupplied - totalBorrowed in
  let liquidityUSD := liquidity * priceInUSD in
  let totalSuppliedUSD := totalSupplied * priceInUSD in
  let totalBorrowedUSD := totalBorrowed * priceInUSD in
  {| tm_token := reserve.(name);
     tm_symbol := reserve.(symbol);
     tm_priceInUSD := priceInUSD;
     tm_liquidity := liquidity;
     tm_liquidityUSD := liquidityUSD;
     tm_totalSupplied := totalSupplied;
     tm_totalSuppliedUSD := totalSuppliedUSD;
     tm_totalBorrowed := totalBorrowed;
     tm_totalBorrowedUSD := totalBorrowedUSD;
     tm_utilizationRate := utilizationRate totalSupplied totalBorrowed;
     tm_reserves := parseFloat reserve.(reserves);
     tm_reserveFactor := parseFloat reserve.(reserveFactor) * 100;
     tm_liquidationThreshold :=
       parseFloat reserve.(formattedReserveLiquidationThreshold);
     tm_borrowEnabled := reserve.(borrowingEnabled);
     tm_supplyCap := parseFloat reserve.(supplyCap);
     tm_borrowCap := parseFloat reserve.(borrowCap);
     tm_supplyAPY := parseFloat reserve.(supplyAPY) * 100;
     tm_variableBorrowAPY := parseFloat reserve.(variableBorrowAPY) * 100;
     tm_stableBorrowAPY := parseFloat reserve.(stableBorrowAPY) * 100 |}.

(** The product that both paths divide to get the price. *)
Definition priceProduct (base : BaseCurrencyData) (reserve : FormattedReserve)
    : float :=
  ToNumber reserve.(priceInMarketReferenceCurrency)
    * ToNumber base.(marketReferenceCurrencyPriceInUsd).

(** The live path of [indexBaseAaveMetrics] divides by [1e16]. *)
Definition liveTokenMetric := tokenMetricOf 1e16.

(** The historical path of [fetchBaseMetricsAtBlock] divides by [1e18]. *)
Definition historicalTokenMetric := tokenMetricOf 1e18.

Definition calculateTotalMarketSize (formattedReserves : list FormattedReserve)
    : float :=
  Js.reduce (fun total reserve => total + parseFloat reserve.(totalLiquidityUSD))
    0%float formattedReserves.

Definition calculateTotalBorrows (formattedReserves : list FormattedReserve)
    : float :=
  Js.reduce (fun total reserve => total + parseFloat reserve.(totalDebtUSD))
    0%float formattedReserves.

Definition calculateTotalAvailable (formattedReserves : list FormattedReserve)
    : float :=
  calculateTotalMarketSize formattedReserves
    - calculateTotalBorrows formattedReserves.

Definition calculateAverageUtilization
    (formattedReserves : list FormattedReserve) : float :=
  let totalSupplied :=
    Js.reduce (fun total reserve => total + parseFloat reserve.(totalLiquidityUSD))
      0%float formattedReserves in
  let totalBorrowed :=
    Js.reduce (fun total reserve => total + parseFloat reserve.(totalDebtUSD))
      0%float formattedReserves in
  if Js.gt totalSupplied 0 then (totalBorrowed / totalSupplied) * 100 else 0.

(** The sum of one figure over the tokens of a snapshot, added from left to
    right starting from [0], the order in which [reduce] adds. *)
Definition sumOver (figure : TokenMetric -> float) (tokens : list TokenMetric)
    : float :=
  Js.reduce (fun total tm => total + figure tm) 0%float tokens.

(** The object both paths build from the formatted reserves; [perToken] is
    the path's own [map] body and [ts] the timestamp the path uses. *)
Definition snapshotOf (perToken : BaseCurrencyData -> FormattedReserve -> TokenMetric)
    (block ts : Z) (base : BaseCurrencyData)
    (formattedReserves : list FormattedReserve) : Snapshot :=
  let metricsPerToken := map (perToken base) formattedReserves in
  {| network := "Base";
     chainId := BASE_CHAIN_ID;
     blockNumber := block;
     timestamp := ts;
     date := toISOString (ts * 1000)%Z;
     totalMarketSize := calculateTotalMarketSize formattedReserves;
     totalAvailable := calculateTotalAvailable formattedReserves;
     totalBorrows := calculateTotalBorrows formattedReserves;
     averageUtilization := calculateAverageUtilization formattedReserves;
     tokenCount := length metricsPerToken;
     tokenMetrics := metricsPerToken |}.

End Transform.

(** ** The comparison helper *)

(** [calculatePercentChange(start, end)]. *)
Definition calculatePercentChange (start end_ : float) : float :=
  (if Js.strict_eq start 0 then (if Js.strict_eq end_ 0 then 0 else 100)
   else ((end_ - start) / Js.Math_abs start) * 100)%float.

(** ** A reference runtime

    An executable instance of [JsRuntime], used to run the model on concrete
    inputs. Its number parser reads [Infinity], [-Infinity] and plain decimal
    literals (an optional sign, digits, an optional fraction); on those, with
    at most 15 digits, it returns the correctly rounded number, as both
    [parseFloat] and [ToNumber] do. Anything else it reads as [NaN]. Its date
    rendering is [Date.prototype.toISOString] for the years 0 to 9999. *)

Module RefRuntime.

Definition digit_of (c : ascii) : option Z :=
  let n := Z.of_N (Ascii.N_of_ascii c) in
  if (48 <=? n) && (n <=? 57) then Some (n - 48) else None.

(** Reads the leading digits of [s]: their value after [acc], how many
    there were, and what follows them. *)
Fixpoint read_digits (s : string) (acc : Z) (cnt : nat) : Z * nat * string :=
  match s with
  | String c rest =>
      match digit_of c with
      | Some d => read_digits rest (10 * acc + d) (S cnt)
      | None => (acc, cnt, s)
      end
  | EmptyString => (acc, cnt, s)
  end.

Definition float_of_Z (n : Z) : float := PrimFloat.of_uint63 (Uint63.of_Z n).

Definition read_unsigned (s : string) : float :=
  if String.eqb s "Infinity" then infinity else
  match read_digits s 0 0 with
  | (_, O, _) => nan
  | (i, S _, EmptyString) => float_of_Z i
  | (i, S _, String "."%char frac) =>
      match read_digits frac i 0 with
      | (m, k, EmptyString) => (float_of_Z m / float_of_Z (10 ^ Z.of_nat k))%float
      | _ => nan
      end
  | _ => nan
  end.

Definition read_number (s : string) : float :=
  match s with
  | String "-"%char rest => (- read_unsigned rest)%float
  | String "+"%char rest => read_unsigned rest
  | _ => read_unsigned s
  end.

Definition digit_char (d : Z) : ascii := Ascii.ascii_of_N (Z.to_N (48 + d mod 10)).

(** [n] in decimal, on exactly [width] digits. *)
Fixpoint pad (width : nat) (n : Z) (suffix : string) : string :=
  match width with
  | O => suffix
  | S w => pad w (n / 10) (String (digit_char n) suffix)
  end.

(** Days since 1970-01-01 to the civil date (year, month, day) of the
    proleptic Gregorian calendar. *)
Definition civil_of_days (days : Z) : Z * Z * Z :=
  let z := days + 719468 in
  let era := z / 146097 in
  let doe := z - era * 146097 in
  let yoe := (doe - doe / 1460 + doe / 36524 - doe / 146096) / 365 in
  let doy := doe - (365 * yoe + yoe / 4 - yoe / 100) in
  let mp := (5 * doy + 2) / 153 in
  let d := doy - (153 * mp + 2) / 5 + 1 in
  let m := if mp <? 10 then mp + 3 else mp - 9 in
  let y := yoe + era * 400 + (if m <=? 2 then 1 else 0) in
  (y, m, d).

Definition iso_string (ms : Z) : string :=
  let days := ms / 86400000 in
  let r := ms mod 86400000 in
  let '(y, m, d) := civil_of_days days in
  let hh := r / 3600000 in
  let mi := r / 60000 mod 60 in
  let ss := r / 1000 mod 60 in
  let mmm := r mod 1000 in
  pad 4 y "-" +:+ pad 2 m "-" +:+ pad 2 d "T" +:+ pad 2 hh ":"
    +:+ pad 2 mi ":" +:+ pad 2 ss "." +:+ pad 3 mmm "Z".

#[export] Instance runtime : JsRuntime := {|
  parseFloat := read_number;
  ToNumber := fun s => if String.eqb s "" then 0%float else read_number s;
  toISOString := iso_string
|}.

End RefRuntime.

(** ** Numbers on their way into a [NUMERIC] column

    The driver sends a JavaScript number as the text that [Number::toString]
    writes for it, and the server reads that decimal and rounds it to the
    scale of the column, half away from zero: a column of type
    [NUMERIC(10,4)] holds [33.3333] for the number [33.33333333333333]. *)

(** A number as a column of type [NUMERIC(precision, scale)] holds it:
    [Decimal u s] is [u / 10^s]. A [NUMERIC] column can hold [NaN]. It cannot
    hold an infinity, nor a number with more than [precision - scale] digits
    before the point: the statement that sends one fails, which is one of
    the failures of [Unavailable] below. [NumericInfinity] and the unscaled
    values out of range only make the conversion total. *)
Inductive Numeric :=
  | NumericNaN
  | NumericInfinity (negative : bool)
  | Decimal (unscaled : Z) (scale : nat).

Module Pg.

(** [s * 10^a] compared with [b * 2^c], whatever the signs of [a] and [c]. *)
Definition compare_scaled (s a b c : Z) : comparison :=
  Z.compare (s * 10 ^ Z.max a 0 * 2 ^ Z.max (- c) 0)
            (b * 2 ^ Z.max c 0 * 10 ^ Z.max (- a) 0).

(** The largest integer [s] with [s * 10^a <= m * 2^e]. *)
Definition floor_scaled (m e a : Z) : Z :=
  (m * 2 ^ Z.max e 0 * 10 ^ Z.max (- a) 0)
  / (2 ^ Z.max (- e) 0 * 10 ^ Z.max a 0).

(** The least [n], from [n] on, with [m * 2^e < 10^n]. *)
Fixpoint magnitude (fuel : nat) (m e n : Z) : Z :=
  match fuel with
  | O => n
  | S fuel' =>
      match compare_scaled 1 n m e with
      | Gt => n
      | _ => magnitude fuel' m e (n + 1)
      end
  end.

(** Whether the decimal [s * 10^a] reads as the binary64 number [m * 2^e]:
    whether it lies between the midpoints to the two neighbouring numbers,
    the midpoints included when [m] is even. *)
Definition rounds_to (m e s a : Z) : bool :=
  let low := if (m =? 2 ^ 52) && (-1074 <? e) then 4 * m - 1 else 4 * m - 2 in
  let high := 4 * m + 2 in
  match compare_scaled s a low (e - 2), compare_scaled s a high (e - 2) with
  | Gt, Lt => true
  | Eq, Lt | Gt, Eq => Z.even m
  | _, _ => false
  end.

(** The digits [s] and the exponent [n - k] that [Number::toString] writes
    for [m * 2^e]: the decimal [s * 10^(n-k)] with the fewest digits [k] that
    reads as that number, and of those the closest to it (the even [s] in a
    tie). *)
Fixpoint shortest (fuel : nat) (m e n k : Z) : Z * Z :=
  let a := n - k in
  let s := floor_scaled m e a in
  match fuel with
  | O => (s, a)
  | S fuel' =>
      match rounds_to m e s a, rounds_to m e (s + 1) a with
      | true, false => (s, a)
      | false, true => (s + 1, a)
      | true, true =>
          match compare_scaled (2 * s + 1) a (2 * m) e with
          | Gt => (s, a)
          | Lt => (s + 1, a)
          | Eq => if Z.even s then (s, a) else (s + 1, a)
          end
      | false, false => shortest fuel' m e n (k + 1)
      end
  end.

(** [s * 10^a] rounded to [scale] decimals, half away from zero, for
    [0 <= s]; the result is the unscaled value. *)
Definition round_half_away (s a : Z) (scale : nat) : Z :=
  let j := a + Z.of_nat scale in
  if 0 <=? j then s * 10 ^ j
  else (2 * s + 10 ^ (- j)) / (2 * 10 ^ (- j)).

(** The value that a column of type [NUMERIC(precision, scale)] holds for
    the number [x] sent as a parameter. *)
Definition numeric (scale : nat) (x : float) : Numeric :=
  match Prim2SF x with
  | S754_nan => NumericNaN
  | S754_infinity negative => NumericInfinity negative
  | S754_zero _ => Decimal 0 scale
  | S754_finite negative m e =>
      let m := Z.pos m in
      let n := magnitude 700 m e ((Z.log2 m + e) * 1233 / 4096 - 1) in
      let '(s, a) := shortest 17 m e n 1 in
      let u := round_half_away s a scale in
      Decimal (if negative then - u else u) scale
  end.

End Pg.

(** ** The PostgreSQL store of [db-storage.js] *)

(** The columns of [aave_market_metrics] that the INSERT names, the key
    [block_number] apart. The numbers are of type [N]: JavaScript numbers in
    the parameters of the statement, [Numeric] in a row. *)
Record MarketColumns (N : Type) := {
  m_timestamp : Z;
  m_network : string;
  m_total_market_size : N;
  m_total_borrows : N;
  m_average_utilization : N;
  m_token_count : nat
}.

Arguments m_timestamp {N}.
Arguments m_network {N}.
Arguments m_total_market_size {N}.
Arguments m_total_borrows {N}.
Arguments m_average_utilization {N}.
Arguments m_token_count {N}.

(** The parameters of the aggregate upsert. *)
Definition MarketValues : Type := MarketColumns float.

(** The parameters as the columns [total_market_size NUMERIC(36,18)],
    [total_borrows NUMERIC(36,18)] and [average_utilization NUMERIC(10,4)]
    hold them. *)
Definition marketColumnsOf (v : MarketValues) : MarketColumns Numeric :=
  {| m_timestamp := v.(m_timestamp);
     m_network := v.(m_network);
     m_total_market_size := Pg.numeric 18 v.(m_total_market_size);
     m_total_borrows := Pg.numeric 18 v.(m_total_borrows);
     m_average_utilization := Pg.numeric 4 v.(m_average_utilization);
     m_token_count := v.(m_token_count) |}.

(** A row of [aave_market_metrics]; [created_at] is filled by its default. *)
Record MarketRow := {
  m_values : MarketColumns Numeric;
  m_created_at : Z
}.

(** The columns of a per-token table that the INSERT names, the key
    [block_number] apart. A cap is [None] for SQL NULL. *)
Record TokenColumns (N : Type) := {
  t_timestamp : Z;
  t_token_name : string;
  t_price_usd : N;
  t_total_supplied : N;
  t_total_supplied_usd : N;
  t_total_borrowed : N;
  t_total_borrowed_usd : N;
  t_utilization_rate : N;
  t_supply_apy : N;
  t_borrow_apy : N;
  t_reserve_factor : N;
  t_liquidation_threshold : N;
  t_borrow_enabled : bool;
  t_supply_cap : option N;
  t_borrow_cap : option N
}.

Arguments t_timestamp {N}.
Arguments t_token_name {N}.
Arguments t_price_usd {N}.
Arguments t_total_supplied {N}.
Arguments t_total_supplied_usd {N}.
Arguments t_total_borrowed {N}.
Arguments t_total_borrowed_usd {N}.
Arguments t_utilization_rate {N}.
Arguments t_supply_apy {N}.
Arguments t_borrow_apy {N}.
Arguments t_reserve_factor {N}.
Arguments t_liquidation_threshold {N}.
Arguments t_borrow_enabled {N}.
Arguments t_supply_cap {N}.
Arguments t_borrow_cap {N}.

(** The parameters of a per-token upsert. *)
Definition TokenValues : Type := TokenColumns float.

(** The parameters as the columns hold them: [price_usd], the four amounts
    and the two caps are [NUMERIC(36,18)]; [utilization_rate], [supply_apy],
    [borrow_apy], [reserve_factor] and [liquidation_threshold] are
    [NUMERIC(10,4)]. *)
Definition tokenColumnsOf (v : TokenValues) : TokenColumns Numeric :=
  {| t_timestamp := v.(t_timestamp);
     t_token_name := v.(t_token_name);
     t_price_usd := Pg.numeric 18 v.(t_price_usd);
     t_total_supplied := Pg.numeric 18 v.(t_total_supplied);
     t_total_supplied_usd := Pg.numeric 18 v.(t_total_supplied_usd);
     t_total_borrowed := Pg.numeric 18 v.(t_total_borrowed);
     t_total_borrowed_usd := Pg.numeric 18 v.(t_total_borrowed_usd);
     t_utilization_rate := Pg.numeric 4 v.(t_utilization_rate);
     t_supply_apy := Pg.numeric 4 v.(t_supply_apy);
     t_borrow_apy := Pg.numeric 4 v.(t_borrow_apy);
     t_reserve_factor := Pg.numeric 4 v.(t_reserve_factor);
     t_liquidation_threshold := Pg.numeric 4 v.(t_liquidation_threshold);
     t_borrow_enabled := v.(t_borrow_enabled);
     t_supply_cap := Pg.numeric 18 <$> v.(t_supply_cap);
     t_borrow_cap := Pg.numeric 18 <$> v.(t_borrow_cap) |}.

Record TokenRow := {
  t_values : TokenColumns Numeric;
  t_created_at : Z
}.

(** The database: every table is keyed by its primary key [block_number], so
    it holds at most one row per block. [market] is [None] while
    [aave_market_metrics] does not exist; [tokenTables] maps the name of each
    existing per-token table to its rows. *)
Record Database := {
  market : option (gmap Z MarketRow);
  tokenTables : gmap string (gmap Z TokenRow)
}.

Definition emptyDatabase : Database :=
  {| market := None; tokenTables := ∅ |}.

(** [DO UPDATE SET] of the aggregate upsert: every inserted column but
    [network]; [created_at] is not touched either. [excluded] holds the
    parameters, which the columns round. *)
Definition market_on_conflict (old : MarketRow) (excluded : MarketValues)
    : MarketRow :=
  {| m_values :=
       {| m_timestamp := (marketColumnsOf excluded).(m_timestamp);
          m_network := old.(m_values).(m_network);
          m_total_market_size := (marketColumnsOf excluded).(m_total_market_size);
          m_total_borrows := (marketColumnsOf excluded).(m_total_borrows);
          m_average_utilization :=
            (marketColumnsOf excluded).(m_average_utilization);
          m_token_count := (marketColumnsOf excluded).(m_token_count) |};
     m_created_at := old.(m_created_at) |}.

(** [DO UPDATE SET] of the per-token upsert: every inserted column but
    [token_name]. *)
Definition token_on_conflict (old : TokenRow) (excluded : TokenValues)
    : TokenRow :=
  {| t_values :=
       {| t_timestamp := (tokenColumnsOf excluded).(t_timestamp);
          t_token_name := old.(t_values).(t_token_name);
          t_price_usd := (tokenColumnsOf excluded).(t_price_usd);
          t_total_supplied := (tokenColumnsOf excluded).(t_total_supplied);
          t_total_supplied_usd := (tokenColumnsOf excluded).(t_total_supplied_usd);
          t_total_borrowed := (tokenColumnsOf excluded).(t_total_borrowed);
          t_total_borrowed_usd := (tokenColumnsOf excluded).(t_total_borrowed_usd);
          t_utilization_rate := (tokenColumnsOf excluded).(t_utilization_rate);
          t_supply_apy := (tokenColumnsOf excluded).(t_supply_apy);
          t_borrow_apy := (tokenColumnsOf excluded).(t_borrow_apy);
          t_reserve_factor := (tokenColumnsOf excluded).(t_reserve_factor);
          t_liquidation_threshold :=
            (tokenColumnsOf excluded).(t_liquidation_threshold);
          t_borrow_enabled := (tokenColumnsOf excluded).(t_borrow_enabled);
          t_supply_cap := (tokenColumnsOf excluded).(t_supply_cap);
          t_borrow_cap := (tokenColumnsOf excluded).(t_borrow_cap) |};
     t_created_at := old.(t_created_at) |}.

(** The row that [INSERT ... ON CONFLICT (block_number) DO UPDATE] leaves at
    the key: the inserted row when the key was free, the update of the
    existing row otherwise. [now] is the default of [created_at]. *)
Definition upsert_market_row (now : Z) (v : MarketValues)
    (existing : option MarketRow) : MarketRow :=
  match existing with
  | Some old => market_on_conflict old v
  | None => {| m_values := marketColumnsOf v; m_created_at := now |}
  end.

Definition upsert_token_row (now : Z) (v : TokenValues)
    (existing : option TokenRow) : TokenRow :=
  match existing with
  | Some old => token_on_conflict old v
  | None => {| t_values := tokenColumnsOf v; t_created_at := now |}
  end.

Definition upsert_market (now block : Z) (v : MarketValues)
    (tbl : gmap Z MarketRow) : gmap Z MarketRow :=
  <[block := upsert_market_row now v (tbl !! block)]> tbl.

Definition upsert_token (now block : Z) (v : TokenValues)
    (tbl : gmap Z TokenRow) : gmap Z TokenRow :=
  <[block := upsert_token_row now v (tbl !! block)]> tbl.

(** The statements the code sends. *)
Inductive Statement :=
  | BEGIN
  | COMMIT
  | ROLLBACK
  | CreateMarketTable
  | CreateTokenTable (tableName : string)
  | UpsertMarket (block_number : Z) (v : MarketValues)
  | UpsertToken (tableName : string) (block_number : Z) (v : TokenValues).

Inductive DbError :=
  (** the statement names a table that does not exist *)
  | UndefinedTable (tableName : string)
  (** the statement with this index failed for another reason: the
      connection, the server, or a value that its column cannot hold (a
      number out of the range of a [NUMERIC] column, a string too long) *)
  | Unavailable (query : nat).

(** What a data statement does to the data it sees; [now] is the server's
    [CURRENT_TIMESTAMP]. *)
Definition apply_statement (now : Z) (st : Statement) (d : Database)
    : DbError + Database :=
  match st with
  | CreateMarketTable =>
      inr {| market := Some (default ∅ d.(market));
             tokenTables := d.(tokenTables) |}
  | CreateTokenTable tableName =>
      inr {| market := d.(market);
             tokenTables :=
               match d.(tokenTables) !! tableName with
               | Some _ => d.(tokenTables)
               | None => <[tableName := ∅]> d.(tokenTables)
               end |}
  | UpsertMarket block v =>
      match d.(market) with
      | Some tbl =>
          inr {| market := Some (upsert_market now block v tbl);
                 tokenTables := d.(tokenTables) |}
      | None => inl (UndefinedTable "aave_market_metrics")
      end
  | UpsertToken tableName block v =>
      match d.(tokenTables) !! tableName with
      | Some tbl =>
          inr {| market := d.(market);
                 tokenTables :=
                   <[tableName := upsert_token now block v tbl]> d.(tokenTables) |}
      | None => inl (UndefinedTable tableName)
      end
  | BEGIN | COMMIT | ROLLBACK => inr d
  end.

(** The statements that read or write data, as opposed to the three that
    control the transaction. *)
Definition is_data (st : Statement) : bool :=
  match st with
  | BEGIN | COMMIT | ROLLBACK => false
  | _ => true
  end.

(** A client checked out of the pool: the committed data, the data as the open
    transaction sees it (if one is open), and how many statements it has
    sent. *)
Record Client := {
  committed : Database;
  txn : option Database;
  issued : nat
}.

Definition visible (c : Client) : Database := default c.(committed) c.(txn).

(** The server's side of one statement. Outside a transaction a data statement
    commits at once. *)
Definition run_statement (now : Z) (st : Statement) (c : Client)
    : DbError + Client :=
  match st with
  | BEGIN =>
      inr {| committed := c.(committed); txn := Some (visible c);
             issued := c.(issued) |}
  | COMMIT =>
      inr {| committed := visible c; txn := None; issued := c.(issued) |}
  | ROLLBACK =>
      inr {| committed := c.(committed); txn := None; issued := c.(issued) |}
  | _ =>
      match apply_statement now st (visible c) with
      | inl e => inl e
      | inr d =>
          inr match c.(txn) with
              | Some _ => {| committed := c.(committed); txn := Some d;
                             issued := c.(issued) |}
              | None => {| committed := d; txn := None; issued := c.(issued) |}
              end
      end
  end.

(** Code that talks to the database through a client and may throw. *)
Definition Exec (A : Type) : Type := Client -> (DbError + A) * Client.

#[export] Instance exec_ret : MRet Exec := fun A (a : A) c => (inr a, c).

#[export] Instance exec_bind : MBind Exec := fun A B (k : A -> Exec B) (m : Exec A) c =>
  match m c with
  | (inr a, c') => k a c'
  | (inl e, c') => (inl e, c')
  end.

(** [throw e]. *)
Definition throw {A} (e : DbError) : Exec A := fun c => (inl e, c).

(** [try { body } catch (error) { handler error }]. *)
Definition try_catch {A} (body : Exec A) (handler : DbError -> Exec A) : Exec A :=
  fun c =>
    match body c with
    | (inr a, c') => (inr a, c')
    | (inl e, c') => handler e c'
    end.

(** [for (const x of l) { await body x }]. *)
Fixpoint for_of {A} (l : list A) (body : A -> Exec unit) : Exec unit :=
  match l with
  | [] => mret tt
  | x :: rest => body x ;; for_of rest body
  end.

Section Queries.
(** [faults n] tells whether the [n]-th statement of the client fails for a
    reason outside the data; [now] is the server's clock. *)
Variable faults : nat -> bool.
Variable now : Z.

(** [await client.query(st)]. *)
Definition query (st : Statement) : Exec unit :=
  fun c =>
    let n := c.(issued) in
    let c1 := {| committed := c.(committed); txn := c.(txn); issued := S n |} in
    if faults n then (inl (Unavailable n), c1)
    else match run_statement now st c1 with
         | inl e => (inl e, c1)
         | inr c2 => (inr tt, c2)
         end.
End Queries.

(** [pool.connect()] and [client.release()]: a client starts outside any
    transaction; what a released client has not committed is lost. *)
Definition connect (d : Database) : Client :=
  {| committed := d; txn := None; issued := 0 |}.

Definition release (c : Client) : Database := c.(committed).

(** A client inside a transaction that sees [w] while [d0] is committed. *)
Definition inTxn (d0 w : Database) (k : nat) : Client :=
  {| committed := d0; txn := Some w; issued := k |}.

(** *** Table names *)

(** [String.prototype.toLowerCase] on one character of an ASCII symbol. *)
Definition toLowerCase_char (c : ascii) : ascii :=
  let n := Ascii.N_of_ascii c in
  if ((65 <=? n) && (n <=? 90))%N then Ascii.ascii_of_N (n + 32) else c.

(** The character class [[a-z0-9]]. *)
Definition is_a_z_0_9 (c : ascii) : bool :=
  let n := Ascii.N_of_ascii c in
  (((97 <=? n) && (n <=? 122)) || ((48 <=? n) && (n <=? 57)))%N.

Fixpoint map_string (f : ascii -> ascii) (s : string) : string :=
  match s with
  | EmptyString => EmptyString
  | String c rest => String (f c) (map_string f rest)
  end.

(** [`aave_token_${symbol.toLowerCase().replace(/[^a-z0-9]/g, '_')}`], for a
    symbol made of ASCII characters. *)
Definition tableName (symbol : string) : string :=
  "aave_token_" +:+
    map_string (fun c => if is_a_z_0_9 c then c else "_"%char)
      (map_string toLowerCase_char symbol).

(** *** [initializeDatabase] *)

Definition defaultTokenSymbols : list string :=
  ["WETH"; "USDC"; "USDbC"; "wstETH"; "cbETH"; "cbBTC"; "GHO"; "weETH";
   "ezETH"; "wrsETH"; "LBTC"; "EURC"].

(** [latestFile] is the list of the symbols of
    [data/base-aave-metrics-latest.json] when that file exists. *)
Definition initializeDatabase (faults : nat -> bool) (now : Z)
    (latestFile : option (list string)) (d : Database)
    : (DbError + unit) * Database :=
  let client := connect d in
  let '(r, client') :=
    try_catch
      (query faults now CreateMarketTable ;;
       let tokenSymbols :=
         match latestFile with
         | Some symbols => symbols
         | None => defaultTokenSymbols
         end in
       for_of tokenSymbols (fun symbol =>
         query faults now (CreateTokenTable (tableName symbol))))
      (fun error => throw error)
      client in
  (r, release client').

(** *** [storeMetrics] *)

(** The seven parameters of the aggregate upsert. *)
Definition marketValuesOf (metricsData : Snapshot) : MarketValues :=
  {| m_timestamp := metricsData.(timestamp);
     m_network := metricsData.(network);
     m_total_market_size := metricsData.(totalMarketSize);
     m_total_borrows := metricsData.(totalBorrows);
     m_average_utilization := metricsData.(averageUtilization);
     m_token_count := metricsData.(tokenCount) |}.

(** [cap === Infinity ? null : cap]. *)
Definition capParameter (cap : float) : option float :=
  if Js.strict_eq cap infinity then None else Some cap.

(** The sixteen parameters of a per-token upsert. *)
Definition tokenValuesOf (metricsData : Snapshot) (token : TokenMetric)
    : TokenValues :=
  {| t_timestamp := metricsData.(timestamp);
     t_token_name := token.(tm_token);
     t_price_usd := token.(tm_priceInUSD);
     t_total_supplied := token.(tm_totalSupplied);
     t_total_supplied_usd := token.(tm_totalSuppliedUSD);
     t_total_borrowed := token.(tm_totalBorrowed);
     t_total_borrowed_usd := token.(tm_totalBorrowedUSD);
     t_utilization_rate := token.(tm_utilizationRate);
     t_supply_apy := token.(tm_supplyAPY);
     t_borrow_apy := token.(tm_variableBorrowAPY);
     t_reserve_factor := token.(tm_reserveFactor);
     t_liquidation_threshold := token.(tm_liquidationThreshold);
     t_borrow_enabled := token.(tm_borrowEnabled);
     t_supply_cap := capParameter token.(tm_supplyCap);
     t_borrow_cap := capParameter token.(tm_borrowCap) |}.

(** The body of the [try] block. *)
Definition storeMetrics_try (faults : nat -> bool) (now : Z)
    (metricsData : Snapshot) : Exec unit :=
  query faults now BEGIN ;;
  query faults now
    (UpsertMarket metricsData.(blockNumber) (marketValuesOf metricsData)) ;;
  for_of metricsData.(tokenMetrics) (fun token =>
    query faults now
      (UpsertToken (tableName token.(tm_symbol)) metricsData.(blockNumber)
         (tokenValuesOf metricsData token))) ;;
  query faults now COMMIT.

(** [storeMetrics(metricsData)] on the database [d]: the outcome and the
    database afterwards. ([pool.connect()] stands before the [try]; when it
    throws, no statement has been sent.) *)
Definition storeMetrics (faults : nat -> bool) (now : Z)
    (metricsData : Snapshot) (d : Database) : (DbError + unit) * Database :=
  let client := connect d in
  let '(r, client') :=
    try_catch (storeMetrics_try faults now metricsData)
      (fun error => query faults now ROLLBACK ;; throw error)
      client in
  (r, release client').

(** *** The [store] command *)

(** [await initializeDatabase(); await storeLatestMetrics();]. Both read the
    latest metrics file; [latest] is its content, [None] when the file does
    not exist, in which case [storeLatestMetrics] logs that and returns. *)
Definition storeCommand (faults1 : nat -> bool) (now1 : Z)
    (faults2 : nat -> bool) (now2 : Z) (latest : option Snapshot)
    (d : Database) : (DbError + unit) * Database :=
  let tokenSymbols :=
    option_map (fun metricsData => map tm_symbol metricsData.(tokenMetrics))
      latest in
  match initializeDatabase faults1 now1 tokenSymbols d with
  | (inl e, d1) => (inl e, d1)
  | (inr _, d1) =>
      match latest with
      | Some metricsData => storeMetrics faults2 now2 metricsData d1
      | None => (inr tt, d1)
      end
  end.

(** *** Reading back *)

(** [SELECT * FROM aave_market_metrics WHERE block_number = block]. *)
Definition marketRowAt (d : Database) (block : Z) : option MarketRow :=
  d.(market) ≫= fun tbl => tbl !! block.

(** [SELECT * FROM tableName WHERE block_number = block]. *)
Definition tokenRowAt (d : Database) (tableName : string) (block : Z)
    : option TokenRow :=
  d.(tokenTables) !! tableName ≫= fun tbl => tbl !! block.

(** *** What a call writes *)

(** The per-token upsert of [storeMetrics] for one token. *)
Definition upsertOf (metricsData : Snapshot) (token : TokenMetric) : Statement :=
  UpsertToken (tableName token.(tm_symbol)) metricsData.(blockNumber)
    (tokenValuesOf metricsData token).

(** The data statements of [storeMetrics], in the order in which it sends
    them. *)
Definition upserts (metricsData : Snapshot) : list Statement :=
  UpsertMarket metricsData.(blockNumber) (marketValuesOf metricsData)
  :: map (upsertOf metricsData) metricsData.(tokenMetrics).

(** Statements applied in order to the data, up to the first error. *)
Fixpoint apply_statements (now : Z) (sts : list Statement) (d : Database)
    : DbError + Database :=
  match sts with
  | [] => inr d
  | st :: rest =>
      match apply_statement now st d with
      | inl e => inl e
      | inr d' => apply_statements now rest d'
      end
  end.

(** The row that the table named [n] holds for the block once the per-token
    upserts of [tokens] have run, when it held [existing] before. *)
Fixpoint row_after (now : Z) (metricsData : Snapshot) (n : string)
    (tokens : list TokenMetric) (existing : option TokenRow) : option TokenRow :=
  match tokens with
  | [] => existing
  | token :: rest =>
      row_after now metricsData n rest
        (if decide (tableName token.(tm_symbol) = n)
         then Some (upsert_token_row now (tokenValuesOf metricsData token) existing)
         else existing)
  end.

(** The table named [n] after those upserts. *)
Definition table_after (now : Z) (metricsData : Snapshot) (n : string)
    (tokens : list TokenMetric) (tbl : gmap Z TokenRow) : gmap Z TokenRow :=
  match row_after now metricsData n tokens (tbl !! metricsData.(blockNumber)) with
  | Some row => <[metricsData.(blockNumber) := row]> tbl
  | None => tbl
  end.

(** [later] holds no token that is stored in the table of [token]. *)
Definition last_writer (token : TokenMetric) (later : list TokenMetric) : Prop :=
  Forall (fun t => tableName t.(tm_symbol) <> tableName token.(tm_symbol)) later.

(** Every row of [metricsData] is in [d]: the aggregate table has a row for
    the block in which every column of the upsert's SET list has the
    snapshot's value, as the column stores it; every token's table has a row
    for the block; and for the last token stored in each table, every column
    of the SET list has that token's value, as the column stores it. *)
Definition written (metricsData : Snapshot) (d : Database) : Prop :=
  (exists tbl row,
      d.(market) = Some tbl
      /\ tbl !! metricsData.(blockNumber) = Some row
      /\ market_on_conflict row (marketValuesOf metricsData) = row)
  /\ Forall (fun token =>
        exists tbl row,
          d.(tokenTables) !! tableName token.(tm_symbol) = Some tbl
          /\ tbl !! metricsData.(blockNumber) = Some row)
      metricsData.(tokenMetrics)
  /\ (forall earlier token later,
        metricsData.(tokenMetrics) = earlier ++ token :: later ->
        last_writer token later ->
        exists tbl row,
          d.(tokenTables) !! tableName token.(tm_symbol) = Some tbl
          /\ tbl !! metricsData.(blockNumber) = Some row
          /\ token_on_conflict row (tokenValuesOf metricsData token) = row).

(** ** The two ingestion paths *)

(** What the code takes from [@aave/contract-helpers] and [@aave/math-utils]:
    the humanized reserve and incentive data, whose content the indexer never
    inspects, and the formatter that turns them into [FormattedReserve]s. *)
Class AaveLibrary := {
  ReserveData : Type;
  IncentiveData : Type;
  (** [formatReservesAndIncentives({reserves, currentTimestamp,
      marketReferenceCurrencyDecimals, marketReferencePriceInUsd,
      reserveIncentives})] *)
  formatReservesAndIncentives :
    list ReserveData -> Z -> Z -> string -> IncentiveData -> list FormattedReserve
}.

(** What the two data-provider calls return for one block. *)
Record RawMarketData `{AaveLibrary} := {
  reservesData : list ReserveData;
  baseCurrencyData : BaseCurrencyData;
  reserveIncentives : IncentiveData
}.

Inductive IndexError :=
  | ChainUnavailable
  | BlockNotFound (block : Z)
  | FileError
  | StorageUnavailable (e : DbError).

(** Everything outside the process that one call of [indexBaseAaveMetrics]
    reads. *)
Record World `{AaveLibrary} := {
  (** [provider.getBlockNumber()], [None] when it throws *)
  w_head : option Z;
  (** whether [fetchReservesList()] returns *)
  w_reservesList : bool;
  (** the two data-provider calls, [None] when one throws *)
  w_market : option RawMarketData;
  (** [dayjs().unix()] *)
  w_clock : Z;
  (** whether the [fs.writeFileSync] calls return *)
  w_files : bool;
  (** the database's faults and clock during [storeMetrics] *)
  w_db_faults : nat -> bool;
  w_db_clock : Z
}.

Section Ingestion.
Context {rt : JsRuntime} {aave : AaveLibrary}.

(** Lines 136 to 259 of the live path: from the fetched data and the clock
    reading [currentTimestamp] to [metricsData]. *)
Definition liveSnapshot (currentBlock currentTimestamp : Z)
    (raw : RawMarketData) : Snapshot :=
  let formattedReserves :=
    formatReservesAndIncentives raw.(reservesData) currentTimestamp
      raw.(baseCurrencyData).(marketReferenceCurrencyDecimals)
      raw.(baseCurrencyData).(marketReferenceCurrencyPriceInUsd)
      raw.(reserveIncentives) in
  snapshotOf liveTokenMetric currentBlock currentTimestamp
    raw.(baseCurrencyData) formattedReserves.

(** The same step of [fetchBaseMetricsAtBlock], which takes the timestamp
    from the block. *)
Definition historicalSnapshot (blockNumber blockTimestamp : Z)
    (raw : RawMarketData) : Snapshot :=
  let formattedReserves :=
    formatReservesAndIncentives raw.(reservesData) blockTimestamp
      raw.(baseCurrencyData).(marketReferenceCurrencyDecimals)
      raw.(baseCurrencyData).(marketReferenceCurrencyPriceInUsd)
      raw.(reserveIncentives) in
  snapshotOf historicalTokenMetric blockNumber blockTimestamp
    raw.(baseCurrencyData) formattedReserves.

(** [indexBaseAaveMetrics(blockNumber, storeInDb)]: the value returned or
    the error thrown, and the database afterwards. A [blockNumber] that is
    [null] or [0] is falsy and stands for the chain head. *)
Definition indexBaseAaveMetrics (w : World) (blockNumber : option Z)
    (storeInDb : bool) (d : Database) : (IndexError + Snapshot) * Database :=
  let truthy :=
    match blockNumber with
    | Some n => if n =? 0 then None else Some n
    | None => None
    end in
  match (match truthy with Some n => Some n | None => w.(w_head) end) with
  | None => (inl ChainUnavailable, d)
  | Some currentBlock =>
      if negb w.(w_reservesList) then (inl ChainUnavailable, d) else
      match w.(w_market) with
      | None => (inl ChainUnavailable, d)
      | Some raw =>
          let currentTimestamp := w.(w_clock) in
          let metricsData := liveSnapshot currentBlock currentTimestamp raw in
          if negb w.(w_files) then (inl FileError, d) else
          if storeInDb then
            match storeMetrics w.(w_db_faults) w.(w_db_clock) metricsData d with
            | (inr _, d') => (inr metricsData, d')
            | (inl e, d') => (inl (StorageUnavailable e), d')
            end
          else (inr metricsData, d)
      end
  end.

(** [fetchBaseMetricsAtBlock(blockNumber)]; [block] is what
    [provider.getBlock(blockNumber)] returns ([None] for [null]), reduced to
    its timestamp. *)
Definition fetchBaseMetricsAtBlock (block : option Z)
    (market : option RawMarketData) (blockNumber : Z) : IndexError + Snapshot :=
  match block with
  | None => inl (BlockNotFound blockNumber)
  | Some blockTimestamp =>
      match market with
      | None => inl ChainUnavailable
      | Some raw => inr (historicalSnapshot blockNumber blockTimestamp raw)
      end
  end.

(** ** The poller of [startContinuousIndexing]

    [setInterval] starts the asynchronous callback every two seconds whether
    or not an earlier run of it has finished. A run reads the head and
    compares it with [lastProcessedBlock]; if the head is new it waits one
    second and ingests, and only then assigns the cursor. Between the
    comparison and the assignment other runs may start and finish, so a run
    is modelled as two events. *)
Record Poller := {
  lastProcessedBlock : Z;
  (** the block numbers of the runs that passed the comparison and have not
      finished, oldest first *)
  inFlight : list Z;
  storage : Database;
  (** how many errors the [catch] of the callback has logged *)
  logged : nat
}.

Inductive Event :=
  (** a run starts: [provider.getBlockNumber()] returns [head] or throws *)
  | Observe (head : option Z)
  (** the [i]-th run in flight finishes its ingestion in the world [w] *)
  | Complete (i : nat) (w : World).

Definition poll_step (p : Poller) (ev : Event) : Poller :=
  match ev with
  | Observe None =>
      {| lastProcessedBlock := p.(lastProcessedBlock);
         inFlight := p.(inFlight);
         storage := p.(storage);
         logged := S p.(logged) |}
  | Observe (Some blockNumber) =>
      if blockNumber <=? p.(lastProcessedBlock) then p
      else {| lastProcessedBlock := p.(lastProcessedBlock);
              inFlight := p.(inFlight) ++ [blockNumber];
              storage := p.(storage);
              logged := p.(logged) |}
  | Complete i w =>
      match p.(inFlight) !! i with
      | None => p
      | Some blockNumber =>
          match indexBaseAaveMetrics w (Some blockNumber) true p.(storage) with
          | (inr _, d) =>
              {| lastProcessedBlock := blockNumber;
                 inFlight := delete i p.(inFlight);
                 storage := d;
                 logged := p.(logged) |}
          | (inl _, d) =>
              {| lastProcessedBlock := p.(lastProcessedBlock);
                 inFlight := delete i p.(inFlight);
                 storage := d;
                 logged := S p.(logged) |}
          end
      end
  end.

Definition poll_run (p : Poller) (evs : list Event) : Poller :=
  fold_left poll_step evs p.

(** The poller once [startContinuousIndexing] has read the head. *)
Definition poller_start (currentBlock : Z) (d : Database) : Poller :=
  {| lastProcessedBlock := currentBlock; inFlight := []; storage := d;
     logged := 0 |}.

(** A schedule in which every run finishes before the next one starts: no
    run is in flight when a run starts. *)
Fixpoint sequential (p : Poller) (evs : list Event) : bool :=
  match evs with
  | [] => true
  | ev :: rest =>
      match ev, p.(inFlight) with
      | Observe _, _ :: _ => false
      | _, _ => sequential (poll_step p ev) rest
      end
  end.

(** What holds of the poller while runs do not overlap: at most one run is in
    flight, and its block is beyond the cursor. *)
Definition one_run (p : Poller) : Prop :=
  inFlight p = []
  \/ exists block, inFlight p = [block] /\ lastProcessedBlock p < block.

(** Every block number in play is positive, as it is once the poller has
    started from a head of the chain. *)
Definition positive (p : Poller) : Prop :=
  0 <= lastProcessedBlock p /\ Forall (fun block => 0 < block) (inFlight p).

End Ingestion.

(** ** Characters of symbols and table names *)

(** Whether every character of a string satisfies [p]. *)
Fixpoint all_chars (p : ascii -> bool) (s : string) : bool :=
  match s with
  | EmptyString => true
  | String c rest => p c && all_chars p rest
  end.

(** The characters of an unquoted SQL identifier that a table name may
    hold: [[a-z0-9_]]. *)
Definition is_identifier_char (c : ascii) : bool :=
  is_a_z_0_9 c || Ascii.eqb c "_".

(** The character class [[A-Z0-9]]. *)
Definition is_A_Z_0_9 (c : ascii) : bool :=
  let n := Ascii.N_of_ascii c in
  (((65 <=? n) && (n <=? 90)) || ((48 <=? n) && (n <=? 57)))%N.

(** [String.prototype.toUpperCase] on one character of an ASCII string. *)
Definition toUpperCase_char (c : ascii) : ascii :=
  let n := Ascii.N_of_ascii c in
  if ((97 <=? n) && (n <=? 122))%N then Ascii.ascii_of_N (n - 32) else c.

Definition toUpperCase (s : string) : string := map_string toUpperCase_char s.

Definition toLowerCase (s : string) : string := map_string toLowerCase_char s.

(** ** The schema that [initializeDatabase] sets up *)

(** [CREATE TABLE IF NOT EXISTS aave_market_metrics]. *)
Definition withMarketTable (d : Database) : Database :=
  {| market := Some (default ∅ d.(market)); tokenTables := d.(tokenTables) |}.

(** [CREATE TABLE IF NOT EXISTS] for the table of one symbol. *)
Definition withTokenTable (d : Database) (symbol : string) : Database :=
  {| market := d.(market);
     tokenTables :=
       match d.(tokenTables) !! tableName symbol with
       | Some _ => d.(tokenTables)
       | None => <[tableName symbol := ∅]> d.(tokenTables)
       end |}.

(** The tables of a list of symbols, created in order. *)
Definition withTokenTables (symbols : list string) (d : Database) : Database :=
  fold_left withTokenTable symbols d.

(** The symbols for which [initializeDatabase] creates tables. *)
Definition symbolsOf (latestFile : option (list string)) : list string :=
  match latestFile with
  | Some symbols => symbols
  | None => defaultTokenSymbols
  end.

(** ** Reading the store: [getRecentMetrics] *)

(** [await client.query(...)] for a [SELECT]: it counts as a statement of the
    client and may fail like any other; [read] is what it returns on the data
    the client sees. *)
Definition select {A} (faults : nat -> bool) (read : Database -> DbError + A)
    : Exec A :=
  fun c =>
    let n := c.(issued) in
    let c1 := {| committed := c.(committed); txn := c.(txn); issued := S n |} in
    if faults n then (inl (Unavailable n), c1) else (read (visible c1), c1).

(** [ORDER BY block_number DESC]. *)
Definition newest_first (x y : Z * MarketRow) : Prop := y.1 <= x.1.

#[export] Instance newest_first_dec : RelDecision newest_first :=
  fun x y => decide (y.1 <= x.1).

(** [SELECT * FROM aave_market_metrics ORDER BY block_number DESC LIMIT
    limit], for a [limit] that is a natural number. *)
Definition recentRows (limit : nat) (d : Database)
    : DbError + list (Z * MarketRow) :=
  match d.(market) with
  | Some tbl => inr (take limit (merge_sort newest_first (map_to_list tbl)))
  | None => inl (UndefinedTable "aave_market_metrics")
  end.

(** The SQL operator [LIKE] for a pattern without the escape character: [%]
    stands for any sequence of characters, [_] for any one character and
    every other character for itself. *)
Fixpoint like (pattern : string) : string -> bool :=
  match pattern with
  | EmptyString => fun s => match s with EmptyString => true | _ => false end
  | String p pattern' =>
      if Ascii.eqb p "%" then
        fix any (s : string) : bool :=
          like pattern' s
          || match s with
             | EmptyString => false
             | String _ s' => any s'
             end
      else if Ascii.eqb p "_" then
        fun s =>
          match s with
          | EmptyString => false
          | String _ s' => like pattern' s'
          end
      else
        fun s =>
          match s with
          | EmptyString => false
          | String c s' => Ascii.eqb p c && like pattern' s'
          end
  end.

(** The names in [information_schema.tables], in the order in which the
    server lists them. *)
Definition tableNames (d : Database) : list string :=
  match d.(market) with
  | Some _ => ["aave_market_metrics"]
  | None => []
  end ++ (map_to_list d.(tokenTables)).*1.

(** [SELECT table_name FROM information_schema.tables WHERE table_name LIKE
    'aave_token_%']. *)
Definition tokenTableNames (d : Database) : DbError + list string :=
  inr (filter (fun n => like "aave_token_%" n = true) (tableNames d)).

(** What is left of [s] after the prefix [pattern], if [s] starts with it. *)
Fixpoint starts_with (pattern s : string) : option string :=
  match pattern, s with
  | EmptyString, _ => Some s
  | String p pattern', String c s' =>
      if Ascii.eqb p c then starts_with pattern' s' else None
  | String _ _, EmptyString => None
  end.

(** [s.replace(pattern, replacement)] for a pattern that is a string: the
    first occurrence is replaced. *)
Fixpoint replace_first (pattern replacement s : string) : string :=
  match starts_with pattern s with
  | Some rest => replacement +:+ rest
  | None =>
      match s with
      | EmptyString => EmptyString
      | String c s' => String c (replace_first pattern replacement s')
      end
  end.

(** [tokenTable.replace('aave_token_', '').toUpperCase()]. *)
Definition tokenSymbol (tokenTable : string) : string :=
  toUpperCase (replace_first "aave_token_" "" tokenTable).

(** [SELECT * FROM ${tokenTable} WHERE block_number = latestBlock]; the block
    number is the key of the table, so there is at most one row. *)
Definition tokenRowOf (latestBlock : Z) (tokenTable : string) (d : Database)
    : DbError + option TokenRow :=
  match d.(tokenTables) !! tokenTable with
  | Some tbl => inr (tbl !! latestBlock)
  | None => inl (UndefinedTable tokenTable)
  end.

(** The loop over the token tables: the symbol and the row of every table
    that has a row for [latestBlock], in the order of the loop. *)
Fixpoint printTokens (faults : nat -> bool) (latestBlock : Z)
    (tables : list string) : Exec (list (string * TokenRow)) :=
  match tables with
  | [] => mret []
  | tokenTable :: rest =>
      tokenQuery ← select faults (tokenRowOf latestBlock tokenTable);
      printed ← printTokens faults latestBlock rest;
      mret (match tokenQuery with
            | Some tokenData => (tokenSymbol tokenTable, tokenData) :: printed
            | None => printed
            end)
  end.

(** The [try] block of [getRecentMetrics]: the rows it returns and the token
    rows it prints. *)
Definition getRecentMetrics_try (faults : nat -> bool) (limit : nat)
    : Exec (list (Z * MarketRow) * list (string * TokenRow)) :=
  rows ← select faults (recentRows limit);
  printed ← match rows with
            | (latestBlock, _) :: _ =>
                tables ← select faults tokenTableNames;
                printTokens faults latestBlock tables
            | [] => mret []
            end;
  mret (rows, printed).

(** [getRecentMetrics(limit)] on the database [d]: the rows returned and the
    token rows printed, or the error thrown. ([pool.connect()] stands before
    the [try]; when it throws, no query has been sent.) *)
Definition getRecentMetrics (faults : nat -> bool) (limit : nat) (d : Database)
    : DbError + list (Z * MarketRow) * list (string * TokenRow) :=
  let client := connect d in
  (try_catch (getRecentMetrics_try faults limit) (fun error => throw error)
     client).1.

(** The token rows of a block in the listed tables: what the loop prints
    when no query fails. *)
Definition printedRows (d : Database) (latestBlock : Z) (tables : list string)
    : list (string * TokenRow) :=
  omap (fun tokenTable =>
          (fun tokenData => (tokenSymbol tokenTable, tokenData))
            <$> tokenRowAt d tokenTable latestBlock) tables.

(** ** Schedules of the poller *)

Section Schedules.
Context {rt : JsRuntime} {aave : AaveLibrary}.

(** The heads that the runs of a schedule have read, in order. *)
Definition heads (evs : list Event) : list Z :=
  omap (fun ev =>
          match ev with
          | Observe (Some head) => Some head
          | _ => None
          end) evs.

(** The symbols of the reserves that the chain reports in the world [w],
    when it answers. *)
Definition listedSymbols (w : World) : option (list string) :=
  (fun raw =>
     map symbol
       (formatReservesAndIncentives raw.(reservesData) w.(w_clock)
          raw.(baseCurrencyData).(marketReferenceCurrencyDecimals)
          raw.(baseCurrencyData).(marketReferenceCurrencyPriceInUsd)
          raw.(reserveIncentives)))
    <$> w.(w_market).

(** In every world of the schedule in which the chain answers, the market
    lists a reserve with the symbol [sym]. *)
Definition listedThroughout (sym : string) (evs : list Event) : Prop :=
  Forall (fun ev =>
            match ev with
            | Complete _ w =>
                match listedSymbols w with
                | Some symbols => sym ∈ symbols
                | None => True
                end
            | Observe _ => True
            end) evs.

End Schedules.

(** ** The comparison of two blocks: [compareBaseBlockMetrics] *)

(** [set.add(x)] on a [Set], which keeps the order of insertion. *)
Definition Set_add (set : list string) (x : string) : list string :=
  if bool_decide (x ∈ set) then set else set ++ [x].

(** [new Set(items)]. *)
Definition new_Set (items : list string) : list string :=
  fold_left Set_add items [].

(** [tokenMetrics.find(t => t.symbol === symbol)]. *)
Definition findToken (tokens : list TokenMetric) (sym : string)
    : option TokenMetric :=
  find (fun t => String.eqb t.(tm_symbol) sym) tokens.

(** [t] is the first of [tokens] that has the symbol [sym]. *)
Definition first_with (sym : string) (tokens : list TokenMetric)
    (t : TokenMetric) : Prop :=
  exists earlier later,
    tokens = earlier ++ t :: later
    /\ t.(tm_symbol) = sym
    /\ sym ∉ map tm_symbol earlier.

(** What the report says about one symbol. *)
Inductive TokenReport :=
  (** the token is in both blocks: its figures are compared *)
  | Compared (startToken endToken : TokenMetric)
  (** [REMOVED from market] *)
  | REMOVED (startToken : TokenMetric)
  (** [ADDED to market] *)
  | ADDED (endToken : TokenMetric).

(** The body of [allTokens.forEach(symbol => ...)]; [None] when nothing is
    printed for the symbol. *)
Definition tokenReport (startMetrics endMetrics : Snapshot) (sym : string)
    : option TokenReport :=
  match findToken startMetrics.(tokenMetrics) sym,
        findToken endMetrics.(tokenMetrics) sym with
  | Some startToken, Some endToken => Some (Compared startToken endToken)
  | Some startToken, None => Some (REMOVED startToken)
  | None, Some endToken => Some (ADDED endToken)
  | None, None => None
  end.

(** The [Set] of the symbols of both blocks. *)
Definition allTokens (startMetrics endMetrics : Snapshot) : list string :=
  new_Set (map tm_symbol startMetrics.(tokenMetrics)
           ++ map tm_symbol endMetrics.(tokenMetrics)).

(** The section [TOKEN METRICS CHANGES] of the report, in the order in which
    it is printed. *)
Definition tokenReports (startMetrics endMetrics : Snapshot)
    : list (string * TokenReport) :=
  omap (fun sym => (fun r => (sym, r)) <$> tokenReport startMetrics endMetrics sym)
    (allTokens startMetrics endMetrics).

(** *** [formatTimeDifference] *)

(** The white space that [String.prototype.trim] removes, among the ASCII
    characters: tab, line feed, vertical tab, form feed, carriage return and
    space. *)
Definition is_white_space (c : ascii) : bool :=
  let n := Ascii.N_of_ascii c in
  (((9 <=? n) && (n <=? 13)) || (n =? 32))%N.

Fixpoint trimStart (s : string) : string :=
  match s with
  | EmptyString => EmptyString
  | String c rest => if is_white_space c then trimStart rest else s
  end.

Fixpoint trimEnd (s : string) : string :=
  match s with
  | EmptyString => EmptyString
  | String c rest =>
      match trimEnd rest with
      | EmptyString => if is_white_space c then EmptyString else String c EmptyString
      | rest' => String c rest'
      end
  end.

Definition trim (s : string) : string := trimEnd (trimStart s).

(** The constants [days], [hours] and [minutes] of
    [formatTimeDifference(secondsDiff)] for a difference of two Unix
    timestamps, which is an integer: [Math.floor(a / b)] is the floored
    quotient and [%] the remainder with the sign of the dividend. *)
Definition timeParts (secondsDiff : Z) : Z * Z * Z :=
  (secondsDiff / 86400,
   Z.rem secondsDiff 86400 / 3600,
   Z.rem secondsDiff 3600 / 60).

(** [formatTimeDifference(secondsDiff)]. *)
Definition formatTimeDifference (secondsDiff : Z) : string :=
  let '(days, hours, minutes) := timeParts secondsDiff in
  let result := EmptyString in
  let result := if 0 <? days then result +:+ pretty days +:+ " days " else result in
  let result := if 0 <? hours then result +:+ pretty hours +:+ " hours " else result in
  let result :=
    if 0 <? minutes then result +:+ pretty minutes +:+ " minutes" else result in
  trim result.

(** How one unit of a time difference reads: nothing when its count is not
    positive, the count and the unit otherwise. The text of a difference is
    compared with these parts, joined by a blank. *)
Definition timePart (count : Z) (unit : string) : list string :=
  if 0 <? count then [pretty count +:+ " " +:+ unit] else [].

(** *** The comparison *)

(** The object [comparisonData] that is written to the comparison file. *)
Record ComparisonData := {
  c_network : string;
  c_chainId : Z;
  c_startBlock : Snapshot;
  c_endBlock : Snapshot;
  timeDifferenceSeconds : Z;
  totalMarketSizeChange : float;
  totalBorrowsChange : float
}.

(** What a comparison prints and writes. *)
Record Comparison := {
  timeDifference : string;
  tokenChanges : list (string * TokenReport);
  comparisonData : ComparisonData
}.

Section Comparing.
Context {rt : JsRuntime} {aave : AaveLibrary}.

(** [compareBaseBlockMetrics(startBlock, endBlock)]. [startChain] and
    [endChain] are what the chain returns for the two blocks: the block's
    timestamp and the market data. The function returns nothing and throws
    nothing: its [catch] logs the error, which is the left case here (what
    was printed before the error is not kept). *)
Definition compareBaseBlockMetrics
    (startChain endChain : option Z * option RawMarketData) (files : bool)
    (startBlock endBlock : Z) : IndexError + Comparison :=
  match fetchBaseMetricsAtBlock startChain.1 startChain.2 startBlock with
  | inl error => inl error
  | inr startMetrics =>
      match fetchBaseMetricsAtBlock endChain.1 endChain.2 endBlock with
      | inl error => inl error
      | inr endMetrics =>
          let marketSizeChange :=
            calculatePercentChange startMetrics.(totalMarketSize)
              endMetrics.(totalMarketSize) in
          let totalBorrowsChange :=
            calculatePercentChange startMetrics.(totalBorrows)
              endMetrics.(totalBorrows) in
          if negb files then inl FileError else
          inr {| timeDifference :=
                   formatTimeDifference
                     (endMetrics.(timestamp) - startMetrics.(timestamp));
                 tokenChanges := tokenReports startMetrics endMetrics;
                 comparisonData :=
                   {| c_network := "Base";
                      c_chainId := BASE_CHAIN_ID;
                      c_startBlock := startMetrics;
                      c_endBlock := endMetrics;
                      timeDifferenceSeconds :=
                        endMetrics.(timestamp) - startMetrics.(timestamp);
                      totalMarketSizeChange := marketSizeChange;
                      totalBorrowsChange := totalBorrowsChange |} |}
      end
  end.

End Comparing.

(** ** Sample data *)

Module Sample.
Import RefRuntime.

(** A stand-in for the library whose raw reserves are already formatted and
    whose formatter returns them as they are. *)
#[export] Instance aave : AaveLibrary := {|
  ReserveData := FormattedReserve;
  IncentiveData := unit;
  formatReservesAndIncentives := fun reserves _ _ _ _ => reserves
|}.

(** The market reference currency of the Base market is the US dollar with
    eight decimals. *)
Definition usd : BaseCurrencyData :=
  {| marketReferenceCurrencyDecimals := 8;
     marketReferenceCurrencyPriceInUsd := "100000000" |}.

(** A reserve with the given symbol, price (in units of 1e-8 dollar),
    supply, debt and the library's dollar figures for the two. *)
Definition reserve (sym price supplied debt suppliedUSD debtUSD cap : string)
    : FormattedReserve :=
  {| name := sym; symbol := sym;
     priceInMarketReferenceCurrency := price;
     totalLiquidity := supplied; totalDebt := debt;
     totalLiquidityUSD := suppliedUSD; totalDebtUSD := debtUSD;
     reserves := "0"; reserveFactor := "0.1";
     formattedReserveLiquidationThreshold := "0.8";
     borrowingEnabled := true;
     supplyCap := cap; borrowCap := cap;
     supplyAPY := "0.02"; variableBorrowAPY := "0.03";
     stableBorrowAPY := "0" |}.

(** 1000 supplied, 400 borrowed, at 2 dollars. *)
Definition weth : FormattedReserve :=
  reserve "WETH" "200000000" "1000" "400" "2000" "800" "5000".

(** A reserve whose oracle price is zero. *)
Definition unpriced : FormattedReserve :=
  reserve "NEW" "0" "1000" "400" "0" "0" "0".

(** A reserve priced at 5e-8 dollar. *)
Definition dust : FormattedReserve :=
  reserve "DUST" "5" "1000" "400" "0.00005" "0.00002" "0".

(** A reserve that nobody has supplied yet. *)
Definition unsupplied : FormattedReserve :=
  reserve "NEW" "100000000" "0" "0" "0" "0" "0".

(** A tenth of a token at 3 dollars; the library gives its value as 0.3. *)
Definition tenth : FormattedReserve :=
  reserve "DAI" "300000000" "0.1" "0" "0.3" "0" "0".

(** A reserve of which a third is borrowed: 3 supplied and 1 borrowed at 1
    dollar. *)
Definition third : FormattedReserve :=
  reserve "USDC" "100000000" "3" "1" "3" "1" "0".

(** A reserve without caps, as the Aave protocol reports it: there a supply
    cap or borrow cap of 0 means that the reserve has no cap, and the library
    passes the caps on as the decimal texts of those numbers. *)
Definition capless : FormattedReserve :=
  reserve "GHO" "100000000" "1000" "400" "1000" "400" "0".

(** A reserve whose cap texts read [Infinity], the texts for which the test
    [=== Infinity] of the code holds. *)
Definition uncapped : FormattedReserve :=
  reserve "GHO" "100000000" "1000" "400" "1000" "400" "Infinity".

(** A reserve listed after the schema was set up: its symbol is not among
    the default ones. *)
Definition newcomer : FormattedReserve :=
  reserve "AERO" "150000000" "5000" "1000" "7500" "1500" "0".

Definition raw (rs : list FormattedReserve) : RawMarketData :=
  {| reservesData := rs; baseCurrencyData := usd; reserveIncentives := tt |}.

(** The snapshot of the sample reserve at block 100. *)
Definition snapshot100 : Snapshot := liveSnapshot 100 1700000000 (raw [weth]).

(** A snapshot with a reserve that was listed later. *)
Definition snapshot101 : Snapshot :=
  liveSnapshot 101 1700000002 (raw [weth; newcomer]).

(** A snapshot whose rates have more than four decimals: the utilization
    is a third. *)
Definition snapshot103 : Snapshot := liveSnapshot 103 1700000006 (raw [third]).

(** The snapshot of the reserve without caps. *)
Definition snapshot104 : Snapshot := liveSnapshot 104 1700000008 (raw [capless]).

(** The same snapshot under another network label and with other token
    names, as an older writer of the same tables could have stored it. *)
Definition relabelled (net tokenName : string) (s : Snapshot) : Snapshot :=
  {| network := net; chainId := s.(chainId); blockNumber := s.(blockNumber);
     timestamp := s.(timestamp); date := s.(date);
     totalMarketSize := s.(totalMarketSize);
     totalAvailable := s.(totalAvailable);
     totalBorrows := s.(totalBorrows);
     averageUtilization := s.(averageUtilization);
     tokenCount := s.(tokenCount);
     tokenMetrics :=
       map (fun t =>
              {| tm_token := tokenName; tm_symbol := t.(tm_symbol);
                 tm_priceInUSD := t.(tm_priceInUSD);
                 tm_liquidity := t.(tm_liquidity);
                 tm_liquidityUSD := t.(tm_liquidityUSD);
                 tm_totalSupplied := t.(tm_totalSupplied);
                 tm_totalSuppliedUSD := t.(tm_totalSuppliedUSD);
                 tm_totalBorrowed := t.(tm_totalBorrowed);
                 tm_totalBorrowedUSD := t.(tm_totalBorrowedUSD);
                 tm_utilizationRate := t.(tm_utilizationRate);
                 tm_reserves := t.(tm_reserves);
                 tm_reserveFactor := t.(tm_reserveFactor);
                 tm_liquidationThreshold := t.(tm_liquidationThreshold);
                 tm_borrowEnabled := t.(tm_borrowEnabled);
                 tm_supplyCap := t.(tm_supplyCap);
                 tm_borrowCap := t.(tm_borrowCap);
                 tm_supplyAPY := t.(tm_supplyAPY);
                 tm_variableBorrowAPY := t.(tm_variableBorrowAPY);
                 tm_stableBorrowAPY := t.(tm_stableBorrowAPY) |})
         s.(tokenMetrics) |}.

(** A database server that never fails. *)
Definition noFaults : nat -> bool := fun _ => false.

(** The database after [initializeDatabase] has run once on an empty
    database, without a latest metrics file: the aggregate table and the
    tables of the twelve default symbols. *)
Definition bootstrapped : Database :=
  (initializeDatabase noFaults 1699999000 None emptyDatabase).2.

(** The bootstrapped database in which an earlier writer has stored block 100
    under the network label [Optimism] and the token name [Wrapped Ether]. *)
Definition written_before : Database :=
  (storeMetrics noFaults 1699999999
     (relabelled "Optimism" "Wrapped Ether" snapshot100) bootstrapped).2.

(** The bootstrapped database after two calls of [storeMetrics] for the
    snapshot of block 100, at the seconds 1 and 2 of the server's clock. *)
Definition storedTwice (d : Database) : Database :=
  (storeMetrics noFaults 2 snapshot100
     (storeMetrics noFaults 1 snapshot100 d).2).2.

(** A database that has the tables of both reserves of [snapshot101]. *)
Definition withNewcomer : Database :=
  (initializeDatabase noFaults 1699999000 (Some ["WETH"; "AERO"])
     emptyDatabase).2.

(** A world in which every call answers: the chain gives the sample reserve,
    the clock reads [clock], files are written and the database never
    fails. *)
Definition calm (head clock : Z) : World :=
  {| w_head := Some head; w_reservesList := true;
     w_market := Some (raw [weth]); w_clock := clock; w_files := true;
     w_db_faults := noFaults; w_db_clock := clock |}.

(** The same world with a chain that does not answer. *)
Definition offline (clock : Z) : World :=
  {| w_head := None; w_reservesList := false;
     w_market := None; w_clock := clock; w_files := true;
     w_db_faults := noFaults; w_db_clock := clock |}.

(** A snapshot with two reserves whose symbols differ in case only, which
    [tableName] sends to the same table [aave_token_usdc]: the first costs 1
    dollar, the second 3 dollars. *)
Definition snapshot102 : Snapshot :=
  liveSnapshot 102 1700000004
    (raw [reserve "USDC" "100000000" "1000" "400" "1000" "400" "0";
          reserve "usdc" "300000000" "10" "0" "30" "0" "0"]).

(** Two runs of the callback overlap: the run that saw block 103 is still
    ingesting when the next run sees block 105, and the later run finishes
    first. *)
Definition overlapping : list Event :=
  [Observe (Some 103); Observe (Some 105);
   Complete 1 (calm 105 1700000010); Complete 0 (calm 105 1700000011)].

(** The database that has the tables of both reserves after the snapshots of
    the blocks 100 and 101 have been stored. *)
Definition twoBlocks : Database :=
  (storeMetrics noFaults 2 snapshot101
     (storeMetrics noFaults 1 snapshot100 withNewcomer).2).2.

(** A world in which the chain reports the reserves [rs]. *)
Definition listing (rs : list FormattedReserve) (head clock : Z) : World :=
  {| w_head := Some head; w_reservesList := true;
     w_market := Some (raw rs); w_clock := clock; w_files := true;
     w_db_faults := noFaults; w_db_clock := clock |}.

(** After the reserve AERO was listed, a run of the poller that was started
    on the bootstrapped database. *)
Definition afterListing : list Event :=
  [Observe (Some 103); Complete 0 (listing [weth; newcomer] 103 1700000010);
   Observe (Some 104); Complete 0 (listing [weth; newcomer] 104 1700000012)].

End Sample.


(** * Verified properties *)

(** ** Facts on binary64 comparisons *)

Section FloatFacts.
Local Open Scope float_scope.

(** A number that [=== 0] (so [0] or [-0]) is not [> 0]. *)
Lemma zero_not_gt (s : float) :
  Js.strict_eq s 0 = true -> Js.gt s 0 = false.
Proof.
  unfold Js.strict_eq, Js.gt.
  rewrite FloatAxioms.eqb_spec, FloatAxioms.ltb_spec.
  change (Prim2SF 0) with (S754_zero false).
  destruct (Prim2SF s) as [sg|sg| |sg m e]; simpl; try reflexivity;
    try discriminate; destruct sg; discriminate.
Qed.

(** Conversely a number [> 0] is not [=== 0]. *)
Lemma gt_not_zero (s : float) :
  Js.gt s 0 = true -> Js.strict_eq s 0 = false.
Proof.
  intros Hgt. destruct (Js.strict_eq s 0) eqn:Heq; [|reflexivity].
  apply zero_not_gt in Heq. congruence.
Qed.

(** Two numbers that [===] tells apart are different values. *)
Lemma strict_neq_neq (a b : float) :
  Js.strict_eq a a = true -> Js.strict_eq a b = false -> a <> b.
Proof. intros Ha Hb ->. congruence. Qed.

End FloatFacts.

(** ** The comparison helper *)

Section PercentChange.
Local Open Scope float_scope.

(** C4. [calculatePercentChange(x, y)] is [0] when [x] and [y] are both
    zero, [100] when [x] is zero and [y] is not, and
    [(y - x) / |x| * 100] otherwise; zero is tested with [===], so [-0]
    counts as zero and [NaN] does not. In particular it maps [(0, 0)] to
    [0], [(0, 50)] to [100] and [(100, 150)] to [50]. *)
Theorem calculatePercentChange_cases (x y : float) :
  (Js.strict_eq x 0 = true -> Js.strict_eq y 0 = true ->
     calculatePercentChange x y = 0)
  /\ (Js.strict_eq x 0 = true -> Js.strict_eq y 0 = false ->
     calculatePercentChange x y = 100)
  /\ (Js.strict_eq x 0 = false ->
     calculatePercentChange x y = (y - x) / Js.Math_abs x * 100)
  /\ calculatePercentChange 0 0 = 0
  /\ calculatePercentChange 0 50 = 100
  /\ calculatePercentChange 100 150 = 50.
Proof.
  unfold calculatePercentChange.
  repeat split; try reflexivity.
  - intros -> ->. reflexivity.
  - intros -> ->. reflexivity.
  - intros ->. reflexivity.
Qed.

(** A decrease is negative, whatever the sign of the start. *)
Example calculatePercentChange_negative_start :
  calculatePercentChange (-200) (-100) = 50
  /\ calculatePercentChange 200 100 = (-50).
Proof. split; reflexivity. Qed.

End PercentChange.

(** ** The utilization rate *)

Section Utilization.
Context {rt : JsRuntime}.
Local Open Scope float_scope.

Lemma utilizationRate_positive (s b : float) :
  Js.gt s 0 = true -> utilizationRate s b = b / s * 100.
Proof. unfold utilizationRate. intros ->. reflexivity. Qed.

Lemma utilizationRate_zero (s b : float) :
  Js.strict_eq s 0 = true -> utilizationRate s b = 0.
Proof.
  intros Hs. unfold utilizationRate. rewrite (zero_not_gt s Hs). reflexivity.
Qed.

(** Every token of a snapshot is the image of a formatted reserve. *)
Lemma tokenMetrics_snapshotOf perToken block ts base frs (tm : TokenMetric) :
  tm ∈ tokenMetrics (snapshotOf perToken block ts base frs) ->
  exists reserve, reserve ∈ frs /\ tm = perToken base reserve.
Proof.
  simpl. intros Hin. apply list_elem_of_fmap in Hin.
  destruct Hin as (r & -> & Hr). eauto.
Qed.

(** C10. For every token of a snapshot of either path (the divisor of the
    price is arbitrary), the utilization rate is
    [totalBorrowed / totalSupplied * 100] when [totalSupplied > 0], in which
    case the divisor is not zero, and it is [0] when [totalSupplied] is
    zero, in which case the division is not evaluated. *)
Theorem utilizationRate_guarded (divisor : float) block ts base frs
    (tm : TokenMetric) :
  tm ∈ tokenMetrics (snapshotOf (tokenMetricOf divisor) block ts base frs) ->
  (Js.gt tm.(tm_totalSupplied) 0 = true ->
     tm.(tm_utilizationRate)
       = tm.(tm_totalBorrowed) / tm.(tm_totalSupplied) * 100
     /\ Js.strict_eq tm.(tm_totalSupplied) 0 = false)
  /\ (Js.strict_eq tm.(tm_totalSupplied) 0 = true ->
     tm.(tm_utilizationRate) = 0
     /\ Js.gt tm.(tm_totalSupplied) 0 = false).
Proof.
  intros Hin. apply tokenMetrics_snapshotOf in Hin as (r & _ & ->).
  cbn [tokenMetricOf tm_totalSupplied tm_totalBorrowed tm_utilizationRate].
  split; intros Hs.
  - split; [apply utilizationRate_positive | apply gt_not_zero]; exact Hs.
  - split; [apply utilizationRate_zero | apply zero_not_gt]; exact Hs.
Qed.

End Utilization.

Module UtilizationExamples.
Import RefRuntime Sample.

(** C10 on the sample reserve: 400 borrowed of 1000 supplied is 40 percent,
    and on a reserve without supply the rate is 0. *)
Lemma utilizationRate_guarded_witness :
  (tm_utilizationRate (liveTokenMetric usd weth) = (400 / 1000 * 100)%float
   /\ Js.strict_eq 1000 0 = false)
  /\ (tm_utilizationRate (liveTokenMetric usd unsupplied) = 0%float
      /\ Js.gt 0 0 = false).
Proof.
  split.
  - refine (proj1 (utilizationRate_guarded 1e16 100 1700000000 usd [weth]
                     (liveTokenMetric usd weth) _) _).
    + simpl. constructor.
    + reflexivity.
  - refine (proj2 (utilizationRate_guarded 1e16 100 1700000000 usd [unsupplied]
                     (liveTokenMetric usd unsupplied) _) _).
    + simpl. constructor.
    + reflexivity.
Defined.

End UtilizationExamples.

(** ** The two price divisors *)

Section Divisors.
Context {rt : JsRuntime}.
Local Open Scope float_scope.

(** Two token metrics computed with divisors that give the same price are
    the same. *)
Lemma tokenMetricOf_same_price d1 d2 base r :
  priceProduct base r / d1 = priceProduct base r / d2 ->
  tokenMetricOf d1 base r = tokenMetricOf d2 base r.
Proof.
  unfold priceProduct, tokenMetricOf. intros Hp. cbv zeta. rewrite Hp.
  reflexivity.
Qed.

(** C6, amended. The two paths divide the same product by [1e16] (live) and
    by [1e18] (historical); each dollar figure is the quantity times that
    path's price; the fields that do not use the price are the same in
    both; and the two token metrics are equal exactly when the two
    quotients are the same number. *)
Theorem divisors_differ base r :
  tm_priceInUSD (liveTokenMetric base r) = priceProduct base r / 1e16
  /\ tm_priceInUSD (historicalTokenMetric base r) = priceProduct base r / 1e18
  /\ (forall d,
       let tm := tokenMetricOf d base r in
       tm_totalSuppliedUSD tm = tm_totalSupplied tm * tm_priceInUSD tm
       /\ tm_totalBorrowedUSD tm = tm_totalBorrowed tm * tm_priceInUSD tm
       /\ tm_liquidityUSD tm = tm_liquidity tm * tm_priceInUSD tm)
  /\ (tm_totalSupplied (liveTokenMetric base r)
        = tm_totalSupplied (historicalTokenMetric base r)
      /\ tm_totalBorrowed (liveTokenMetric base r)
        = tm_totalBorrowed (historicalTokenMetric base r)
      /\ tm_liquidity (liveTokenMetric base r)
        = tm_liquidity (historicalTokenMetric base r)
      /\ tm_utilizationRate (liveTokenMetric base r)
        = tm_utilizationRate (historicalTokenMetric base r))
  /\ (liveTokenMetric base r = historicalTokenMetric base r
      <-> priceProduct base r / 1e16 = priceProduct base r / 1e18).
Proof.
  repeat split; try reflexivity.
  - intros Heq. apply (f_equal tm_priceInUSD) in Heq. exact Heq.
  - apply tokenMetricOf_same_price.
Qed.

End Divisors.

Module DivisorExamples.
Import RefRuntime Sample.
Local Open Scope float_scope.

(** C6 fails as stated: for a reserve whose price is zero the two paths
    return the same token metric; and for one priced at 5e-8 dollar the
    historical price is neither the live price divided by 100 nor a
    hundredth of it in binary64. *)
Lemma divisors_counterexample :
  liveTokenMetric usd unpriced = historicalTokenMetric usd unpriced
  /\ Js.strict_eq (tm_priceInUSD (historicalTokenMetric usd dust) * 100)
       (tm_priceInUSD (liveTokenMetric usd dust)) = false
  /\ Js.strict_eq (tm_priceInUSD (liveTokenMetric usd dust) / 100)
       (tm_priceInUSD (historicalTokenMetric usd dust)) = false.
Proof. repeat split; reflexivity. Qed.

(** On the sample reserve the live path prices the token at 2 dollars and
    the historical path at 0.02 dollar, and the metrics differ. *)
Example divisors_sample :
  tm_priceInUSD (liveTokenMetric usd weth) = 2
  /\ tm_totalSuppliedUSD (liveTokenMetric usd weth) = 2000
  /\ Js.strict_eq (tm_priceInUSD (historicalTokenMetric usd weth) * 100) 2 = true
  /\ tm_totalSuppliedUSD (historicalTokenMetric usd weth) = 20
  /\ liveTokenMetric usd weth <> historicalTokenMetric usd weth.
Proof.
  repeat split; try reflexivity.
  intros Heq. apply (f_equal tm_totalSuppliedUSD) in Heq.
  apply (f_equal (fun x => Js.strict_eq x 20)) in Heq.
  vm_compute in Heq. discriminate.
Qed.

End DivisorExamples.

(** ** The aggregates *)

Section Aggregates.
Context {rt : JsRuntime}.
Local Open Scope float_scope.

(** Adding [f] over a list is adding [g] over its image when [f] is [g] after
    the map on every element. *)
Lemma reduce_map {A B} (h : A -> B) (f : A -> float) (g : B -> float)
    (l : list A) (init : float) :
  Forall (fun a => f a = g (h a)) l ->
  Js.reduce (fun total a => total + f a) init l
  = Js.reduce (fun total b => total + g b) init (map h l).
Proof.
  unfold Js.reduce. intros Hall. revert init.
  induction Hall as [|a l Ha _ IH]; intros init; simpl.
  - reflexivity.
  - rewrite Ha. apply IH.
Qed.

(** C7, amended. The aggregate [totalMarketSize] is the sum, from left to
    right starting at [0], of [parseFloat(reserve.totalLiquidityUSD)], the
    dollar figure the library gives, and [totalBorrows] that of
    [parseFloat(reserve.totalDebtUSD)], whatever the tokens' own figures are.
    Each token's [totalSuppliedUSD] is [totalSupplied * priceInUSD] and its
    [totalBorrowedUSD] is [totalBorrowed * priceInUSD]. When the library's two
    figures of every reserve parse to the token's two figures, the
    aggregates are the sums of the tokens' figures. *)
Theorem aggregates_sum (divisor : float) block ts base frs :
  totalMarketSize (snapshotOf (tokenMetricOf divisor) block ts base frs)
    = fold_left (fun total r => total + parseFloat r.(totalLiquidityUSD)) frs 0
  /\ totalBorrows (snapshotOf (tokenMetricOf divisor) block ts base frs)
    = fold_left (fun total r => total + parseFloat r.(totalDebtUSD)) frs 0
  /\ (forall tm,
        tm ∈ tokenMetrics (snapshotOf (tokenMetricOf divisor) block ts base frs) ->
        tm_totalSuppliedUSD tm = tm_totalSupplied tm * tm_priceInUSD tm
        /\ tm_totalBorrowedUSD tm = tm_totalBorrowed tm * tm_priceInUSD tm)
  /\ (Forall (fun r =>
         parseFloat r.(totalLiquidityUSD)
           = tm_totalSuppliedUSD (tokenMetricOf divisor base r)
         /\ parseFloat r.(totalDebtUSD)
           = tm_totalBorrowedUSD (tokenMetricOf divisor base r)) frs ->
       totalMarketSize (snapshotOf (tokenMetricOf divisor) block ts base frs)
         = sumOver tm_totalSuppliedUSD
             (tokenMetrics (snapshotOf (tokenMetricOf divisor) block ts base frs))
       /\ totalBorrows (snapshotOf (tokenMetricOf divisor) block ts base frs)
         = sumOver tm_totalBorrowedUSD
             (tokenMetrics
                (snapshotOf (tokenMetricOf divisor) block ts base frs))).
Proof.
  split; [reflexivity|]. split; [reflexivity|]. split.
  - intros tm Hin. apply list_elem_of_fmap in Hin as (r & -> & _).
    split; reflexivity.
  - intros Hall.
    cbn [totalMarketSize totalBorrows tokenMetrics snapshotOf].
    unfold calculateTotalMarketSize, calculateTotalBorrows, sumOver.
    split.
    + apply reduce_map. eapply Forall_impl; [exact Hall|]. intros r [H _]. exact H.
    + apply reduce_map. eapply Forall_impl; [exact Hall|]. intros r [_ H]. exact H.
Qed.

End Aggregates.

Module AggregateExamples.
Import RefRuntime Sample.
Local Open Scope float_scope.

(** C7 on a live snapshot of two reserves for which the library's figures
    (2000 and 800 dollars, 7500 and 1500 dollars) are the products the live
    path computes: the aggregates 9500 and 2300 are the sums of the tokens'
    figures. *)
Lemma aggregates_sum_witness :
  totalMarketSize (snapshotOf (tokenMetricOf 1e16) 101 1700000002 usd
                     [weth; newcomer])
    = sumOver tm_totalSuppliedUSD
        (tokenMetrics (snapshotOf (tokenMetricOf 1e16) 101 1700000002 usd
                         [weth; newcomer]))
  /\ totalBorrows (snapshotOf (tokenMetricOf 1e16) 101 1700000002 usd
                     [weth; newcomer])
    = sumOver tm_totalBorrowedUSD
        (tokenMetrics (snapshotOf (tokenMetricOf 1e16) 101 1700000002 usd
                         [weth; newcomer]))
  /\ totalMarketSize (snapshotOf (tokenMetricOf 1e16) 101 1700000002 usd
                        [weth; newcomer]) = 9500
  /\ totalBorrows (snapshotOf (tokenMetricOf 1e16) 101 1700000002 usd
                     [weth; newcomer]) = 2300.
Proof.
  destruct (aggregates_sum 1e16 101 1700000002 usd [weth; newcomer])
    as (_ & _ & _ & Hsums).
  destruct Hsums as [Hs Hb].
  - constructor; [split; reflexivity|].
    constructor; [split; reflexivity|constructor].
  - split; [exact Hs|]. split; [exact Hb|]. split; reflexivity.
Defined.

(** C7 fails as stated. On the live path, a tenth of a token at 3 dollars has
    the library figure 0.3, which is the aggregate, while the token's
    [totalSuppliedUSD] is the binary64 product of 0.1 and 3, a different
    number. On the historical path the aggregate of the sample reserve is 2000
    and the sum of the tokens' figures is 20. *)
Lemma aggregates_counterexample :
  Js.strict_eq
    (totalMarketSize (liveSnapshot 100 1700000000 (raw [tenth])))
    (sumOver tm_totalSuppliedUSD
       (tokenMetrics (liveSnapshot 100 1700000000 (raw [tenth])))) = false
  /\ totalMarketSize (historicalSnapshot 100 1700000000 (raw [weth])) = 2000
  /\ sumOver tm_totalSuppliedUSD
       (tokenMetrics (historicalSnapshot 100 1700000000 (raw [weth]))) = 20
  /\ totalBorrows (historicalSnapshot 100 1700000000 (raw [weth])) = 800
  /\ sumOver tm_totalBorrowedUSD
       (tokenMetrics (historicalSnapshot 100 1700000000 (raw [weth]))) = 8.
Proof. repeat split; reflexivity. Qed.

End AggregateExamples.

(** ** Caps *)

Section Caps.
Context {rt : JsRuntime}.
Local Open Scope float_scope.

(** [cap === Infinity] holds of the value [infinity] only. *)
Lemma strict_eq_infinity (c : float) :
  Js.strict_eq c infinity = true <-> c = infinity.
Proof.
  split; [|intros ->; reflexivity].
  unfold Js.strict_eq. rewrite FloatAxioms.eqb_spec.
  change (Prim2SF infinity) with (S754_infinity false).
  intros H. rewrite <- (SF2Prim_Prim2SF c).
  destruct (Prim2SF c) as [sg|sg| |sg m e]; simpl in H; try discriminate.
  destruct sg; [discriminate | reflexivity].
Qed.

Lemma capParameter_null (c : float) : capParameter c = None <-> c = infinity.
Proof.
  unfold capParameter. rewrite <- strict_eq_infinity.
  destruct (Js.strict_eq c infinity); split; congruence.
Qed.

Lemma capParameter_number (c x : float) :
  capParameter c = Some x <-> x = c /\ Js.strict_eq c infinity = false.
Proof.
  unfold capParameter.
  destruct (Js.strict_eq c infinity); split.
  - discriminate.
  - intros [_ H]. discriminate.
  - intros H. injection H as <-. auto.
  - intros [-> _]. reflexivity.
Qed.

(** What the code does with a cap. In a snapshot of either path a cap is the
    number that [parseFloat] reads from the reserve's cap. The parameter that
    [storeMetrics] sends for a cap is NULL exactly when the cap is
    [Infinity], and otherwise it is the cap itself, whatever it is. *)
Lemma caps_stored_as_null (divisor : float) base r (metricsData : Snapshot)
    (token : TokenMetric) :
  (tm_supplyCap (tokenMetricOf divisor base r) = parseFloat r.(supplyCap)
   /\ tm_borrowCap (tokenMetricOf divisor base r) = parseFloat r.(borrowCap))
  /\ (t_supply_cap (tokenValuesOf metricsData token) = None
      <-> tm_supplyCap token = infinity)
  /\ (t_borrow_cap (tokenValuesOf metricsData token) = None
      <-> tm_borrowCap token = infinity)
  /\ (forall x, t_supply_cap (tokenValuesOf metricsData token) = Some x ->
        x = tm_supplyCap token /\ x <> infinity)
  /\ (forall x, t_borrow_cap (tokenValuesOf metricsData token) = Some x ->
        x = tm_borrowCap token /\ x <> infinity).
Proof.
  split; [split; reflexivity|].
  cbn [tokenValuesOf t_supply_cap t_borrow_cap].
  split; [apply capParameter_null|]. split; [apply capParameter_null|].
  split; intros x Hx; apply capParameter_number in Hx as [-> Hne];
    (split; [reflexivity|]); intros Hinf; apply strict_eq_infinity in Hinf;
    congruence.
Qed.

End Caps.

Module CapExamples.
Import RefRuntime Sample.
Local Open Scope float_scope.

(** C5 at the failing input, a reserve without caps, whose caps arrive as
    the protocol's marker [0]. On both paths the snapshot holds the finite
    number 0 for either cap, not a value that tells no cap from a number.
    [storeMetrics] tests the cap with [=== Infinity], which does not hold of
    0, so it sends the number 0, and the row has 0 in [supply_cap] and in
    [borrow_cap], not NULL. *)
Theorem unbounded_cap_stored_as_zero :
  supplyCap capless = "0"%string
  /\ borrowCap capless = "0"%string
  /\ map (fun t => (tm_supplyCap t, tm_borrowCap t)) (tokenMetrics snapshot104)
     = [(0, 0)]
  /\ map (fun t => (tm_supplyCap t, tm_borrowCap t))
       (tokenMetrics (historicalSnapshot 104 1700000008 (raw [capless])))
     = [(0, 0)]
  /\ Js.strict_eq 0 infinity = false
  /\ map (fun t => (t_supply_cap (tokenValuesOf snapshot104 t),
                    t_borrow_cap (tokenValuesOf snapshot104 t)))
       (tokenMetrics snapshot104)
     = [(Some 0, Some 0)]
  /\ (storeMetrics noFaults 1700000009 snapshot104 bootstrapped).1 = inr tt
  /\ (fun row => (t_supply_cap (t_values row), t_borrow_cap (t_values row)))
       <$> tokenRowAt
             (storeMetrics noFaults 1700000009 snapshot104 bootstrapped).2
             "aave_token_gho" 104
     = Some (Some (Decimal 0 18), Some (Decimal 0 18)).
Proof. repeat split; vm_compute; reflexivity. Qed.

(** The test [=== Infinity] holds of a cap whose text reads [Infinity] only:
    for it NULL is sent, and for every other cap the number, as for the
    finite caps of the sample reserve. *)
Example caps_parameters :
  t_supply_cap (tokenValuesOf (liveSnapshot 100 1700000000 (raw [uncapped]))
                  (liveTokenMetric usd uncapped)) = None
  /\ t_borrow_cap (tokenValuesOf (liveSnapshot 100 1700000000 (raw [uncapped]))
                     (liveTokenMetric usd uncapped)) = None
  /\ t_supply_cap (tokenValuesOf (liveSnapshot 100 1700000000 (raw [weth]))
                     (liveTokenMetric usd weth)) = Some 5000.
Proof. repeat split; reflexivity. Qed.

End CapExamples.

(** ** Determinism of the transform *)

Section Determinism.
Context {rt : JsRuntime} {aave : AaveLibrary}.

Lemma liveSnapshot_timestamp block t raw :
  timestamp (liveSnapshot block t raw) = t.
Proof. reflexivity. Qed.

Lemma historicalSnapshot_timestamp block t raw :
  timestamp (historicalSnapshot block t raw) = t.
Proof. reflexivity. Qed.

(** The live path stamps the snapshot with the clock: the same fetched data
    read at two different seconds gives two different snapshots. *)
Lemma liveSnapshot_clock block (t1 t2 : Z) raw :
  t1 <> t2 -> liveSnapshot block t1 raw <> liveSnapshot block t2 raw.
Proof.
  intros Hne Heq. apply Hne.
  rewrite <- (liveSnapshot_timestamp block t1 raw), Heq.
  apply liveSnapshot_timestamp.
Qed.

(** The historical path takes everything from its input, the timestamp of
    the block included: equal inputs give equal snapshots. *)
Lemma historicalSnapshot_deterministic block1 block2 t1 t2 raw1 raw2 :
  block1 = block2 -> t1 = t2 -> raw1 = raw2 ->
  historicalSnapshot block1 t1 raw1 = historicalSnapshot block2 t2 raw2.
Proof. intros -> -> ->. reflexivity. Qed.

End Determinism.

Module DeterminismExamples.
Import RefRuntime Sample.

(** C3 at the failing input: the live transform of the same fetched data for
    the same block, run at the seconds 1700000000 and 1700000002 of the
    clock, gives snapshots with different [timestamp] and [date]. *)
Theorem liveSnapshot_not_deterministic :
  timestamp (liveSnapshot 100 1700000000 (raw [weth])) = 1700000000
  /\ timestamp (liveSnapshot 100 1700000002 (raw [weth])) = 1700000002
  /\ date (liveSnapshot 100 1700000000 (raw [weth])) = "2023-11-14T22:13:20.000Z"
  /\ date (liveSnapshot 100 1700000002 (raw [weth])) = "2023-11-14T22:13:22.000Z"
  /\ liveSnapshot 100 1700000000 (raw [weth])
     <> liveSnapshot 100 1700000002 (raw [weth]).
Proof.
  repeat split; try reflexivity.
  apply liveSnapshot_clock. discriminate.
Qed.

End DeterminismExamples.

(** ** Running statements inside a transaction *)

Section Transactions.
Variable faults : nat -> bool.
Variable now : Z.

(** A data statement inside a transaction works on the transaction's view and
    leaves the committed data alone. *)
Lemma query_inTxn st d0 w k :
  is_data st = true ->
  query faults now st (inTxn d0 w k)
  = if faults k then (inl (Unavailable k), inTxn d0 w (S k))
    else match apply_statement now st w with
         | inl e => (inl e, inTxn d0 w (S k))
         | inr w' => (inr tt, inTxn d0 w' (S k))
         end.
Proof.
  intros Hdata.
  assert (Hrun : run_statement now st (inTxn d0 w (S k))
                 = match apply_statement now st w with
                   | inl e => inl e
                   | inr w' => inr (inTxn d0 w' (S k))
                   end)
    by (destruct st; try discriminate Hdata; reflexivity).
  unfold query. cbn [inTxn issued committed txn]. fold (inTxn d0 w (S k)).
  destruct (faults k); [reflexivity|].
  rewrite Hrun. destruct (apply_statement now st w); reflexivity.
Qed.

Section Loop.
Context {A : Type} (mk : A -> Statement).
Hypothesis mk_data : forall x, is_data (mk x) = true.

(** A loop of data statements inside a transaction never changes the
    committed data and stays inside the transaction. *)
Lemma for_of_inTxn_committed l d0 w k r c' :
  for_of l (fun x => query faults now (mk x)) (inTxn d0 w k) = (r, c') ->
  exists w' k', c' = inTxn d0 w' k'.
Proof.
  revert w k. induction l as [|x l IH]; intros w k; cbn [for_of].
  - intros [= <- <-]. eauto.
  - unfold mbind, exec_bind. rewrite query_inTxn by apply mk_data.
    destruct (faults k); [intros [= <- <-]; eauto|].
    destruct (apply_statement now (mk x) w) as [e|w1].
    + intros [= <- <-]. eauto.
    + apply IH.
Qed.

(** When the loop returns, none of its statements met a fault and it has
    applied them in order. *)
Lemma for_of_inTxn_ok l d0 w k c' :
  for_of l (fun x => query faults now (mk x)) (inTxn d0 w k) = (inr tt, c') ->
  exists w', apply_statements now (map mk l) w = inr w'
             /\ c' = inTxn d0 w' (k + length l)
             /\ forall i, (k <= i < k + length l)%nat -> faults i = false.
Proof.
  revert w k. induction l as [|x l IH]; intros w k; cbn [for_of map apply_statements].
  - intros [= <-]. exists w. rewrite Nat.add_0_r. repeat split. cbn. lia.
  - unfold mbind, exec_bind. rewrite query_inTxn by apply mk_data.
    destruct (faults k) eqn:Hk; [discriminate|].
    destruct (apply_statement now (mk x) w) as [e|w1]; [discriminate|].
    intros Hrun. apply IH in Hrun as (w' & Happ & -> & Hnf).
    exists w'. split; [exact Happ|]. split; [f_equal; cbn [length]; lia|].
    intros i Hi. destruct (decide (i = k)) as [->|Hne]; [exact Hk|].
    apply Hnf. cbn [length] in Hi. lia.
Qed.

(** Without faults the loop returns as soon as its statements apply. *)
Lemma for_of_inTxn_run l d0 w w' k :
  (forall i, faults i = false) ->
  apply_statements now (map mk l) w = inr w' ->
  for_of l (fun x => query faults now (mk x)) (inTxn d0 w k)
  = (inr tt, inTxn d0 w' (k + length l)).
Proof.
  intros Hnf. revert w k. induction l as [|x l IH]; intros w k;
    cbn [for_of map apply_statements].
  - intros [= ->]. rewrite Nat.add_0_r. reflexivity.
  - unfold mbind, exec_bind. rewrite query_inTxn by apply mk_data.
    rewrite Hnf. destruct (apply_statement now (mk x) w) as [e|w1];
      [discriminate|].
    intros Happ. rewrite (IH _ _ Happ). do 2 f_equal. cbn [length]. lia.
Qed.

End Loop.

End Transactions.

(** ** What [storeMetrics] does to the database *)

Section StoreMetrics.
Variable faults : nat -> bool.
Variable now : Z.

Lemma upsertOf_data metricsData token : is_data (upsertOf metricsData token) = true.
Proof. reflexivity. Qed.

(** [ROLLBACK], whether it returns or throws, leaves the committed data. *)
Lemma query_ROLLBACK_committed c :
  committed (query faults now ROLLBACK c).2 = committed c.
Proof. unfold query. destruct (faults (issued c)); reflexivity. Qed.

(** The [catch] block always throws and leaves the committed data. *)
Lemma catch_block (error : DbError) c :
  exists e c',
    (query faults now ROLLBACK ;; (throw error : Exec unit)) c = (inl e, c')
    /\ committed c' = committed c.
Proof.
  unfold mbind, exec_bind, throw.
  pose proof (query_ROLLBACK_committed c) as Hc.
  destruct (query faults now ROLLBACK c) as [[e|[]] c']; cbn [snd] in Hc; eauto.
Qed.

Lemma query_BEGIN_connect d :
  query faults now BEGIN (connect d)
  = if faults 0%nat
    then (inl (Unavailable 0), {| committed := d; txn := None; issued := 1 |})
    else (inr tt, inTxn d d 1).
Proof. unfold query. cbn. destruct (faults 0%nat); reflexivity. Qed.

Lemma query_COMMIT_inTxn d w k :
  query faults now COMMIT (inTxn d w k)
  = if faults k then (inl (Unavailable k), inTxn d w (S k))
    else (inr tt, {| committed := w; txn := None; issued := S k |}).
Proof. unfold query. cbn. destruct (faults k); reflexivity. Qed.

(** The [try] block either returns, having met no fault and committed its
    upserts, or throws, having committed nothing. *)
Lemma storeMetrics_try_cases metricsData d :
  (exists w c',
      storeMetrics_try faults now metricsData (connect d) = (inr tt, c')
      /\ apply_statements now (upserts metricsData) d = inr w
      /\ committed c' = w
      /\ forall i, (i < length (tokenMetrics metricsData) + 3)%nat ->
                   faults i = false)
  \/ (exists e c',
      storeMetrics_try faults now metricsData (connect d) = (inl e, c')
      /\ committed c' = d).
Proof.
  destruct (storeMetrics_try faults now metricsData (connect d))
    as [r c'] eqn:Hrun.
  unfold storeMetrics_try, mbind, exec_bind in Hrun.
  rewrite query_BEGIN_connect in Hrun.
  destruct (faults 0%nat) eqn:H0; [injection Hrun as <- <-; right; eauto|].
  rewrite query_inTxn in Hrun by reflexivity.
  destruct (faults 1%nat) eqn:H1; [injection Hrun as <- <-; right; eauto|].
  unfold upserts. cbn [apply_statements].
  destruct (apply_statement now (UpsertMarket _ _) d) as [e|w1];
    [injection Hrun as <- <-; right; eauto|].
  change (fun token : TokenMetric => query faults now (UpsertToken _ _ _))
    with (fun token => query faults now (upsertOf metricsData token)) in Hrun.
  destruct (for_of (tokenMetrics metricsData) _ (inTxn d w1 2))
    as [[e|[]] c1] eqn:Hloop.
  - destruct (for_of_inTxn_committed faults now (upsertOf metricsData)
                (upsertOf_data metricsData) _ _ _ _ _ _ Hloop) as (w' & k' & ->).
    injection Hrun as <- <-. right. eauto.
  - apply (for_of_inTxn_ok faults now (upsertOf metricsData)
             (upsertOf_data metricsData)) in Hloop as (w' & Happ & -> & Hnf).
    rewrite Happ. rewrite query_COMMIT_inTxn in Hrun.
    destruct (faults (2 + _)) eqn:Hc; injection Hrun as <- <-; [right; eauto|].
    left. eexists _, _. repeat split. intros i Hi.
    destruct (decide (i = 0%nat)) as [->|]; [exact H0|].
    destruct (decide (i = 1%nat)) as [->|]; [exact H1|].
    destruct (decide (i = 2 + length (tokenMetrics metricsData))%nat)
      as [->|]; [exact Hc|].
    apply Hnf. lia.
Qed.

(** Without faults the [try] block returns as soon as its upserts apply. *)
Lemma storeMetrics_try_run metricsData d w :
  (forall i, faults i = false) ->
  apply_statements now (upserts metricsData) d = inr w ->
  exists c', storeMetrics_try faults now metricsData (connect d) = (inr tt, c')
             /\ committed c' = w.
Proof.
  intros Hnf. unfold upserts, storeMetrics_try, mbind, exec_bind.
  cbn [apply_statements]. rewrite query_BEGIN_connect, Hnf.
  rewrite query_inTxn by reflexivity. rewrite Hnf.
  destruct (apply_statement now (UpsertMarket _ _) d) as [e|w1]; [discriminate|].
  intros Happ.
  change (fun token : TokenMetric => query faults now (UpsertToken _ _ _))
    with (fun token => query faults now (upsertOf metricsData token)).
  rewrite (for_of_inTxn_run faults now (upsertOf metricsData)
             (upsertOf_data metricsData) _ d w1 w 2 Hnf Happ).
  rewrite query_COMMIT_inTxn, Hnf. eauto.
Qed.

(** [storeMetrics] either returns, and then no statement met a fault and the
    database is the old one with the upserts applied, or throws, and then the
    database is the old one. *)
Lemma storeMetrics_cases metricsData d :
  (exists d', storeMetrics faults now metricsData d = (inr tt, d')
              /\ apply_statements now (upserts metricsData) d = inr d'
              /\ forall i, (i < length (tokenMetrics metricsData) + 3)%nat ->
                           faults i = false)
  \/ (exists e, storeMetrics faults now metricsData d = (inl e, d)).
Proof.
  unfold storeMetrics, try_catch.
  destruct (storeMetrics_try_cases metricsData d)
    as [(w & c' & -> & Happ & Hc & Hnf) | (e & c' & -> & Hc)].
  - left. exists w. unfold release. rewrite Hc. auto.
  - right. destruct (catch_block e c') as (e' & c'' & -> & Hc').
    exists e'. unfold release. rewrite Hc', Hc. reflexivity.
Qed.

(** Without faults [storeMetrics] returns as soon as its upserts apply. *)
Lemma storeMetrics_run metricsData d d' :
  (forall i, faults i = false) ->
  apply_statements now (upserts metricsData) d = inr d' ->
  storeMetrics faults now metricsData d = (inr tt, d').
Proof.
  intros Hnf Happ. unfold storeMetrics, try_catch.
  destruct (storeMetrics_try_run metricsData d d' Hnf Happ) as (c' & -> & Hc).
  unfold release. rewrite Hc. reflexivity.
Qed.

(** A call that returns has applied its upserts. *)
Lemma storeMetrics_ok metricsData d d' :
  storeMetrics faults now metricsData d = (inr tt, d') ->
  apply_statements now (upserts metricsData) d = inr d'.
Proof.
  intros Hrun.
  destruct (storeMetrics_cases metricsData d)
    as [(d'' & Hrun' & Happ & _) | (e & Hrun')];
    rewrite Hrun in Hrun'; [|discriminate].
  injection Hrun' as ->. exact Happ.
Qed.

End StoreMetrics.

(** ** Rows under repeated upserts *)

Section Rows.

(** An upsert leaves a row that a second upsert of the same values does not
    change. *)
Lemma market_on_conflict_upsert now v o :
  market_on_conflict (upsert_market_row now v o) v = upsert_market_row now v o.
Proof. destruct o as [old|]; [reflexivity|]. destruct v. reflexivity. Qed.

Lemma token_on_conflict_upsert now v o :
  token_on_conflict (upsert_token_row now v o) v = upsert_token_row now v o.
Proof. destruct o as [old|]; [reflexivity|]. destruct v. reflexivity. Qed.

(** The update of a row takes from the old row its [token_name] and its
    [created_at] only. *)
Lemma token_on_conflict_keeps old v :
  t_token_name (t_values (token_on_conflict old v)) = t_token_name (t_values old)
  /\ t_created_at (token_on_conflict old v) = t_created_at old.
Proof. split; reflexivity. Qed.

Lemma token_on_conflict_depends r1 r2 v :
  t_token_name (t_values r1) = t_token_name (t_values r2) ->
  t_created_at r1 = t_created_at r2 ->
  token_on_conflict r1 v = token_on_conflict r2 v.
Proof. unfold token_on_conflict. intros -> ->. reflexivity. Qed.

(** What it means for a row to be a fixed point of the update: every column
    of the SET list holds the value of the statement as the column stores
    it. *)
Lemma token_on_conflict_fixed row v :
  token_on_conflict row v = row <->
  t_timestamp (t_values row) = t_timestamp v
  /\ t_price_usd (t_values row) = Pg.numeric 18 (t_price_usd v)
  /\ t_total_supplied (t_values row) = Pg.numeric 18 (t_total_supplied v)
  /\ t_total_supplied_usd (t_values row) = Pg.numeric 18 (t_total_supplied_usd v)
  /\ t_total_borrowed (t_values row) = Pg.numeric 18 (t_total_borrowed v)
  /\ t_total_borrowed_usd (t_values row) = Pg.numeric 18 (t_total_borrowed_usd v)
  /\ t_utilization_rate (t_values row) = Pg.numeric 4 (t_utilization_rate v)
  /\ t_supply_apy (t_values row) = Pg.numeric 4 (t_supply_apy v)
  /\ t_borrow_apy (t_values row) = Pg.numeric 4 (t_borrow_apy v)
  /\ t_reserve_factor (t_values row) = Pg.numeric 4 (t_reserve_factor v)
  /\ t_liquidation_threshold (t_values row)
     = Pg.numeric 4 (t_liquidation_threshold v)
  /\ t_borrow_enabled (t_values row) = t_borrow_enabled v
  /\ t_supply_cap (t_values row) = Pg.numeric 18 <$> t_supply_cap v
  /\ t_borrow_cap (t_values row) = Pg.numeric 18 <$> t_borrow_cap v.
Proof.
  destruct row as [[] ?]. unfold token_on_conflict, tokenColumnsOf.
  cbn [t_values t_created_at t_timestamp t_token_name t_price_usd
       t_total_supplied t_total_supplied_usd t_total_borrowed
       t_total_borrowed_usd t_utilization_rate t_supply_apy t_borrow_apy
       t_reserve_factor t_liquidation_threshold t_borrow_enabled t_supply_cap
       t_borrow_cap].
  split.
  - intros [= -> -> -> -> -> -> -> -> -> -> -> -> -> ->]. repeat split.
  - intros (-> & -> & -> & -> & -> & -> & -> & -> & -> & -> & -> & -> & -> & ->).
    reflexivity.
Qed.

Lemma market_on_conflict_fixed row v :
  market_on_conflict row v = row <->
  m_timestamp (m_values row) = m_timestamp v
  /\ m_total_market_size (m_values row) = Pg.numeric 18 (m_total_market_size v)
  /\ m_total_borrows (m_values row) = Pg.numeric 18 (m_total_borrows v)
  /\ m_average_utilization (m_values row)
     = Pg.numeric 4 (m_average_utilization v)
  /\ m_token_count (m_values row) = m_token_count v.
Proof.
  destruct row as [[] ?]. unfold market_on_conflict, marketColumnsOf.
  cbn [m_values m_created_at m_timestamp m_network m_total_market_size
       m_total_borrows m_average_utilization m_token_count].
  split.
  - intros [= -> -> -> -> ->]. repeat split.
  - intros (-> & -> & -> & -> & ->). reflexivity.
Qed.

Variable now : Z.
Variable metricsData : Snapshot.
Variable n : string.

Lemma row_after_app l1 l2 o :
  row_after now metricsData n (l1 ++ l2) o = row_after now metricsData n l2 (row_after now metricsData n l1 o).
Proof. revert o. induction l1 as [|t l1 IH]; intros o; [reflexivity|apply IH]. Qed.

(** Tokens stored in other tables leave the row alone. *)
Lemma row_after_unrelated l o :
  Forall (fun t => tableName (tm_symbol t) <> n) l -> row_after now metricsData n l o = o.
Proof.
  intros Hall. revert o. induction Hall as [|t l Ht _ IH]; intros o;
    [reflexivity|].
  cbn [row_after]. destruct (decide _); [contradiction|]. apply IH.
Qed.

(** A row that exists stays, with its [token_name] and its [created_at]. *)
Lemma row_after_keeps l r :
  exists r', row_after now metricsData n l (Some r) = Some r'
             /\ t_token_name (t_values r') = t_token_name (t_values r)
             /\ t_created_at r' = t_created_at r.
Proof.
  revert r. induction l as [|t l IH]; intros r; cbn [row_after]; [eauto|].
  destruct (decide _); [|apply IH].
  destruct (IH (upsert_token_row now (tokenValuesOf metricsData t) (Some r)))
    as (r' & -> & Hname & Hcreated).
  exists r'. split; [reflexivity|]. rewrite Hname, Hcreated. split; reflexivity.
Qed.

Lemma row_after_None l o : row_after now metricsData n l o = None -> o = None.
Proof.
  destruct o as [r|]; [|reflexivity].
  destruct (row_after_keeps l r) as (r' & -> & _). discriminate.
Qed.

(** The table of a token of the list has a row afterwards. *)
Lemma row_after_elem l o token :
  token ∈ l -> tableName (tm_symbol token) = n -> is_Some (row_after now metricsData n l o).
Proof.
  intros Hin Hn. revert o. induction Hin as [token l|token t l _ IH]; intros o;
    cbn [row_after].
  - destruct (decide _); [|contradiction].
    destruct (row_after_keeps l
                (upsert_token_row now (tokenValuesOf metricsData token) o))
      as (r' & -> & _). eauto.
  - apply IH, Hn.
Qed.

(** The row left by the last token stored in the table. *)
Lemma row_after_last earlier token later o :
  tableName (tm_symbol token) = n ->
  Forall (fun t => tableName (tm_symbol t) <> n) later ->
  row_after now metricsData n (earlier ++ token :: later) o
  = Some (upsert_token_row now (tokenValuesOf metricsData token)
            (row_after now metricsData n earlier o)).
Proof.
  intros Hn Hlater. rewrite row_after_app. cbn [row_after].
  destruct (decide _); [|contradiction].
  apply row_after_unrelated, Hlater.
Qed.

End Rows.

Section RowsTwice.
Variable metricsData : Snapshot.
Variable n : string.

(** Running the upserts of the same snapshot a second time, at any later
    time, leaves the row of the first run. *)
Lemma row_after_twice now1 now2 l o :
  row_after now2 metricsData n l (row_after now1 metricsData n l o)
  = row_after now1 metricsData n l o.
Proof.
  induction l as [|t l IH] using rev_ind; [reflexivity|].
  rewrite !row_after_app. cbn [row_after].
  destruct (decide (tableName (tm_symbol t) = n)) as [Hn|Hn]; [|apply IH].
  destruct (row_after_keeps now2 metricsData n l
              (upsert_token_row now1 (tokenValuesOf metricsData t)
                 (row_after now1 metricsData n l o)))
    as (r' & -> & Hname & Hcreated).
  cbn [upsert_token_row]. f_equal.
  rewrite (token_on_conflict_depends _ _ _ Hname Hcreated).
  apply token_on_conflict_upsert.
Qed.

End RowsTwice.

(** ** Tables under the upserts of a snapshot *)

Section Tables.
Variable now : Z.
Variable metricsData : Snapshot.

Lemma table_after_lookup n tokens (tbl : gmap Z TokenRow) :
  table_after now metricsData n tokens tbl !! blockNumber metricsData
  = row_after now metricsData n tokens (tbl !! blockNumber metricsData).
Proof.
  unfold table_after.
  destruct (row_after _ _ _ _ _) as [row|] eqn:Hrow.
  - apply lookup_insert_eq.
  - apply row_after_None in Hrow. exact Hrow.
Qed.

Lemma table_after_nil n (tbl : gmap Z TokenRow) :
  table_after now metricsData n [] tbl = tbl.
Proof.
  unfold table_after. cbn [row_after].
  destruct (tbl !! blockNumber metricsData) as [row|] eqn:Hrow;
    [apply insert_id, Hrow | reflexivity].
Qed.

Lemma table_after_cons_other n token rest (tbl : gmap Z TokenRow) :
  tableName (tm_symbol token) <> n ->
  table_after now metricsData n (token :: rest) tbl
  = table_after now metricsData n rest tbl.
Proof.
  intros Hn. unfold table_after. cbn [row_after].
  destruct (decide _); [contradiction|reflexivity].
Qed.

Lemma table_after_cons_same n token rest (tbl : gmap Z TokenRow) :
  tableName (tm_symbol token) = n ->
  table_after now metricsData n (token :: rest) tbl
  = table_after now metricsData n rest
      (upsert_token now (blockNumber metricsData)
         (tokenValuesOf metricsData token) tbl).
Proof.
  intros Hn. unfold table_after, upsert_token. cbn [row_after].
  destruct (decide _); [|contradiction]. rewrite lookup_insert_eq.
  destruct (row_after_keeps now metricsData n rest
              (upsert_token_row now (tokenValuesOf metricsData token)
                 (tbl !! blockNumber metricsData)))
    as (r' & -> & _).
  symmetry. apply insert_insert_eq.
Qed.

(** One per-token upsert applies exactly when the token's table exists. *)
Lemma apply_upsertOf token d :
  apply_statement now (upsertOf metricsData token) d
  = match tokenTables d !! tableName (tm_symbol token) with
    | Some tbl =>
        inr {| market := market d;
               tokenTables :=
                 <[tableName (tm_symbol token) :=
                     upsert_token now (blockNumber metricsData)
                       (tokenValuesOf metricsData token) tbl]> (tokenTables d) |}
    | None => inl (UndefinedTable (tableName (tm_symbol token)))
    end.
Proof. reflexivity. Qed.

(** When the per-token upserts of a list apply, every token's table existed,
    the aggregate table is untouched, and each table is what [table_after]
    says. *)
Lemma token_upserts_applied tokens d d' :
  apply_statements now (map (upsertOf metricsData) tokens) d = inr d' ->
  market d' = market d
  /\ Forall (fun token => is_Some (tokenTables d !! tableName (tm_symbol token)))
       tokens
  /\ forall n,
       tokenTables d' !! n
       = table_after now metricsData n tokens <$> (tokenTables d !! n).
Proof.
  revert d. induction tokens as [|token rest IH]; intros d;
    cbn [map apply_statements].
  - intros [= <-]. split; [reflexivity|]. split; [constructor|].
    intros n. destruct (tokenTables d !! n) as [tbl|]; cbn; [|reflexivity].
    rewrite table_after_nil. reflexivity.
  - rewrite apply_upsertOf.
    destruct (tokenTables d !! tableName (tm_symbol token)) as [tbl|] eqn:Htbl;
      [|discriminate].
    intros Happ. apply IH in Happ as (Hmarket & Hall & Hlookup).
    cbn [market tokenTables] in *.
    split; [exact Hmarket|]. split.
    + constructor; [rewrite Htbl; eauto|].
      eapply Forall_impl; [exact Hall|]. cbn. intros t Ht.
      destruct (decide (tableName (tm_symbol token) = tableName (tm_symbol t)))
        as [<-|Hne].
      * rewrite Htbl. eauto.
      * rewrite lookup_insert_ne in Ht by exact Hne. exact Ht.
    + intros n. rewrite Hlookup.
      destruct (decide (tableName (tm_symbol token) = n)) as [<-|Hne].
      * rewrite lookup_insert_eq, Htbl. cbn.
        rewrite table_after_cons_same by reflexivity. reflexivity.
      * rewrite lookup_insert_ne by exact Hne.
        destruct (tokenTables d !! n); cbn; [|reflexivity].
        rewrite table_after_cons_other by exact Hne. reflexivity.
Qed.

(** Conversely the per-token upserts apply when every token's table
    exists. *)
Lemma token_upserts_apply tokens d :
  Forall (fun token => is_Some (tokenTables d !! tableName (tm_symbol token)))
    tokens ->
  exists d', apply_statements now (map (upsertOf metricsData) tokens) d = inr d'.
Proof.
  revert d. induction tokens as [|token rest IH]; intros d Hall;
    cbn [map apply_statements]; [eauto|].
  rewrite apply_upsertOf. inversion Hall as [|? ? [tbl Htbl] Hrest]; subst.
  rewrite Htbl. apply IH. cbn [tokenTables].
  eapply Forall_impl; [exact Hrest|]. cbn. intros t Ht.
  rewrite lookup_insert_is_Some. destruct (decide
    (tableName (tm_symbol token) = tableName (tm_symbol t))); auto.
Qed.

(** The upserts of a whole call. *)
Lemma upserts_applied d d' :
  apply_statements now (upserts metricsData) d = inr d' ->
  (exists tbl,
      market d = Some tbl
      /\ market d'
         = Some (upsert_market now (blockNumber metricsData)
                   (marketValuesOf metricsData) tbl))
  /\ Forall (fun token => is_Some (tokenTables d !! tableName (tm_symbol token)))
       (tokenMetrics metricsData)
  /\ forall n,
       tokenTables d' !! n
       = table_after now metricsData n (tokenMetrics metricsData)
           <$> (tokenTables d !! n).
Proof.
  unfold upserts. cbn [apply_statements apply_statement].
  destruct (market d) as [tbl|] eqn:Hmarket; [|discriminate].
  intros Happ. apply token_upserts_applied in Happ as (Hm & Hall & Hlookup).
  cbn [market tokenTables] in *. split; [eauto|]. split; assumption.
Qed.

Lemma upserts_apply d :
  is_Some (market d) ->
  Forall (fun token => is_Some (tokenTables d !! tableName (tm_symbol token)))
    (tokenMetrics metricsData) ->
  exists d', apply_statements now (upserts metricsData) d = inr d'.
Proof.
  intros [tbl Hmarket] Hall. unfold upserts.
  cbn [apply_statements apply_statement]. rewrite Hmarket.
  apply token_upserts_apply. exact Hall.
Qed.

(** Once the upserts have applied, every row of the snapshot is there. *)
Lemma upserts_written d d' :
  apply_statements now (upserts metricsData) d = inr d' ->
  written metricsData d'.
Proof.
  intros Happ. apply upserts_applied in Happ as ((mt & Hm & Hm') & Hall & Hlookup).
  assert (Hrow : forall token,
    token ∈ tokenMetrics metricsData ->
    exists tbl,
      tokenTables d !! tableName (tm_symbol token) = Some tbl
      /\ tokenTables d' !! tableName (tm_symbol token)
         = Some (table_after now metricsData (tableName (tm_symbol token))
                   (tokenMetrics metricsData) tbl)).
  { intros token Hin. rewrite Forall_forall in Hall.
    destruct (Hall token Hin) as [tbl Htbl]. exists tbl.
    rewrite Hlookup, Htbl. auto. }
  split; [|split].
  - eexists _, _. split; [exact Hm'|]. unfold upsert_market.
    split; [apply lookup_insert_eq|]. apply market_on_conflict_upsert.
  - apply Forall_forall. intros token Hin.
    destruct (Hrow token Hin) as (tbl & _ & Htbl').
    destruct (row_after_elem now metricsData (tableName (tm_symbol token))
                (tokenMetrics metricsData)
                (tbl !! blockNumber metricsData) token Hin eq_refl)
      as [row Hr].
    eexists _, row. split; [exact Htbl'|].
    rewrite table_after_lookup. exact Hr.
  - intros earlier token later Hsplit Hlast.
    assert (Hin : token ∈ tokenMetrics metricsData).
    { rewrite Hsplit. apply elem_of_app. right. constructor. }
    destruct (Hrow token Hin) as (tbl & _ & Htbl').
    eexists _, _. split; [exact Htbl'|].
    rewrite table_after_lookup, Hsplit.
    rewrite (row_after_last now metricsData _ earlier token later _ eq_refl Hlast).
    split; [reflexivity|]. apply token_on_conflict_upsert.
Qed.

End Tables.

(** ** Atomicity, idempotence and the tables a call needs *)

Section Store.
Variable faults : nat -> bool.
Variable now : Z.

(** C1. [storeMetrics] is atomic: either it returns, no statement of the unit
    has failed, and the aggregate row and every per-token row of the block are
    in the database; or it throws to its caller and the database is exactly
    the one before the call. *)
Theorem storeMetrics_atomic metricsData d :
  (exists d',
      storeMetrics faults now metricsData d = (inr tt, d')
      /\ written metricsData d'
      /\ forall i, (i < length (tokenMetrics metricsData) + 3)%nat ->
                   faults i = false)
  \/ (exists e, storeMetrics faults now metricsData d = (inl e, d)).
Proof.
  destruct (storeMetrics_cases faults now metricsData d)
    as [(d' & Hrun & Happ & Hnf) | Hfail]; [left|right; exact Hfail].
  exists d'. split; [exact Hrun|]. split; [|exact Hnf].
  eapply upserts_written, Happ.
Qed.

(** A statement of the unit that fails makes the call throw and leave the
    database as it was. *)
Corollary storeMetrics_fault metricsData d i :
  (i < length (tokenMetrics metricsData) + 3)%nat -> faults i = true ->
  exists e, storeMetrics faults now metricsData d = (inl e, d).
Proof.
  intros Hi Hf.
  destruct (storeMetrics_cases faults now metricsData d)
    as [(d' & _ & _ & Hnf) | Hfail]; [|exact Hfail].
  rewrite (Hnf i Hi) in Hf. discriminate.
Qed.

(** [storeMetrics] creates no table and drops none. *)
Lemma storeMetrics_tables metricsData d n :
  tokenTables (storeMetrics faults now metricsData d).2 !! n = None
  <-> tokenTables d !! n = None.
Proof.
  destruct (storeMetrics_cases faults now metricsData d)
    as [(d' & -> & Happ & _) | (e & ->)]; cbn [snd]; [|reflexivity].
  apply upserts_applied in Happ as (_ & _ & Hlookup). rewrite Hlookup.
  destruct (tokenTables d !! n); cbn; split; congruence.
Qed.

(** C9, amended. [storeMetrics] creates no table. On a snapshot with a token
    whose table does not exist it throws and leaves the database as it was;
    no call creates or drops a per-token table; and when the aggregate table
    and the table of every token exist and no statement fails, it returns. *)
Theorem storeMetrics_needs_tables metricsData d :
  (forall token,
      token ∈ tokenMetrics metricsData ->
      tokenTables d !! tableName (tm_symbol token) = None ->
      exists e, storeMetrics faults now metricsData d = (inl e, d))
  /\ (forall n,
        tokenTables (storeMetrics faults now metricsData d).2 !! n = None
        <-> tokenTables d !! n = None)
  /\ ((forall i, faults i = false) ->
      is_Some (market d) ->
      Forall (fun token => is_Some (tokenTables d !! tableName (tm_symbol token)))
        (tokenMetrics metricsData) ->
      exists d', storeMetrics faults now metricsData d = (inr tt, d')
                 /\ written metricsData d').
Proof.
  split; [|split].
  - intros token Hin Hnone.
    destruct (storeMetrics_cases faults now metricsData d)
      as [(d' & _ & Happ & _) | Hfail]; [|exact Hfail].
    apply upserts_applied in Happ as (_ & Hall & _).
    rewrite Forall_forall in Hall. destruct (Hall token Hin) as [tbl Htbl].
    congruence.
  - apply storeMetrics_tables.
  - intros Hnf Hmarket Hall.
    destruct (upserts_apply now metricsData d Hmarket Hall) as [d' Happ].
    exists d'. split; [apply storeMetrics_run; assumption|].
    eapply upserts_written, Happ.
Qed.

(** At the storage boundary: in the row that a call has written for the last
    token stored in a table, a cap is NULL exactly when the token's cap is
    [Infinity], and the number [Infinity] is never in a cap column. *)
Corollary stored_caps metricsData d earlier token later :
  written metricsData d ->
  tokenMetrics metricsData = earlier ++ token :: later ->
  last_writer token later ->
  exists row,
    tokenRowAt d (tableName (tm_symbol token)) (blockNumber metricsData) = Some row
    /\ t_supply_cap (t_values row)
       = Pg.numeric 18 <$> capParameter (tm_supplyCap token)
    /\ t_borrow_cap (t_values row)
       = Pg.numeric 18 <$> capParameter (tm_borrowCap token)
    /\ (t_supply_cap (t_values row) = None <-> tm_supplyCap token = infinity)
    /\ (t_borrow_cap (t_values row) = None <-> tm_borrowCap token = infinity).
Proof.
  intros (_ & _ & Hlast) Hsplit Hlater.
  destruct (Hlast earlier token later Hsplit Hlater) as (tbl & row & Htbl & Hrow & Hfix).
  exists row. unfold tokenRowAt. rewrite Htbl. cbn. split; [exact Hrow|].
  apply token_on_conflict_fixed in Hfix.
  destruct Hfix as (_ & _ & _ & _ & _ & _ & _ & _ & _ & _ & _ & _ & Hs & Hb).
  rewrite Hs, Hb. cbn [tokenValuesOf t_supply_cap t_borrow_cap].
  split; [reflexivity|]. split; [reflexivity|].
  rewrite !fmap_None. split; apply capParameter_null.
Qed.

End Store.

Section Idempotence.

Lemma upsert_market_twice now1 now2 block v (tbl : gmap Z MarketRow) :
  upsert_market now2 block v (upsert_market now1 block v tbl)
  = upsert_market now1 block v tbl.
Proof.
  unfold upsert_market. rewrite lookup_insert_eq, insert_insert_eq.
  cbn [upsert_market_row]. rewrite market_on_conflict_upsert. reflexivity.
Qed.

Lemma table_after_twice now1 now2 metricsData n tokens (tbl : gmap Z TokenRow) :
  table_after now2 metricsData n tokens (table_after now1 metricsData n tokens tbl)
  = table_after now1 metricsData n tokens tbl.
Proof.
  unfold table_after at 1. rewrite table_after_lookup, row_after_twice.
  destruct (row_after now1 metricsData n tokens (tbl !! blockNumber metricsData))
    as [row|] eqn:Hrow; [|reflexivity].
  apply insert_id. rewrite table_after_lookup. exact Hrow.
Qed.

(** C2, amended. When [storeMetrics] returns twice in a row for the same
    snapshot, the second call leaves the database of the first: each table
    holds one row for the block, in which every column of the upsert's SET
    list holds the snapshot's value as the column stores it (for a per-token
    table, the value of the last token stored in it): integers and booleans
    as they are, a number rounded to the scale of its [NUMERIC] column, 18
    decimals for amounts, prices and caps and 4 for rates, a cap that is
    [Infinity] as NULL. The columns [network] and [token_name] are not in the
    SET list: they have the snapshot's value when the block had no row before
    the first call (and, for a token, when no other token of the snapshot is
    stored in its table). *)
Theorem storeMetrics_idempotent faults1 faults2 now1 now2 metricsData d0 d1 d2 :
  storeMetrics faults1 now1 metricsData d0 = (inr tt, d1) ->
  storeMetrics faults2 now2 metricsData d1 = (inr tt, d2) ->
  d2 = d1
  /\ written metricsData d2
  /\ (exists row,
        marketRowAt d2 (blockNumber metricsData) = Some row
        /\ m_timestamp (m_values row) = timestamp metricsData
        /\ m_total_market_size (m_values row)
           = Pg.numeric 18 (totalMarketSize metricsData)
        /\ m_total_borrows (m_values row)
           = Pg.numeric 18 (totalBorrows metricsData)
        /\ m_average_utilization (m_values row)
           = Pg.numeric 4 (averageUtilization metricsData)
        /\ m_token_count (m_values row) = tokenCount metricsData
        /\ (marketRowAt d0 (blockNumber metricsData) = None ->
            m_network (m_values row) = network metricsData))
  /\ (forall earlier token later,
        tokenMetrics metricsData = earlier ++ token :: later ->
        last_writer token later ->
        exists row,
          tokenRowAt d2 (tableName (tm_symbol token)) (blockNumber metricsData)
            = Some row
          /\ t_timestamp (t_values row) = timestamp metricsData
          /\ t_price_usd (t_values row) = Pg.numeric 18 (tm_priceInUSD token)
          /\ t_total_supplied (t_values row)
             = Pg.numeric 18 (tm_totalSupplied token)
          /\ t_total_supplied_usd (t_values row)
             = Pg.numeric 18 (tm_totalSuppliedUSD token)
          /\ t_total_borrowed (t_values row)
             = Pg.numeric 18 (tm_totalBorrowed token)
          /\ t_total_borrowed_usd (t_values row)
             = Pg.numeric 18 (tm_totalBorrowedUSD token)
          /\ t_utilization_rate (t_values row)
             = Pg.numeric 4 (tm_utilizationRate token)
          /\ t_supply_apy (t_values row) = Pg.numeric 4 (tm_supplyAPY token)
          /\ t_borrow_apy (t_values row)
             = Pg.numeric 4 (tm_variableBorrowAPY token)
          /\ t_reserve_factor (t_values row)
             = Pg.numeric 4 (tm_reserveFactor token)
          /\ t_liquidation_threshold (t_values row)
             = Pg.numeric 4 (tm_liquidationThreshold token)
          /\ t_borrow_enabled (t_values row) = tm_borrowEnabled token
          /\ t_supply_cap (t_values row)
             = Pg.numeric 18 <$> capParameter (tm_supplyCap token)
          /\ t_borrow_cap (t_values row)
             = Pg.numeric 18 <$> capParameter (tm_borrowCap token)
          /\ (last_writer token earlier ->
              tokenRowAt d0 (tableName (tm_symbol token))
                (blockNumber metricsData) = None ->
              t_token_name (t_values row) = tm_token token)).
Proof.
  intros Hrun1 Hrun2.
  apply storeMetrics_ok in Hrun1 as Happ1.
  apply storeMetrics_ok in Hrun2 as Happ2.
  pose proof (upserts_written _ _ _ _ Happ2) as Hwritten.
  apply upserts_applied in Happ1 as ((mt0 & Hm0 & Hm1) & Hall0 & Hlookup1).
  apply upserts_applied in Happ2 as ((mt1 & Hm1' & Hm2) & _ & Hlookup2).
  assert (Heq : d2 = d1).
  { destruct d1 as [m1 t1], d2 as [m2 t2]. cbn [market tokenTables] in *.
    f_equal.
    - rewrite Hm2. rewrite Hm1 in Hm1'. injection Hm1' as <-.
      rewrite upsert_market_twice. symmetry. exact Hm1.
    - apply map_eq. intros n. rewrite Hlookup2, Hlookup1.
      destruct (tokenTables d0 !! n) as [tbl|]; cbn; [|reflexivity].
      rewrite table_after_twice. reflexivity. }
  split; [exact Heq|]. split; [exact Hwritten|].
  destruct Hwritten as ((mtbl & mrow & Hmtbl & Hmrow & Hmfix) & _ & Hlast).
  subst d2. split.
  - exists mrow. unfold marketRowAt at 1. rewrite Hmtbl. cbn [mbind option_bind].
    split; [exact Hmrow|].
    apply market_on_conflict_fixed in Hmfix as (Ht & Hs & Hb & Hu & Hc).
    cbn [marketValuesOf m_timestamp m_total_market_size m_total_borrows
         m_average_utilization m_token_count] in Ht, Hs, Hb, Hu, Hc.
    repeat (split; [assumption|]).
    unfold marketRowAt. rewrite Hm0. cbn [mbind option_bind]. intros Hnone.
    rewrite Hm1 in Hmtbl. injection Hmtbl as <-.
    unfold upsert_market in Hmrow. rewrite lookup_insert_eq, Hnone in Hmrow.
    injection Hmrow as <-. reflexivity.
  - intros earlier token later Hsplit Hlater.
    destruct (Hlast earlier token later Hsplit Hlater)
      as (ttbl & trow & Httbl & Htrow & Htfix).
    exists trow. unfold tokenRowAt at 1. rewrite Httbl. cbn [mbind option_bind].
    split; [exact Htrow|].
    apply token_on_conflict_fixed in Htfix
      as (H1 & H2 & H3 & H4 & H5 & H6 & H7 & H8 & H9 & H10 & H11 & H12 & H13 & H14).
    cbn [tokenValuesOf t_timestamp t_price_usd t_total_supplied
         t_total_supplied_usd t_total_borrowed t_total_borrowed_usd
         t_utilization_rate t_supply_apy t_borrow_apy t_reserve_factor
         t_liquidation_threshold t_borrow_enabled t_supply_cap t_borrow_cap]
      in H1, H2, H3, H4, H5, H6, H7, H8, H9, H10, H11, H12, H13, H14.
    repeat (split; [assumption|]).
    intros Hearlier. unfold tokenRowAt.
    rewrite Forall_forall in Hall0.
    destruct (Hall0 token) as [tbl Htbl].
    { rewrite Hsplit. apply elem_of_app. right. constructor. }
    rewrite Htbl. cbn [mbind option_bind]. intros Hnone.
    rewrite Hlookup1, Htbl in Httbl. cbn in Httbl. injection Httbl as <-.
    rewrite table_after_lookup, Hsplit in Htrow.
    rewrite (row_after_last now1 metricsData _ earlier token later _
               eq_refl Hlater) in Htrow.
    rewrite Hnone, (row_after_unrelated _ _ _ _ _ Hearlier) in Htrow.
    injection Htrow as <-. reflexivity.
Qed.

End Idempotence.

(** ** Setting up the schema *)

Section Schema.
Variable faults : nat -> bool.
Variable now : Z.
Hypothesis no_faults : forall i, faults i = false.

(** A client outside any transaction. *)
Lemma query_autocommit st d k :
  is_data st = true ->
  query faults now st {| committed := d; txn := None; issued := k |}
  = match apply_statement now st d with
    | inl e => (inl e, {| committed := d; txn := None; issued := S k |})
    | inr d' => (inr tt, {| committed := d'; txn := None; issued := S k |})
    end.
Proof.
  intros Hdata.
  assert (Hrun : run_statement now st
                   {| committed := d; txn := None; issued := S k |}
                 = match apply_statement now st d with
                   | inl e => inl e
                   | inr d' =>
                       inr {| committed := d'; txn := None; issued := S k |}
                   end)
    by (destruct st; try discriminate Hdata; reflexivity).
  unfold query. cbn [issued committed txn]. rewrite no_faults, Hrun.
  destruct (apply_statement now st d); reflexivity.
Qed.

Lemma create_tables_run symbols d k :
  exists d',
    for_of symbols (fun symbol =>
        query faults now (CreateTokenTable (tableName symbol)))
      {| committed := d; txn := None; issued := k |}
    = (inr tt, {| committed := d'; txn := None;
                  issued := (k + length symbols)%nat |})
    /\ market d' = market d
    /\ (forall symbol, symbol ∈ symbols ->
          is_Some (tokenTables d' !! tableName symbol))
    /\ (forall n, is_Some (tokenTables d !! n) -> is_Some (tokenTables d' !! n)).
Proof.
  revert d k. induction symbols as [|symbol rest IH]; intros d k; cbn [for_of].
  - exists d. rewrite Nat.add_0_r. repeat split; [|auto].
    intros symbol Hin. inversion Hin.
  - unfold mbind, exec_bind. rewrite query_autocommit by reflexivity.
    cbn [apply_statement].
    destruct (IH {| market := market d;
                    tokenTables :=
                      match tokenTables d !! tableName symbol with
                      | Some _ => tokenTables d
                      | None => <[tableName symbol := ∅]> (tokenTables d)
                      end |} (S k))
      as (d' & -> & Hmarket & Hnew & Hold).
    cbn [market tokenTables] in *.
    assert (Hstep : forall n, is_Some (tokenTables d !! n) ->
              is_Some (match tokenTables d !! tableName symbol with
                       | Some _ => tokenTables d
                       | None => <[tableName symbol := ∅]> (tokenTables d)
                       end !! n)).
    { intros n Hn. destruct (tokenTables d !! tableName symbol); [exact Hn|].
      rewrite lookup_insert_is_Some. destruct (decide (tableName symbol = n)); auto. }
    exists d'. split; [do 2 f_equal; cbn [length]; lia|].
    split; [exact Hmarket|]. split.
    + intros s Hin. apply elem_of_cons in Hin as [->|Hin]; [|apply Hnew, Hin].
      apply Hold. destruct (tokenTables d !! tableName symbol) eqn:Htbl.
      * rewrite Htbl. eauto.
      * rewrite lookup_insert_eq. eauto.
    + intros n Hn. apply Hold, Hstep, Hn.
Qed.

(** Without faults [initializeDatabase] returns, and afterwards the aggregate
    table and the table of every symbol it was given exist. *)
Lemma initializeDatabase_ok latestFile d :
  exists d',
    initializeDatabase faults now latestFile d = (inr tt, d')
    /\ is_Some (market d')
    /\ forall symbol,
         symbol ∈ match latestFile with
                  | Some symbols => symbols
                  | None => defaultTokenSymbols
                  end ->
         is_Some (tokenTables d' !! tableName symbol).
Proof.
  unfold initializeDatabase, try_catch, mbind, exec_bind, connect.
  rewrite query_autocommit by reflexivity. cbn [apply_statement].
  destruct (create_tables_run
              match latestFile with
              | Some symbols => symbols
              | None => defaultTokenSymbols
              end
              {| market := Some (default ∅ (market d));
                 tokenTables := tokenTables d |} 1)
    as (d' & -> & Hmarket & Hnew & _).
  exists d'. cbn [release committed market] in *.
  split; [reflexivity|]. split; [rewrite Hmarket; eauto|exact Hnew].
Qed.

End Schema.

(** The [store] command sets up the tables of the symbols of the file it is
    about to store, so without faults it returns with every row written,
    whatever the symbols are. *)
Lemma storeCommand_ok faults1 now1 faults2 now2 metricsData d :
  (forall i, faults1 i = false) -> (forall i, faults2 i = false) ->
  exists d',
    storeCommand faults1 now1 faults2 now2 (Some metricsData) d = (inr tt, d')
    /\ written metricsData d'.
Proof.
  intros Hnf1 Hnf2. unfold storeCommand. cbn [option_map].
  destruct (initializeDatabase_ok faults1 now1 Hnf1
              (Some (map tm_symbol (tokenMetrics metricsData))) d)
    as (d1 & -> & Hmarket & Htables).
  assert (Hall : Forall (fun token =>
            is_Some (tokenTables d1 !! tableName (tm_symbol token)))
            (tokenMetrics metricsData)).
  { apply Forall_forall. intros token Hin. apply Htables.
    apply list_elem_of_fmap. eauto. }
  destruct (upserts_apply now2 metricsData d1 Hmarket Hall) as [d' Happ].
  exists d'. split; [apply storeMetrics_run; assumption|].
  eapply upserts_written, Happ.
Qed.

Module StoreExamples.
Import RefRuntime Sample.

(** C9 fails as stated: on the bootstrapped database, [storeMetrics] of a
    snapshot with the later reserve AERO throws because the table
    [aave_token_aero] does not exist, and creates nothing. *)
Lemma storeMetrics_needs_tables_counterexample :
  storeMetrics noFaults 1700000003 snapshot101 bootstrapped
    = (inl (UndefinedTable "aave_token_aero"), bootstrapped)
  /\ tokenTables bootstrapped !! "aave_token_aero" = None
  /\ is_Some (tokenTables bootstrapped !! "aave_token_weth").
Proof.
  split; [vm_compute; reflexivity|]. split; [vm_compute; reflexivity|].
  vm_compute. eauto.
Qed.

(** C9, amended, on the same call. *)
Lemma storeMetrics_needs_tables_witness :
  exists e,
    storeMetrics noFaults 1700000003 snapshot101 bootstrapped
    = (inl e, bootstrapped).
Proof.
  refine (proj1 (storeMetrics_needs_tables noFaults 1700000003 snapshot101
                   bootstrapped) (liveTokenMetric usd newcomer) _ _).
  - cbn. apply list_elem_of_further, list_elem_of_here.
  - vm_compute. reflexivity.
Defined.

(** The same snapshot is stored once its tables exist. *)
Example storeMetrics_with_tables :
  (storeMetrics noFaults 1700000003 snapshot101 withNewcomer).1 = inr tt
  /\ t_values <$> tokenRowAt
       (storeMetrics noFaults 1700000003 snapshot101 withNewcomer).2
       "aave_token_aero" 101
     = Some (tokenColumnsOf
               (tokenValuesOf snapshot101 (liveTokenMetric usd newcomer))).
Proof. split; vm_compute; reflexivity. Qed.

(** C1 on a call whose fourth statement, the upsert of the second token,
    fails: the call throws that failure and the rows already sent, the
    aggregate row and the first token's row, are not in the database. *)
Example storeMetrics_fault_rolled_back :
  storeMetrics (fun i => Nat.eqb i 3) 1700000003 snapshot101 withNewcomer
    = (inl (Unavailable 3), withNewcomer)
  /\ marketRowAt withNewcomer 101 = None
  /\ tokenRowAt withNewcomer "aave_token_weth" 101 = None.
Proof. repeat split; vm_compute; reflexivity. Qed.

(** C2, amended, on the bootstrapped database and a snapshot whose
    utilization is a third: after two calls the rows hold [33.3333] for the
    number [33.33333333333333], and the amounts [3] and [1] with 18
    decimals. *)
Lemma storeMetrics_idempotent_witness :
  (storeMetrics noFaults 2 snapshot103
     (storeMetrics noFaults 1 snapshot103 bootstrapped).2).2
  = (storeMetrics noFaults 1 snapshot103 bootstrapped).2
  /\ averageUtilization snapshot103 = (1 / 3 * 100)%float
  /\ exists row,
       marketRowAt
         (storeMetrics noFaults 2 snapshot103
            (storeMetrics noFaults 1 snapshot103 bootstrapped).2).2 103
       = Some row
       /\ m_average_utilization (m_values row) = Decimal 333333 4
       /\ m_total_market_size (m_values row) = Decimal 3000000000000000000 18
       /\ m_total_borrows (m_values row) = Decimal 1000000000000000000 18
       /\ m_network (m_values row) = "Base".
Proof.
  destruct (storeMetrics_idempotent noFaults noFaults 1 2 snapshot103
              bootstrapped (storeMetrics noFaults 1 snapshot103 bootstrapped).2
              (storeMetrics noFaults 2 snapshot103
                 (storeMetrics noFaults 1 snapshot103 bootstrapped).2).2)
    as (Heq & _ & (row & Hrow & _ & Hsize & Hborrows & Hrate & _ & Hnet) & _).
  - vm_compute. reflexivity.
  - vm_compute. reflexivity.
  - split; [exact Heq|]. split; [vm_compute; reflexivity|].
    exists row. split; [exact Hrow|].
    split; [rewrite Hrate; vm_compute; reflexivity|].
    split; [rewrite Hsize; vm_compute; reflexivity|].
    split; [rewrite Hborrows; vm_compute; reflexivity|].
    apply Hnet. vm_compute. reflexivity.
Defined.

(** C2 fails as stated. When block 100 already has rows under the network
    label [Optimism] and the token name [Wrapped Ether], two calls of
    [storeMetrics] for a snapshot labelled [Base] with the token name [WETH]
    both return and leave the old label and the old name in the rows. When
    two tokens of a snapshot are stored in the same table, two calls on a
    database without rows leave one row with the name of the first token and
    the figures of the second. And a rate with more than four decimals is
    not in the row: for the utilization [33.33333333333333] the row holds
    [33.3333], what it would hold for the number [33.3333]. *)
Lemma storeMetrics_idempotent_counterexample :
  ((storeMetrics noFaults 1 snapshot100 written_before).1 = inr tt
   /\ (storeMetrics noFaults 2 snapshot100
         (storeMetrics noFaults 1 snapshot100 written_before).2).1 = inr tt
   /\ network snapshot100 = "Base"
   /\ (m_network ∘ m_values) <$> marketRowAt (storedTwice written_before) 100
      = Some "Optimism"
   /\ map tm_token (tokenMetrics snapshot100) = ["WETH"]
   /\ (t_token_name ∘ t_values)
        <$> tokenRowAt (storedTwice written_before) "aave_token_weth" 100
      = Some "Wrapped Ether")
  /\ ((storeMetrics noFaults 1 snapshot102 bootstrapped).1 = inr tt
      /\ (storeMetrics noFaults 2 snapshot102
            (storeMetrics noFaults 1 snapshot102 bootstrapped).2).1 = inr tt
      /\ map (fun t => (tm_token t, tableName (tm_symbol t), tm_priceInUSD t))
            (tokenMetrics snapshot102)
         = [("USDC", "aave_token_usdc", 1%float);
            ("usdc", "aave_token_usdc", 3%float)]
      /\ (fun row => (t_token_name (t_values row), t_price_usd (t_values row)))
           <$> tokenRowAt
                 (storeMetrics noFaults 2 snapshot102
                    (storeMetrics noFaults 1 snapshot102 bootstrapped).2).2
                 "aave_token_usdc" 102
         = Some ("USDC", Decimal 3000000000000000000 18))
  /\ ((storeMetrics noFaults 1 snapshot103 bootstrapped).1 = inr tt
      /\ (storeMetrics noFaults 2 snapshot103
            (storeMetrics noFaults 1 snapshot103 bootstrapped).2).1 = inr tt
      /\ averageUtilization snapshot103 = (1 / 3 * 100)%float
      /\ (m_average_utilization ∘ m_values)
           <$> marketRowAt
                 (storeMetrics noFaults 2 snapshot103
                    (storeMetrics noFaults 1 snapshot103 bootstrapped).2).2 103
         = Some (Decimal 333333 4)
      /\ Pg.numeric 4 (333333 / 10000)%float = Decimal 333333 4
      /\ Js.strict_eq (averageUtilization snapshot103) (333333 / 10000)%float
         = false).
Proof. repeat split; vm_compute; reflexivity. Qed.

End StoreExamples.

(** ** The poller *)

Section PollerFacts.
Context {rt : JsRuntime} {aave : AaveLibrary}.

(** A call of [indexBaseAaveMetrics] for a block that stores in the database
    returns only once the snapshot of that block is written. *)
Lemma indexBaseAaveMetrics_stored w block d s d' :
  block <> 0 ->
  indexBaseAaveMetrics w (Some block) true d = (inr s, d') ->
  blockNumber s = block /\ written s d'.
Proof.
  intros Hblock. unfold indexBaseAaveMetrics.
  destruct (Z.eqb_spec block 0) as [|_]; [contradiction|].
  destruct (negb (w_reservesList w)); [discriminate|].
  destruct (w_market w) as [raw|]; [|discriminate].
  destruct (negb (w_files w)); [discriminate|].
  destruct (storeMetrics_cases (w_db_faults w) (w_db_clock w)
              (liveSnapshot block (w_clock w) raw) d)
    as [(d1 & -> & Happ & _) | (e & ->)]; [|discriminate].
  intros [= <- <-]. split; [reflexivity|]. eapply upserts_written, Happ.
Qed.

(** A call that throws leaves the database as it was. *)
Lemma indexBaseAaveMetrics_thrown w blockNumber storeInDb d e d' :
  indexBaseAaveMetrics w blockNumber storeInDb d = (inl e, d') -> d' = d.
Proof.
  unfold indexBaseAaveMetrics.
  destruct (match match blockNumber with
                  | Some n => if n =? 0 then None else Some n
                  | None => None
                  end with
            | Some n => Some n
            | None => w_head w
            end) as [currentBlock|]; [|intros [= _ <-]; reflexivity].
  destruct (negb (w_reservesList w)); [intros [= _ <-]; reflexivity|].
  destruct (w_market w) as [raw|]; [|intros [= _ <-]; reflexivity].
  destruct (negb (w_files w)); [intros [= _ <-]; reflexivity|].
  destruct storeInDb; [|discriminate].
  destruct (storeMetrics_cases (w_db_faults w) (w_db_clock w)
              (liveSnapshot currentBlock (w_clock w) raw) d)
    as [(d1 & -> & _) | (e1 & ->)]; [discriminate|].
  intros [= _ <-]. reflexivity.
Qed.

(** The cursor moves only when a run finishes its ingestion without error,
    and then it moves to that run's block, whose snapshot is written. A run
    that fails, and a run that starts, leave the cursor and the database. *)
Lemma poll_step_cursor p ev :
  Forall (fun b => b <> 0) (inFlight p) ->
  (lastProcessedBlock (poll_step p ev) = lastProcessedBlock p
   /\ storage (poll_step p ev) = storage p)
  \/ (exists i w s,
        ev = Complete i w
        /\ inFlight p !! i = Some (lastProcessedBlock (poll_step p ev))
        /\ blockNumber s = lastProcessedBlock (poll_step p ev)
        /\ written s (storage (poll_step p ev))).
Proof.
  intros Hpos. destruct ev as [[head|]|i w]; cbn [poll_step].
  - destruct (head <=? lastProcessedBlock p); left; split; reflexivity.
  - left. split; reflexivity.
  - destruct (inFlight p !! i) as [block|] eqn:Hi; [|left; split; reflexivity].
    destruct (indexBaseAaveMetrics w (Some block) true (storage p))
      as [[e|s] d] eqn:Hrun; cbn [lastProcessedBlock storage].
    + left. apply indexBaseAaveMetrics_thrown in Hrun. auto.
    + right. exists i, w, s. split; [reflexivity|]. split; [exact Hi|].
      apply indexBaseAaveMetrics_stored in Hrun; [exact Hrun|].
      rewrite Forall_forall in Hpos. apply Hpos.
      eapply list_elem_of_lookup_2, Hi.
Qed.

Lemma poll_step_positive p ev : positive p -> positive (poll_step p ev).
Proof.
  intros [Hlast Hall]. destruct ev as [[head|]|i w]; cbn [poll_step].
  - destruct (Z.leb_spec head (lastProcessedBlock p)); [split; assumption|].
    split; [exact Hlast|]. cbn. apply Forall_app. split; [exact Hall|].
    apply Forall_singleton. lia.
  - split; assumption.
  - destruct (inFlight p !! i) as [block|] eqn:Hi; [|split; assumption].
    pose proof (Forall_lookup_1 _ _ _ _ Hall Hi) as Hblock. cbn in Hblock.
    destruct (indexBaseAaveMetrics w (Some block) true (storage p))
      as [[e|s] d]; split; cbn; try apply Forall_delete; try assumption; lia.
Qed.

Lemma poll_run_positive evs p : positive p -> positive (poll_run p evs).
Proof.
  revert p. induction evs as [|ev evs IH]; intros p Hp; [exact Hp|].
  apply IH, poll_step_positive, Hp.
Qed.

(** From a start at a head of the chain, whatever happened before, an event
    either leaves the cursor and the database, or it is the end of a run that
    has written the snapshot of its block, to which the cursor moves. *)
Lemma cursor_moves_after_store currentBlock d evs ev :
  0 <= currentBlock ->
  (lastProcessedBlock (poll_step (poll_run (poller_start currentBlock d) evs) ev)
   = lastProcessedBlock (poll_run (poller_start currentBlock d) evs)
   /\ storage (poll_step (poll_run (poller_start currentBlock d) evs) ev)
     = storage (poll_run (poller_start currentBlock d) evs))
  \/ (exists s,
        blockNumber s
        = lastProcessedBlock
            (poll_step (poll_run (poller_start currentBlock d) evs) ev)
        /\ written s
             (storage (poll_step (poll_run (poller_start currentBlock d) evs) ev))).
Proof.
  intros Hstart.
  assert (Hpos : positive (poll_run (poller_start currentBlock d) evs)).
  { apply poll_run_positive. split; [exact Hstart|constructor]. }
  destruct (poll_step_cursor (poll_run (poller_start currentBlock d) evs) ev)
    as [Hsame | (i & w & s & _ & _ & Hblock & Hw)].
  - destruct Hpos as [_ Hall]. eapply Forall_impl; [exact Hall|].
    cbn. intros b Hb. lia.
  - left. exact Hsame.
  - right. eauto.
Qed.

(** A failed run is logged and the loop goes on: the cursor and the database
    are those before the run, and the next run that sees a new head
    starts. *)
Lemma poll_step_failure p i w block e d head :
  inFlight p !! i = Some block ->
  indexBaseAaveMetrics w (Some block) true (storage p) = (inl e, d) ->
  lastProcessedBlock p < head ->
  lastProcessedBlock (poll_step p (Complete i w)) = lastProcessedBlock p
  /\ storage (poll_step p (Complete i w)) = storage p
  /\ logged (poll_step p (Complete i w)) = S (logged p)
  /\ inFlight (poll_step (poll_step p (Complete i w)) (Observe (Some head)))
     = delete i (inFlight p) ++ [head].
Proof.
  intros Hi Hrun Hhead. cbn [poll_step]. rewrite Hi, Hrun.
  cbn [lastProcessedBlock storage logged inFlight].
  apply indexBaseAaveMetrics_thrown in Hrun as ->.
  repeat split. destruct (Z.leb_spec head (lastProcessedBlock p)); [lia|].
  reflexivity.
Qed.

Lemma poll_step_sequential p ev :
  one_run p ->
  match ev, inFlight p with Observe _, _ :: _ => False | _, _ => True end ->
  one_run (poll_step p ev)
  /\ lastProcessedBlock p <= lastProcessedBlock (poll_step p ev).
Proof.
  intros Hone Hseq. destruct ev as [[head|]|i w]; cbn [poll_step].
  - destruct (Z.leb_spec head (lastProcessedBlock p)); [split; [exact Hone|lia]|].
    destruct (inFlight p) eqn:Hin; [|contradiction].
    split; [|cbn; lia]. right. exists head. cbn. auto.
  - split; [exact Hone|cbn; lia].
  - destruct Hone as [Hnil|(block & Hin & Hlt)].
    + rewrite Hnil, lookup_nil. split; [left; exact Hnil|lia].
    + rewrite Hin. destruct i as [|i]; simpl.
      * destruct (indexBaseAaveMetrics w (Some block) true (storage p))
          as [[e|s] d]; simpl; (split; [left; reflexivity|lia]).
      * split; [right; eauto|lia].
Qed.

(** While runs do not overlap the cursor never decreases. *)
Lemma sequential_monotone evs p :
  one_run p -> sequential p evs = true ->
  lastProcessedBlock p <= lastProcessedBlock (poll_run p evs).
Proof.
  revert p. induction evs as [|ev evs IH]; intros p Hone Hseq; cbn; [lia|].
  cbn [sequential] in Hseq.
  assert (Hev : match ev, inFlight p with
                | Observe _, _ :: _ => False
                | _, _ => True
                end).
  { destruct ev; [|exact I]. destruct (inFlight p); [exact I|discriminate]. }
  assert (Hrest : sequential (poll_step p ev) evs = true).
  { destruct ev; [|exact Hseq]. destruct (inFlight p); [exact Hseq|discriminate]. }
  destruct (poll_step_sequential p ev Hone Hev) as [Hone' Hle].
  specialize (IH _ Hone' Hrest). unfold poll_run in IH. lia.
Qed.

End PollerFacts.

Module PollerExamples.
Import RefRuntime Sample.

(** C8 at the failing input. The poller starts at block 100. A run sees head
    103 and starts ingesting; two seconds later the next run sees head 105,
    starts ingesting and finishes first, which moves the cursor to 105; then
    the first run finishes and moves the cursor back to 103. Both snapshots
    are stored and no run has failed. *)
Theorem cursor_decreases :
  sequential (poller_start 100 bootstrapped) overlapping = false
  /\ lastProcessedBlock
       (poll_run (poller_start 100 bootstrapped) (take 3 overlapping)) = 105
  /\ lastProcessedBlock (poll_run (poller_start 100 bootstrapped) overlapping)
     = 103
  /\ logged (poll_run (poller_start 100 bootstrapped) overlapping) = 0%nat
  /\ is_Some (marketRowAt
                (storage (poll_run (poller_start 100 bootstrapped) overlapping))
                105).
Proof.
  repeat split; try (vm_compute; reflexivity). vm_compute. eauto.
Qed.

(** The scenario of the specification, in which runs do not overlap: head 100
    starts nothing, head 103 is ingested and the cursor becomes 103; a run
    that fails leaves the cursor and is followed by a run that succeeds. *)
Example cursor_sequential :
  lastProcessedBlock
    (poll_run (poller_start 100 bootstrapped)
       [Observe (Some 100); Observe (Some 103); Complete 0 (calm 103 1700000010)])
  = 103
  /\ lastProcessedBlock
       (poll_run (poller_start 100 bootstrapped)
          [Observe (Some 103); Complete 0 (offline 1700000010);
           Observe (Some 104); Complete 0 (calm 104 1700000012)])
     = 104
  /\ lastProcessedBlock
       (poll_run (poller_start 100 bootstrapped)
          [Observe (Some 103); Complete 0 (offline 1700000010)])
     = 100.
Proof. repeat split; vm_compute; reflexivity. Qed.

End PollerExamples.

(** * Further properties of the store *)

Section Frame.

Lemma table_after_lookup_other now metricsData n tokens (tbl : gmap Z TokenRow) k :
  k <> blockNumber metricsData ->
  table_after now metricsData n tokens tbl !! k = tbl !! k.
Proof.
  intros Hk. unfold table_after.
  destruct (row_after _ _ _ _ _); [|reflexivity].
  apply lookup_insert_ne. congruence.
Qed.

Lemma table_after_untouched now metricsData n tokens (tbl : gmap Z TokenRow) :
  Forall (fun t => tableName (tm_symbol t) <> n) tokens ->
  table_after now metricsData n tokens tbl = tbl.
Proof.
  intros Hall. unfold table_after. rewrite row_after_unrelated by exact Hall.
  destruct (tbl !! blockNumber metricsData) eqn:Hrow; [|reflexivity].
  apply insert_id, Hrow.
Qed.

(** What a call does to the rest of the database, whether it returns or
    throws. *)
Lemma storeMetrics_elsewhere faults now metricsData d :
  (forall k, k <> blockNumber metricsData ->
     marketRowAt (storeMetrics faults now metricsData d).2 k = marketRowAt d k)
  /\ (forall n k, k <> blockNumber metricsData ->
        tokenRowAt (storeMetrics faults now metricsData d).2 n k
        = tokenRowAt d n k)
  /\ (forall n,
        Forall (fun t => tableName (tm_symbol t) <> n) (tokenMetrics metricsData) ->
        tokenTables (storeMetrics faults now metricsData d).2 !! n
        = tokenTables d !! n).
Proof.
  destruct (storeMetrics_cases faults now metricsData d)
    as [(d' & -> & Happ & _) | (e & ->)]; cbn [snd]; [|auto].
  apply upserts_applied in Happ as ((mt & Hm & Hm') & _ & Hlookup).
  split; [|split].
  - intros k Hk. unfold marketRowAt. rewrite Hm, Hm'. cbn.
    unfold upsert_market. apply lookup_insert_ne. congruence.
  - intros n k Hk. unfold tokenRowAt. rewrite Hlookup.
    destruct (tokenTables d !! n); cbn; [|reflexivity].
    apply table_after_lookup_other, Hk.
  - intros n Hn. rewrite Hlookup.
    destruct (tokenTables d !! n); cbn; [|reflexivity].
    rewrite table_after_untouched by exact Hn. reflexivity.
Qed.

(** X1. [storeMetrics] touches the rows of its own block only: whether it
    returns or throws, every row of another block, in the aggregate table and
    in every per-token table, is the one that was there, and a per-token
    table in which no token of the snapshot is stored is unchanged. *)
Theorem storeMetrics_frame faults now metricsData d :
  (forall k, k <> blockNumber metricsData ->
     marketRowAt (storeMetrics faults now metricsData d).2 k = marketRowAt d k)
  /\ (forall n k, k <> blockNumber metricsData ->
        tokenRowAt (storeMetrics faults now metricsData d).2 n k
        = tokenRowAt d n k)
  /\ (forall n,
        Forall (fun t => tableName (tm_symbol t) <> n) (tokenMetrics metricsData) ->
        tokenTables (storeMetrics faults now metricsData d).2 !! n
        = tokenTables d !! n).
Proof.
  destruct (storeMetrics_elsewhere faults now metricsData d) as (Hm & Ht & Hn).
  split; [exact Hm|]. split; [exact Ht|exact Hn].
Qed.

Lemma upsert_market_commute now1 now2 b1 b2 v1 v2 (tbl : gmap Z MarketRow) :
  b1 <> b2 ->
  upsert_market now2 b2 v2 (upsert_market now1 b1 v1 tbl)
  = upsert_market now1 b1 v1 (upsert_market now2 b2 v2 tbl).
Proof.
  intros Hne. unfold upsert_market.
  rewrite !lookup_insert_ne by congruence.
  apply insert_insert_ne. congruence.
Qed.

Lemma table_after_commute now1 now2 s1 s2 n tokens1 tokens2
    (tbl : gmap Z TokenRow) :
  blockNumber s1 <> blockNumber s2 ->
  table_after now2 s2 n tokens2 (table_after now1 s1 n tokens1 tbl)
  = table_after now1 s1 n tokens1 (table_after now2 s2 n tokens2 tbl).
Proof.
  intros Hne. unfold table_after at 1 3.
  rewrite !table_after_lookup_other by congruence.
  unfold table_after.
  destruct (row_after now1 s1 n tokens1 (tbl !! blockNumber s1)) as [r1|];
    destruct (row_after now2 s2 n tokens2 (tbl !! blockNumber s2)) as [r2|];
    try reflexivity.
  apply insert_insert_ne. congruence.
Qed.

(** X2. Calls for different blocks commute: when [storeMetrics] returns for
    two snapshots of different blocks in one order and in the other (each
    call at the same second of the server's clock in both orders), the
    database is the same in the end. *)
Theorem storeMetrics_commute fa fb fc fd now1 now2 s1 s2 d d1 d12 d2 d21 :
  blockNumber s1 <> blockNumber s2 ->
  storeMetrics fa now1 s1 d = (inr tt, d1) ->
  storeMetrics fb now2 s2 d1 = (inr tt, d12) ->
  storeMetrics fc now2 s2 d = (inr tt, d2) ->
  storeMetrics fd now1 s1 d2 = (inr tt, d21) ->
  d12 = d21.
Proof.
  intros Hne H1 H12 H2 H21.
  apply storeMetrics_ok, upserts_applied in H1 as ((mt & Hm & Hm1) & _ & Hl1).
  apply storeMetrics_ok, upserts_applied in H12 as ((mt1 & Hm1' & Hm12) & _ & Hl12).
  apply storeMetrics_ok, upserts_applied in H2 as ((mt' & Hm' & Hm2) & _ & Hl2).
  apply storeMetrics_ok, upserts_applied in H21 as ((mt2 & Hm2' & Hm21) & _ & Hl21).
  rewrite Hm in Hm'. injection Hm' as <-.
  rewrite Hm1 in Hm1'. injection Hm1' as <-.
  rewrite Hm2 in Hm2'. injection Hm2' as <-.
  destruct d12 as [m12 t12], d21 as [m21 t21]. cbn [market tokenTables] in *.
  f_equal.
  - rewrite Hm12, Hm21. f_equal. apply upsert_market_commute, Hne.
  - apply map_eq. intros n. rewrite Hl12, Hl21, Hl1, Hl2.
    destruct (tokenTables d !! n); cbn; [|reflexivity].
    f_equal. apply table_after_commute, Hne.
Qed.

End Frame.

(** * Further properties of the schema set-up *)

Section SchemaRuns.
Variable faults : nat -> bool.
Variable now : Z.

(** A data statement sent outside a transaction, with faults. *)
Lemma query_outside st d k :
  is_data st = true ->
  query faults now st {| committed := d; txn := None; issued := k |}
  = if faults k
    then (inl (Unavailable k), {| committed := d; txn := None; issued := S k |})
    else match apply_statement now st d with
         | inl e => (inl e, {| committed := d; txn := None; issued := S k |})
         | inr d' => (inr tt, {| committed := d'; txn := None; issued := S k |})
         end.
Proof.
  intros Hdata.
  assert (Hrun : run_statement now st
                   {| committed := d; txn := None; issued := S k |}
                 = match apply_statement now st d with
                   | inl e => inl e
                   | inr d' =>
                       inr {| committed := d'; txn := None; issued := S k |}
                   end)
    by (destruct st; try discriminate Hdata; reflexivity).
  unfold query. cbn [issued committed txn].
  destruct (faults k); [reflexivity|].
  rewrite Hrun. destruct (apply_statement now st d); reflexivity.
Qed.

(** The loop of [CREATE TABLE] statements stops at its first fault, having
    created the tables of the symbols before it. *)
Lemma create_loop symbols d k r c' :
  for_of symbols (fun symbol =>
      query faults now (CreateTokenTable (tableName symbol)))
    {| committed := d; txn := None; issued := k |} = (r, c') ->
  exists j,
    (j <= length symbols)%nat
    /\ committed c' = withTokenTables (take j symbols) d
    /\ (forall i, (i < j)%nat -> faults (k + i)%nat = false)
    /\ (r = inr tt /\ j = length symbols
        \/ r = inl (Unavailable (k + j)) /\ (j < length symbols)%nat
           /\ faults (k + j)%nat = true).
Proof.
  revert d k. induction symbols as [|symbol rest IH]; intros d k; cbn [for_of].
  - intros [= <- <-]. exists 0%nat. cbn. repeat split; [lia|lia|auto].
  - unfold mbind, exec_bind. rewrite query_outside by reflexivity.
    destruct (faults k) eqn:Hk.
    + intros [= <- <-]. exists 0%nat. cbn. rewrite Nat.add_0_r.
      repeat split; [lia|lia|]. right. repeat split; [lia|exact Hk].
    + cbn [apply_statement]. fold (withTokenTable d symbol).
      intros Hrun. apply IH in Hrun as (j & Hj & Hc & Hnf & Hr).
      exists (S j). cbn [length take]. split; [lia|]. split; [exact Hc|].
      split.
      * intros i Hi. destruct i as [|i]; [rewrite Nat.add_0_r; exact Hk|].
        replace (k + S i)%nat with (S k + i)%nat by lia. apply Hnf. lia.
      * replace (k + S j)%nat with (S k + j)%nat by lia.
        destruct Hr as [[-> ->]|(-> & Hlt & Hf)]; [left; auto|right].
        repeat split; [lia|exact Hf].
Qed.

(** [initializeDatabase] stops at its first fault: the statements before it
    have taken effect. *)
Lemma initializeDatabase_cases latestFile d :
  faults 0%nat = true
  /\ initializeDatabase faults now latestFile d = (inl (Unavailable 0), d)
  \/ faults 0%nat = false
     /\ exists j,
          (j <= length (symbolsOf latestFile))%nat
          /\ (initializeDatabase faults now latestFile d).2
             = withTokenTables (take j (symbolsOf latestFile))
                 (withMarketTable d)
          /\ (forall i, (i < j)%nat -> faults (S i) = false)
          /\ ((initializeDatabase faults now latestFile d).1 = inr tt
              /\ j = length (symbolsOf latestFile)
              \/ (initializeDatabase faults now latestFile d).1
                 = inl (Unavailable (S j))
                 /\ (j < length (symbolsOf latestFile))%nat
                 /\ faults (S j) = true).
Proof.
  unfold initializeDatabase, try_catch, mbind, exec_bind, connect.
  rewrite query_outside by reflexivity.
  destruct (faults 0%nat) eqn:H0; [left; auto|right].
  split; [reflexivity|]. cbn [apply_statement]. fold (withMarketTable d).
  fold (symbolsOf latestFile).
  destruct (for_of (symbolsOf latestFile) _ _) as [r c'] eqn:Hloop.
  apply create_loop in Hloop as (j & Hj & Hc & Hnf & Hr).
  exists j. split; [exact Hj|].
  destruct r as [e|[]]; cbn [throw fst snd release]; (split; [exact Hc|]);
    (split; [exact Hnf|]);
    destruct Hr as [[Hr ->]|(Hr & Hlt & Hf)]; try discriminate Hr.
  - right. injection Hr as ->. auto.
  - left. auto.
Qed.

End SchemaRuns.

Section SchemaFacts.

Lemma withTokenTable_lookup d symbol n :
  tokenTables (withTokenTable d symbol) !! n = tokenTables d !! n
  \/ tokenTables d !! n = None
     /\ tokenTables (withTokenTable d symbol) !! n = Some ∅
     /\ n = tableName symbol.
Proof.
  unfold withTokenTable. cbn [tokenTables].
  destruct (tokenTables d !! tableName symbol) eqn:Htbl; [left; reflexivity|].
  destruct (decide (tableName symbol = n)) as [<-|Hne].
  - right. rewrite lookup_insert_eq. auto.
  - left. apply lookup_insert_ne, Hne.
Qed.

(** Creating tables keeps every table there is with its rows, and adds only
    empty tables named after the symbols. *)
Lemma withTokenTables_lookup symbols d n :
  market (withTokenTables symbols d) = market d
  /\ (tokenTables (withTokenTables symbols d) !! n = tokenTables d !! n
      \/ tokenTables d !! n = None
         /\ tokenTables (withTokenTables symbols d) !! n = Some ∅
         /\ exists symbol, symbol ∈ symbols /\ n = tableName symbol).
Proof.
  revert d. induction symbols as [|symbol rest IH]; intros d.
  - cbn. auto.
  - change (withTokenTables (symbol :: rest) d)
      with (withTokenTables rest (withTokenTable d symbol)).
    destruct (IH (withTokenTable d symbol)) as [Hm Ht]. split; [exact Hm|].
    destruct (withTokenTable_lookup d symbol n) as [Heq|(Hnone & Hnew & ->)].
    + rewrite Heq in Ht. destruct Ht as [Ht|(Hnone & Hnew & s & Hs & ->)];
        [left; exact Ht|right].
      split; [exact Hnone|]. split; [exact Hnew|].
      exists s. split; [apply list_elem_of_further, Hs|reflexivity].
    + right. split; [exact Hnone|]. split.
      * destruct Ht as [Ht|(Hcontra & _)]; [congruence|congruence].
      * exists symbol. split; [apply list_elem_of_here|reflexivity].
Qed.

Lemma withTokenTables_created symbols d symbol :
  symbol ∈ symbols -> is_Some (tokenTables (withTokenTables symbols d) !! tableName symbol).
Proof.
  revert d. induction symbols as [|s rest IH]; intros d Hin; [inversion Hin|].
  change (withTokenTables (s :: rest) d)
    with (withTokenTables rest (withTokenTable d s)).
  apply elem_of_cons in Hin as [->|Hin]; [|apply IH, Hin].
  destruct (withTokenTables_lookup rest (withTokenTable d s) (tableName s))
    as [_ [Heq|(_ & Hnew & _)]]; [|rewrite Hnew; eauto].
  rewrite Heq. unfold withTokenTable. cbn [tokenTables].
  destruct (tokenTables d !! tableName s) eqn:Htbl; [rewrite Htbl; eauto|].
  rewrite lookup_insert_eq. eauto.
Qed.

(** Creating tables that exist changes nothing. *)
Lemma withTokenTables_present symbols d :
  Forall (fun symbol => is_Some (tokenTables d !! tableName symbol)) symbols ->
  withTokenTables symbols d = d.
Proof.
  intros Hall. induction Hall as [|symbol rest [tbl Htbl] _ IH]; [reflexivity|].
  change (withTokenTables (symbol :: rest) d)
    with (withTokenTables rest (withTokenTable d symbol)).
  assert (Hsame : withTokenTable d symbol = d).
  { unfold withTokenTable. rewrite Htbl. destruct d; reflexivity. }
  rewrite Hsame. exact IH.
Qed.

End SchemaFacts.

Section SchemaTheorems.

(** X3. [initializeDatabase] never drops or changes what is stored, whether
    it returns or throws: the aggregate table and every per-token table that
    existed keep their rows, and a table that it adds is empty and, for a
    per-token table, named after one of the symbols it was given. *)
Theorem initializeDatabase_preserves faults now latestFile d :
  (market (initializeDatabase faults now latestFile d).2 = market d
   \/ market d = None
      /\ market (initializeDatabase faults now latestFile d).2 = Some ∅)
  /\ forall n,
       tokenTables (initializeDatabase faults now latestFile d).2 !! n
       = tokenTables d !! n
       \/ tokenTables d !! n = None
          /\ tokenTables (initializeDatabase faults now latestFile d).2 !! n
             = Some ∅
          /\ exists symbol,
               symbol ∈ symbolsOf latestFile /\ n = tableName symbol.
Proof.
  destruct (initializeDatabase_cases faults now latestFile d)
    as [[_ ->]|(_ & j & _ & -> & _)]; cbn [snd]; [auto|].
  split.
  - destruct (withTokenTables_lookup (take j (symbolsOf latestFile))
                (withMarketTable d) "") as [-> _].
    cbn [withMarketTable market]. destruct (market d); cbn; auto.
  - intros n.
    destruct (withTokenTables_lookup (take j (symbolsOf latestFile))
                (withMarketTable d) n)
      as [_ [Heq|(Hnone & Hnew & symbol & Hin & ->)]]; [left; exact Heq|right].
    split; [exact Hnone|]. split; [exact Hnew|].
    exists symbol. split; [|reflexivity].
    eapply subseteq_take, Hin.
Qed.

(** X4. [initializeDatabase] is idempotent: when no statement fails, a second
    run with the same symbols returns and leaves the database of the
    first. *)
Theorem initializeDatabase_idempotent faults1 faults2 now1 now2 latestFile d :
  (forall i, faults1 i = false) -> (forall i, faults2 i = false) ->
  initializeDatabase faults2 now2 latestFile
    (initializeDatabase faults1 now1 latestFile d).2
  = (inr tt, (initializeDatabase faults1 now1 latestFile d).2).
Proof.
  intros Hnf1 Hnf2.
  destruct (initializeDatabase_cases faults1 now1 latestFile d)
    as [[H0 _]|(_ & j & _ & Hd1 & _ & Hr1)]; [rewrite Hnf1 in H0; discriminate|].
  destruct Hr1 as [[_ ->]|(_ & _ & Hf)]; [|rewrite Hnf1 in Hf; discriminate].
  rewrite take_ge in Hd1 by reflexivity.
  remember (initializeDatabase faults1 now1 latestFile d).2 as d1 eqn:Hd1'.
  clear Hd1'.
  destruct (initializeDatabase_cases faults2 now2 latestFile d1)
    as [[H0 _]|(_ & j & _ & Hd2 & _ & Hr2)]; [rewrite Hnf2 in H0; discriminate|].
  destruct Hr2 as [[Hr2 ->]|(_ & _ & Hf)]; [|rewrite Hnf2 in Hf; discriminate].
  rewrite take_ge in Hd2 by reflexivity.
  assert (Hmarket : withMarketTable d1 = d1).
  { destruct (withTokenTables_lookup (symbolsOf latestFile)
                (withMarketTable d) "") as [Hm _].
    rewrite <- Hd1 in Hm. unfold withMarketTable. rewrite Hm.
    destruct d1 as [m t]. cbn in *. rewrite Hm. reflexivity. }
  rewrite Hmarket, withTokenTables_present in Hd2.
  - destruct (initializeDatabase faults2 now2 latestFile d1) as [r d2].
    cbn [fst snd] in *. congruence.
  - apply Forall_forall. intros symbol Hin. rewrite Hd1.
    apply withTokenTables_created, Hin.
Qed.

(** X5. [initializeDatabase] is not transactional. When its first failing
    statement is the [k]-th one after [CREATE TABLE aave_market_metrics], it
    throws that failure, and the aggregate table and the tables of the
    symbols before the failing one have been created and stay. *)
Theorem initializeDatabase_partial faults now latestFile d k :
  (forall i, (i <= k)%nat -> faults i = false) ->
  faults (S k) = true ->
  (k < length (symbolsOf latestFile))%nat ->
  (initializeDatabase faults now latestFile d).1 = inl (Unavailable (S k))
  /\ is_Some (market (initializeDatabase faults now latestFile d).2)
  /\ (initializeDatabase faults now latestFile d).2
     = withTokenTables (take k (symbolsOf latestFile)) (withMarketTable d)
  /\ forall symbol,
       symbol ∈ take k (symbolsOf latestFile) ->
       is_Some (tokenTables (initializeDatabase faults now latestFile d).2
                  !! tableName symbol).
Proof.
  intros Hbefore Hk Hlen.
  destruct (initializeDatabase_cases faults now latestFile d)
    as [[H0 _]|(_ & j & Hj & Hd & Hnf & Hr)];
    [rewrite Hbefore in H0 by lia; discriminate|].
  assert (Hjk : j = k).
  { destruct Hr as [[_ ->]|(_ & Hlt & Hf)].
    - specialize (Hnf k Hlen). congruence.
    - destruct (Nat.lt_trichotomy j k) as [Hlt'|[->|Hgt]]; [|reflexivity|].
      + rewrite Hbefore in Hf by lia. discriminate.
      + specialize (Hnf k Hgt). congruence. }
  subst j. destruct Hr as [[_ Heq]|(Hr & _)]; [lia|].
  split; [exact Hr|]. rewrite Hd. split; [|split; [reflexivity|]].
  - destruct (withTokenTables_lookup (take k (symbolsOf latestFile))
                (withMarketTable d) "") as [-> _].
    cbn. eauto.
  - intros symbol Hin. apply withTokenTables_created, Hin.
Qed.

End SchemaTheorems.

(** * Table names *)

Section TableNames.

Lemma map_string_length f s : String.length (map_string f s) = String.length s.
Proof. induction s as [|c s IH]; cbn; [reflexivity|]. rewrite IH. reflexivity. Qed.

Lemma map_string_compose f g s :
  map_string f (map_string g s) = map_string (fun c => f (g c)) s.
Proof. induction s as [|c s IH]; cbn; [reflexivity|]. rewrite IH. reflexivity. Qed.

Lemma map_string_ext f g s :
  (forall c, f c = g c) -> map_string f s = map_string g s.
Proof.
  intros Hfg. induction s as [|c s IH]; cbn; [reflexivity|].
  rewrite Hfg, IH. reflexivity.
Qed.

Lemma all_chars_map (p : ascii -> bool) f s :
  (forall c, p (f c) = true) -> all_chars p (map_string f s) = true.
Proof.
  intros Hp. induction s as [|c s IH]; cbn; [reflexivity|].
  rewrite Hp, IH. reflexivity.
Qed.

(** A table name is its prefix followed by the body made from the symbol. *)
Lemma tableName_body symbol :
  tableName symbol
  = "aave_token_"
    +:+ map_string (fun c => if is_a_z_0_9 (toLowerCase_char c)
                             then toLowerCase_char c else "_"%char) symbol.
Proof. unfold tableName. rewrite map_string_compose. reflexivity. Qed.

Lemma toLowerCase_char_upper c :
  toLowerCase_char (toUpperCase_char c) = toLowerCase_char c.
Proof. destruct c as [[] [] [] [] [] [] [] []]; reflexivity. Qed.

Lemma toLowerCase_char_lower c :
  toLowerCase_char (toLowerCase_char c) = toLowerCase_char c.
Proof. destruct c as [[] [] [] [] [] [] [] []]; reflexivity. Qed.

Lemma sanitize_a_z_0_9 c :
  is_a_z_0_9 c = true ->
  (if is_a_z_0_9 (toLowerCase_char c) then toLowerCase_char c else "_"%char) = c.
Proof.
  destruct c as [[] [] [] [] [] [] [] []]; vm_compute; intros H;
    first [reflexivity | discriminate H].
Qed.

Lemma string_app_length (a b : string) :
  String.length (a +:+ b) = (String.length a + String.length b)%nat.
Proof.
  induction a as [|c a IH]; [reflexivity|].
  change (S (String.length (a +:+ b)) = S (String.length a + String.length b)).
  f_equal. exact IH.
Qed.

Lemma string_app_inv_head (p a b : string) : p +:+ a = p +:+ b -> a = b.
Proof.
  induction p as [|c p IH]; [auto|].
  change (String c (p +:+ a) = String c (p +:+ b) -> a = b).
  intros [= H]. auto.
Qed.

Lemma map_string_id_on (p : ascii -> bool) f s :
  (forall c, p c = true -> f c = c) ->
  all_chars p s = true -> map_string f s = s.
Proof.
  intros Hf. induction s as [|c s IH]; cbn; [reflexivity|].
  intros [Hc Hs]%andb_prop. rewrite (Hf c Hc), (IH Hs). reflexivity.
Qed.

(** X6. The table name that is spliced into the SQL text is
    [aave_token_] followed by one character per character of the symbol, and
    it holds no character outside [[a-z0-9_]]: no quote, blank, semicolon or
    upper-case letter of a symbol reaches the statement. *)
Theorem tableName_identifier symbol :
  (exists body,
      tableName symbol = "aave_token_" +:+ body
      /\ String.length body = String.length symbol)
  /\ String.length (tableName symbol) = (11 + String.length symbol)%nat
  /\ all_chars is_identifier_char (tableName symbol) = true.
Proof.
  rewrite tableName_body. split; [|split].
  - eexists. split; [reflexivity|]. apply map_string_length.
  - rewrite string_app_length, map_string_length. reflexivity.
  - change (all_chars is_identifier_char
              (map_string (fun c => if is_a_z_0_9 (toLowerCase_char c)
                                    then toLowerCase_char c else "_"%char)
                 symbol) = true).
    apply all_chars_map. intros c. unfold is_identifier_char.
    destruct (is_a_z_0_9 (toLowerCase_char c)) eqn:Hc; [rewrite Hc|];
      reflexivity.
Qed.

(** X7. Table names do not tell the case of a symbol: the symbol in upper
    case and the symbol in lower case get the table of the symbol itself.
    Symbols made of lower-case letters and digits only get different tables
    when they differ. *)
Theorem tableName_case symbol :
  tableName (toUpperCase symbol) = tableName symbol
  /\ tableName (toLowerCase symbol) = tableName symbol
  /\ forall other,
       all_chars is_a_z_0_9 symbol = true ->
       all_chars is_a_z_0_9 other = true ->
       tableName symbol = tableName other -> symbol = other.
Proof.
  split; [|split].
  - rewrite !tableName_body. f_equal. unfold toUpperCase.
    rewrite map_string_compose. apply map_string_ext. intros c.
    rewrite toLowerCase_char_upper. reflexivity.
  - rewrite !tableName_body. f_equal. unfold toLowerCase.
    rewrite map_string_compose. apply map_string_ext. intros c.
    rewrite toLowerCase_char_lower. reflexivity.
  - intros other Hs Ho. rewrite !tableName_body.
    intros Heq%string_app_inv_head.
    rewrite (map_string_id_on is_a_z_0_9 _ symbol sanitize_a_z_0_9 Hs) in Heq.
    rewrite (map_string_id_on is_a_z_0_9 _ other sanitize_a_z_0_9 Ho) in Heq.
    exact Heq.
Qed.

End TableNames.

(** * Reading the store back *)

Section RecentRows.

Lemma newest_first_trans : Transitive newest_first.
Proof. intros x y z. unfold newest_first. lia. Qed.

Lemma newest_first_total : Total newest_first.
Proof. intros x y. unfold newest_first. lia. Qed.

Lemma newest_first_strict (l : list (Z * MarketRow)) :
  StronglySorted newest_first l -> NoDup l.*1 ->
  StronglySorted (fun x y => y.1 < x.1) l.
Proof.
  induction l as [|x l IH]; intros Hs Hnd; [constructor|].
  apply StronglySorted_cons in Hs as [Hall Hs].
  cbn in Hnd. apply NoDup_cons in Hnd as [Hx Hnd].
  constructor; [apply IH; assumption|].
  apply Forall_forall. intros y Hy.
  rewrite Forall_forall in Hall. specialize (Hall y Hy). unfold newest_first in Hall.
  assert (y.1 <> x.1); [|lia].
  intros Heq. apply Hx. rewrite <- Heq. apply list_elem_of_fmap_2, Hy.
Qed.

(** The rows that the first query returns. *)
Lemma recent_sorted (tbl : gmap Z MarketRow) limit rows :
  rows = take limit (merge_sort newest_first (map_to_list tbl)) ->
  length rows = Nat.min limit (size tbl)
  /\ (forall block row, (block, row) ∈ rows -> tbl !! block = Some row)
  /\ StronglySorted (fun x y => y.1 < x.1) rows
  /\ (forall block row,
        tbl !! block = Some row ->
        (block, row) ∈ rows
        \/ length rows = limit /\ Forall (fun x => block < x.1) rows).
Proof.
  intros ->.
  remember (merge_sort newest_first (map_to_list tbl)) as sorted eqn:Hsorted.
  assert (Hperm : sorted ≡ₚ map_to_list tbl)
    by (rewrite Hsorted; apply merge_sort_Permutation).
  assert (Hss : StronglySorted newest_first sorted).
  { rewrite Hsorted.
    apply (@StronglySorted_merge_sort _ newest_first _ newest_first_trans
             newest_first_total). }
  assert (Hnd : NoDup sorted.*1)
    by (rewrite Hperm; apply NoDup_fst_map_to_list).
  clear Hsorted.
  rewrite <- (take_drop limit sorted) in Hss, Hnd.
  rewrite fmap_app in Hnd. apply NoDup_app in Hnd as (Hnd & Hdisj & _).
  split; [|split; [|split]].
  - rewrite length_take, Hperm, length_map_to_list. reflexivity.
  - intros block row Hin. apply elem_of_map_to_list. rewrite <- Hperm.
    eapply subseteq_take, Hin.
  - apply newest_first_strict; [|exact Hnd].
    eapply StronglySorted_app_1_l, Hss.
  - intros block row Hrow. apply elem_of_map_to_list in Hrow.
    rewrite <- Hperm, <- (take_drop limit sorted) in Hrow.
    apply elem_of_app in Hrow as [Hin|Hin]; [left; exact Hin|right].
    split.
    + apply length_take_le.
      destruct (decide (limit <= length sorted)%nat) as [Hle|Hgt]; [exact Hle|].
      rewrite drop_ge in Hin by lia. inversion Hin.
    + apply Forall_forall. intros x Hx.
      pose proof (StronglySorted_app_1_elem_of _ _ _ _ _ Hss Hx Hin) as Hle.
      unfold newest_first in Hle. cbn in Hle.
      assert (x.1 <> block); [|lia].
      intros Heq. apply (Hdisj x.1); [apply list_elem_of_fmap_2, Hx|].
      rewrite Heq. apply (list_elem_of_fmap_2 fst _ (block, row)), Hin.
Qed.

End RecentRows.

Section RecentRuns.
Variable faults : nat -> bool.

(** A [SELECT] outside a transaction. *)
Lemma select_outside {A} (read : Database -> DbError + A) d k :
  select faults read {| committed := d; txn := None; issued := k |}
  = if faults k
    then (inl (Unavailable k), {| committed := d; txn := None; issued := S k |})
    else (read d, {| committed := d; txn := None; issued := S k |}).
Proof. reflexivity. Qed.

(** What [getRecentMetrics] does first. *)
Lemma getRecentMetrics_first limit d :
  getRecentMetrics faults limit d
  = if faults 0%nat then inl (Unavailable 0)
    else match recentRows limit d with
         | inl e => inl e
         | inr [] => inr ([], [])
         | inr ((latestBlock, row) :: rest) =>
             match (tables ← select faults tokenTableNames;
                    printTokens faults latestBlock tables)
                     {| committed := d; txn := None; issued := 1 |} with
             | (inl e, _) => inl e
             | (inr printed, _) => inr ((latestBlock, row) :: rest, printed)
             end
         end.
Proof.
  unfold getRecentMetrics, try_catch, getRecentMetrics_try, connect.
  unfold mbind at 1. unfold exec_bind at 1. rewrite select_outside.
  destruct (faults 0%nat); [reflexivity|].
  destruct (recentRows limit d) as [e|[|[latestBlock row] rest]];
    [reflexivity|reflexivity|].
  unfold mbind at 1. unfold exec_bind at 1.
  destruct ((tables ← select faults tokenTableNames;
             printTokens faults latestBlock tables) _) as [[e|printed] c'];
    reflexivity.
Qed.

(** The rows returned are those of the first query. *)
Lemma getRecentMetrics_returned limit d rows printed :
  getRecentMetrics faults limit d = inr (rows, printed) ->
  faults 0%nat = false /\ recentRows limit d = inr rows.
Proof.
  rewrite getRecentMetrics_first.
  destruct (faults 0%nat); [discriminate|].
  destruct (recentRows limit d) as [e|[|[latestBlock row] rest]];
    [discriminate|intros [= <- <-]; auto|].
  destruct ((tables ← select faults tokenTableNames;
             printTokens faults latestBlock tables) _) as [[e|printed'] c'];
    [discriminate|].
  intros [= <- <-]. auto.
Qed.

Hypothesis no_faults : forall i, faults i = false.

Lemma printedRows_cons d latestBlock tokenTable rest :
  printedRows d latestBlock (tokenTable :: rest)
  = match tokenRowAt d tokenTable latestBlock with
    | Some tokenData =>
        (tokenSymbol tokenTable, tokenData) :: printedRows d latestBlock rest
    | None => printedRows d latestBlock rest
    end.
Proof.
  unfold printedRows. cbn [omap list_omap].
  destruct (tokenRowAt d tokenTable latestBlock); reflexivity.
Qed.

Lemma printTokens_run d latestBlock tables k :
  Forall (fun tokenTable => is_Some (tokenTables d !! tokenTable)) tables ->
  exists c',
    printTokens faults latestBlock tables
      {| committed := d; txn := None; issued := k |}
    = (inr (printedRows d latestBlock tables), c').
Proof.
  intros Hall. revert k.
  induction Hall as [|tokenTable rest [tbl Htbl] _ IH]; intros k.
  - eexists. reflexivity.
  - destruct (IH (S k)) as (c' & Hrest). exists c'.
    cbn [printTokens]. unfold mbind at 1. unfold exec_bind at 1.
    rewrite select_outside, no_faults. unfold tokenRowOf. rewrite Htbl.
    unfold mbind at 1. unfold exec_bind at 1. rewrite Hrest.
    rewrite printedRows_cons.
    assert (Hrow : tokenRowAt d tokenTable latestBlock = tbl !! latestBlock)
      by (unfold tokenRowAt; rewrite Htbl; reflexivity).
    rewrite Hrow. reflexivity.
Qed.

Lemma like_market_table : like "aave_token_%" "aave_market_metrics" = false.
Proof. vm_compute. reflexivity. Qed.

Lemma listed_tables_exist d :
  Forall (fun tokenTable => is_Some (tokenTables d !! tokenTable))
    (filter (fun n => like "aave_token_%" n = true) (tableNames d)).
Proof.
  apply Forall_forall. intros n Hn.
  apply list_elem_of_filter in Hn as [Hlike Hn].
  unfold tableNames in Hn. apply elem_of_app in Hn as [Hn|Hn].
  - destruct (market d); [|inversion Hn].
    apply list_elem_of_singleton in Hn as ->.
    rewrite like_market_table in Hlike. discriminate.
  - apply list_elem_of_fmap in Hn as ([n' tbl] & -> & Hin).
    apply elem_of_map_to_list in Hin. cbn. eauto.
Qed.

(** Without faults [getRecentMetrics] returns whenever the aggregate table
    exists. *)
Lemma getRecentMetrics_run limit d tbl :
  market d = Some tbl ->
  getRecentMetrics faults limit d
  = inr (take limit (merge_sort newest_first (map_to_list tbl)),
         match take limit (merge_sort newest_first (map_to_list tbl)) with
         | [] => []
         | (latestBlock, _) :: _ =>
             printedRows d latestBlock
               (filter (fun n => like "aave_token_%" n = true) (tableNames d))
         end).
Proof.
  intros Hm. rewrite getRecentMetrics_first, no_faults.
  unfold recentRows. rewrite Hm.
  destruct (take limit _) as [|[latestBlock row] rest]; [reflexivity|].
  unfold mbind at 1. unfold exec_bind at 1.
  rewrite select_outside, no_faults. unfold tokenTableNames.
  destruct (printTokens_run d latestBlock _ 2 (listed_tables_exist d))
    as (c' & ->).
  reflexivity.
Qed.

End RecentRuns.

Section RecentReturned.
Variable faults : nat -> bool.

(** When the loop returns, every query of it has succeeded. *)
Lemma printTokens_returned d latestBlock tables k printed c' :
  printTokens faults latestBlock tables
    {| committed := d; txn := None; issued := k |} = (inr printed, c') ->
  printed = printedRows d latestBlock tables.
Proof.
  revert k printed c'. induction tables as [|tokenTable rest IH];
    intros k printed c'.
  - intros [= <- _]. reflexivity.
  - cbn [printTokens]. unfold mbind at 1. unfold exec_bind at 1.
    rewrite select_outside. destruct (faults k); [discriminate|].
    unfold tokenRowOf.
    destruct (tokenTables d !! tokenTable) as [tbl|] eqn:Htbl; [|discriminate].
    unfold mbind at 1. unfold exec_bind at 1.
    destruct (printTokens faults latestBlock rest _) as [[e|p] c''] eqn:Hrest;
      [discriminate|].
    apply IH in Hrest as ->. intros [= <- _].
    rewrite printedRows_cons.
    assert (Hrow : tokenRowAt d tokenTable latestBlock = tbl !! latestBlock)
      by (unfold tokenRowAt; rewrite Htbl; reflexivity).
    rewrite Hrow. reflexivity.
Qed.

(** The token rows printed are those of the newest block returned. *)
Lemma getRecentMetrics_printed limit d rows printed :
  getRecentMetrics faults limit d = inr (rows, printed) ->
  printed
  = match rows with
    | [] => []
    | (latestBlock, _) :: _ =>
        printedRows d latestBlock
          (filter (fun n => like "aave_token_%" n = true) (tableNames d))
    end.
Proof.
  rewrite getRecentMetrics_first.
  destruct (faults 0%nat); [discriminate|].
  destruct (recentRows limit d) as [e|[|[latestBlock row] rest]];
    [discriminate|intros [= <- <-]; reflexivity|].
  unfold mbind at 1. unfold exec_bind at 1. rewrite select_outside.
  destruct (faults 1%nat); [discriminate|]. unfold tokenTableNames.
  destruct (printTokens faults latestBlock _ _) as [[e|p] c'] eqn:Hloop;
    [discriminate|].
  apply printTokens_returned in Hloop as ->. intros [= <- <-]. reflexivity.
Qed.

End RecentReturned.

Section RecentTheorems.

(** X8. When [getRecentMetrics] returns, its rows are rows of the aggregate
    table, newest block first without repetition, as many as the limit
    allows, and no row left out is newer than a row returned; and every token
    row it prints is the row that a token table holds for the newest block
    returned. *)
Theorem getRecentMetrics_newest faults limit d rows printed :
  getRecentMetrics faults limit d = inr (rows, printed) ->
  exists tbl,
    market d = Some tbl
    /\ length rows = Nat.min limit (size tbl)
    /\ (forall block row, (block, row) ∈ rows -> tbl !! block = Some row)
    /\ StronglySorted (fun x y => y.1 < x.1) rows
    /\ (forall block row,
          tbl !! block = Some row ->
          (block, row) ∈ rows
          \/ length rows = limit /\ Forall (fun x => block < x.1) rows)
    /\ (forall symbol tokenData,
          (symbol, tokenData) ∈ printed ->
          exists latestBlock row rest tokenTable,
            rows = (latestBlock, row) :: rest
            /\ like "aave_token_%" tokenTable = true
            /\ symbol = tokenSymbol tokenTable
            /\ tokenRowAt d tokenTable latestBlock = Some tokenData).
Proof.
  intros Hrun. pose proof (getRecentMetrics_printed _ _ _ _ _ Hrun) as Hprinted.
  apply getRecentMetrics_returned in Hrun as [_ Hrows].
  unfold recentRows in Hrows.
  destruct (market d) as [tbl|]; [|discriminate]. injection Hrows as Hrows.
  exists tbl. split; [reflexivity|].
  destruct (recent_sorted tbl limit rows (eq_sym Hrows))
    as (Hlen & Hin & Hsorted & Htop).
  split; [exact Hlen|]. split; [exact Hin|]. split; [exact Hsorted|].
  split; [exact Htop|].
  intros symbol tokenData Hp. rewrite Hprinted in Hp.
  destruct rows as [|[latestBlock row] rest]; [inversion Hp|].
  unfold printedRows in Hp.
  apply list_elem_of_omap in Hp as (tokenTable & Ht & Hrow).
  apply list_elem_of_filter in Ht as [Hlike _].
  destruct (tokenRowAt d tokenTable latestBlock) as [r|] eqn:Hr;
    [|discriminate].
  cbn in Hrow. injection Hrow as <- <-.
  exists latestBlock, row, rest, tokenTable. auto.
Qed.

(** X9. How [getRecentMetrics] ends without rows. It throws when its first
    query fails, and when the aggregate table does not exist; when that table
    is empty, or the limit is 0, it returns no rows, prints no token and sends
    no further query, so that no later failure can reach it. *)
Theorem getRecentMetrics_no_rows faults limit d :
  (faults 0%nat = true ->
   getRecentMetrics faults limit d = inl (Unavailable 0))
  /\ (faults 0%nat = false -> market d = None ->
      getRecentMetrics faults limit d
      = inl (UndefinedTable "aave_market_metrics"))
  /\ (faults 0%nat = false ->
      market d = Some ∅ \/ is_Some (market d) /\ limit = 0%nat ->
      getRecentMetrics faults limit d = inr ([], [])).
Proof.
  rewrite getRecentMetrics_first. unfold recentRows.
  split; [|split].
  - intros ->. reflexivity.
  - intros -> ->. reflexivity.
  - intros -> [->|[[tbl ->] ->]].
    + rewrite map_to_list_empty. destruct limit; reflexivity.
    + reflexivity.
Qed.

End RecentTheorems.

Section PrintedSymbols.

Lemma starts_with_app (p s : string) : starts_with p (p +:+ s) = Some s.
Proof.
  induction p as [|c p IH]; [destruct s; reflexivity|].
  change (starts_with (String c p) (String c (p +:+ s)) = Some s).
  cbn [starts_with]. rewrite Ascii.eqb_refl. exact IH.
Qed.

Lemma replace_first_unfold (p r s : string) :
  replace_first p r s
  = match starts_with p s with
    | Some rest => r +:+ rest
    | None =>
        match s with
        | EmptyString => EmptyString
        | String c s' => String c (replace_first p r s')
        end
    end.
Proof. destruct s; reflexivity. Qed.

Lemma replace_first_prefix (p r s : string) :
  replace_first p r (p +:+ s) = r +:+ s.
Proof. rewrite replace_first_unfold, starts_with_app. reflexivity. Qed.

Lemma like_any (s : string) : like "%" s = true.
Proof.
  induction s as [|c s IH]; [reflexivity|].
  change (like "" (String c s) || like "%" s = true).
  rewrite IH. apply orb_true_r.
Qed.

Lemma like_literal (p rest s : string) :
  all_chars (fun c => negb (Ascii.eqb c "%")) p = true ->
  like (p +:+ rest) (p +:+ s) = like rest s.
Proof.
  induction p as [|c p IH]; [reflexivity|].
  cbn [all_chars]. intros [Hc%negb_true_iff Hp]%andb_prop.
  change (like (String c (p +:+ rest)) (String c (p +:+ s)) = like rest s).
  cbn [like]. rewrite Hc.
  destruct (Ascii.eqb c "_"); [|rewrite Ascii.eqb_refl]; apply IH, Hp.
Qed.

Lemma like_tableName symbol : like "aave_token_%" (tableName symbol) = true.
Proof.
  unfold tableName.
  change "aave_token_%" with ("aave_token_" +:+ "%").
  rewrite like_literal by reflexivity.
  apply like_any.
Qed.

Lemma printed_char c :
  Ascii.eqb
    (toUpperCase_char
       (if is_a_z_0_9 (toLowerCase_char c) then toLowerCase_char c else "_"%char))
    c
  = is_A_Z_0_9 c || Ascii.eqb c "_".
Proof. destruct c as [[] [] [] [] [] [] [] []]; vm_compute; reflexivity. Qed.

Lemma map_string_fixed f s :
  map_string f s = s <-> all_chars (fun c => Ascii.eqb (f c) c) s = true.
Proof.
  induction s as [|c s IH]; cbn; [tauto|].
  rewrite andb_true_iff, <- IH, Ascii.eqb_eq. split.
  - intros [= Hc Hs]. auto.
  - intros [-> ->]. reflexivity.
Qed.

Lemma all_chars_ext (p q : ascii -> bool) s :
  (forall c, p c = q c) -> all_chars p s = all_chars q s.
Proof.
  intros Hpq. induction s as [|c s IH]; cbn; [reflexivity|].
  rewrite Hpq, IH. reflexivity.
Qed.

(** What [getRecentMetrics] prints for the table of a symbol. *)
Lemma tokenSymbol_body symbol :
  tokenSymbol (tableName symbol)
  = map_string
      (fun c => toUpperCase_char
                  (if is_a_z_0_9 (toLowerCase_char c)
                   then toLowerCase_char c else "_"%char))
      symbol.
Proof.
  unfold tokenSymbol. rewrite tableName_body, replace_first_prefix.
  change ("" +:+ ?s) with s. unfold toUpperCase. apply map_string_compose.
Qed.

(** X11. The table of every symbol matches the pattern with which
    [getRecentMetrics] lists the token tables, and the symbol printed for it
    has the length of the symbol stored there; it is that symbol exactly when
    the symbol is made of upper-case letters, digits and underscores only. *)
Theorem tokenSymbol_tableName symbol :
  like "aave_token_%" (tableName symbol) = true
  /\ String.length (tokenSymbol (tableName symbol)) = String.length symbol
  /\ (tokenSymbol (tableName symbol) = symbol
      <-> all_chars (fun c => is_A_Z_0_9 c || Ascii.eqb c "_") symbol = true).
Proof.
  split; [apply like_tableName|]. rewrite tokenSymbol_body.
  split; [apply map_string_length|].
  rewrite map_string_fixed.
  rewrite (all_chars_ext _ (fun c => is_A_Z_0_9 c || Ascii.eqb c "_"));
    [tauto|].
  apply printed_char.
Qed.

End PrintedSymbols.

Section RoundTrip.

(** X10. What [storeMetrics] has stored is what [getRecentMetrics] shows
    next, as the columns hold it. After a call that returns for a block that
    is not older than the blocks of the aggregate table, a
    [getRecentMetrics] with a limit of at least 1 whose queries do not fail
    returns the row of that block first. In that row the columns of the SET
    list hold the snapshot's values as their types store them, a number
    rounded to the scale of its [NUMERIC] column: 18 decimals for the two
    totals, 4 for the average utilization. And for the last token stored in
    each table it prints the row that holds that token's values in the same
    way, the caps as they were sent. *)
Theorem stored_is_most_recent faults now metricsData d d' reading limit :
  storeMetrics faults now metricsData d = (inr tt, d') ->
  (forall block row,
     marketRowAt d block = Some row -> block <= blockNumber metricsData) ->
  (forall i, reading i = false) ->
  exists row rest printed,
    getRecentMetrics reading (S limit) d'
    = inr ((blockNumber metricsData, row) :: rest, printed)
    /\ m_timestamp (m_values row) = timestamp metricsData
    /\ m_total_market_size (m_values row)
       = Pg.numeric 18 (totalMarketSize metricsData)
    /\ m_total_borrows (m_values row) = Pg.numeric 18 (totalBorrows metricsData)
    /\ m_average_utilization (m_values row)
       = Pg.numeric 4 (averageUtilization metricsData)
    /\ m_token_count (m_values row) = tokenCount metricsData
    /\ forall earlier token later,
         tokenMetrics metricsData = earlier ++ token :: later ->
         last_writer token later ->
         exists tokenData,
           (tokenSymbol (tableName (tm_symbol token)), tokenData) ∈ printed
           /\ t_timestamp (t_values tokenData) = timestamp metricsData
           /\ t_price_usd (t_values tokenData)
              = Pg.numeric 18 (tm_priceInUSD token)
           /\ t_total_supplied (t_values tokenData)
              = Pg.numeric 18 (tm_totalSupplied token)
           /\ t_total_supplied_usd (t_values tokenData)
              = Pg.numeric 18 (tm_totalSuppliedUSD token)
           /\ t_total_borrowed (t_values tokenData)
              = Pg.numeric 18 (tm_totalBorrowed token)
           /\ t_total_borrowed_usd (t_values tokenData)
              = Pg.numeric 18 (tm_totalBorrowedUSD token)
           /\ t_utilization_rate (t_values tokenData)
              = Pg.numeric 4 (tm_utilizationRate token)
           /\ t_supply_apy (t_values tokenData)
              = Pg.numeric 4 (tm_supplyAPY token)
           /\ t_borrow_apy (t_values tokenData)
              = Pg.numeric 4 (tm_variableBorrowAPY token)
           /\ t_reserve_factor (t_values tokenData)
              = Pg.numeric 4 (tm_reserveFactor token)
           /\ t_liquidation_threshold (t_values tokenData)
              = Pg.numeric 4 (tm_liquidationThreshold token)
           /\ t_borrow_enabled (t_values tokenData) = tm_borrowEnabled token
           /\ t_supply_cap (t_values tokenData)
              = Pg.numeric 18 <$> capParameter (tm_supplyCap token)
           /\ t_borrow_cap (t_values tokenData)
              = Pg.numeric 18 <$> capParameter (tm_borrowCap token).
Proof.
  intros Hrun Hnewest Hnf. apply storeMetrics_ok in Hrun.
  pose proof (upserts_written _ _ _ _ Hrun) as (_ & _ & Hwt).
  apply upserts_applied in Hrun as ((tbl & Hm & Hm') & _ & _).
  rewrite (getRecentMetrics_run reading Hnf (S limit) d' _ Hm').
  remember (upsert_market now (blockNumber metricsData)
              (marketValuesOf metricsData) tbl) as tbl' eqn:Htbl'.
  remember (take (S limit) (merge_sort newest_first (map_to_list tbl')))
    as rows eqn:Hrows.
  destruct (recent_sorted tbl' (S limit) rows Hrows)
    as (_ & Hin & Hsorted & Htop).
  set (row0 := upsert_market_row now (marketValuesOf metricsData)
                 (tbl !! blockNumber metricsData)).
  assert (Hrow0 : tbl' !! blockNumber metricsData = Some row0)
    by (rewrite Htbl'; apply lookup_insert_eq).
  assert (Hbound : forall block row,
             tbl' !! block = Some row -> block <= blockNumber metricsData).
  { intros block row. rewrite Htbl'. unfold upsert_market.
    intros [[<- _]|[_ Hold]]%lookup_insert_Some; [lia|].
    apply (Hnewest block row). unfold marketRowAt. rewrite Hm. exact Hold. }
  destruct rows as [|[b1 r1] rest].
  { destruct (Htop _ _ Hrow0) as [Hnil|[Hlen _]]; [inversion Hnil|].
    discriminate Hlen. }
  assert (Hb1 : b1 <= blockNumber metricsData)
    by (apply (Hbound b1 r1), Hin, list_elem_of_here).
  apply StronglySorted_cons in Hsorted as [Hbelow _].
  assert (Hhead : (b1, r1) = (blockNumber metricsData, row0)).
  { destruct (Htop _ _ Hrow0) as [Hmem|[_ Habove]].
    - apply elem_of_cons in Hmem as [Heq|Hmem]; [congruence|].
      rewrite Forall_forall in Hbelow. specialize (Hbelow _ Hmem).
      cbn in Hbelow. lia.
    - apply Forall_cons in Habove as [Habove _]. cbn in Habove. lia. }
  injection Hhead as -> ->.
  eexists row0, rest, _. split; [reflexivity|].
  pose proof (market_on_conflict_upsert now (marketValuesOf metricsData)
                (tbl !! blockNumber metricsData)) as Hmfix.
  fold row0 in Hmfix.
  apply market_on_conflict_fixed in Hmfix as (Ht & Hs & Hb & Hu & Hc).
  cbn [marketValuesOf m_timestamp m_total_market_size m_total_borrows
       m_average_utilization m_token_count] in Ht, Hs, Hb, Hu, Hc.
  repeat (split; [assumption|]).
  intros earlier token later Htokens Hlast.
  destruct (Hwt earlier token later Htokens Hlast)
    as (ttbl & tokenData & Httbl & Hdata & Hvalues).
  exists tokenData. split.
  - unfold printedRows. apply list_elem_of_omap.
    exists (tableName (tm_symbol token)). split.
    + apply list_elem_of_filter. split; [apply like_tableName|].
      unfold tableNames. apply elem_of_app. right.
      apply (list_elem_of_fmap_2 fst _ (tableName (tm_symbol token), ttbl)).
      apply elem_of_map_to_list, Httbl.
    + unfold tokenRowAt. rewrite Httbl. cbn. rewrite Hdata. reflexivity.
  - apply token_on_conflict_fixed in Hvalues
      as (H1 & H2 & H3 & H4 & H5 & H6 & H7 & H8 & H9 & H10 & H11 & H12 & H13 & H14).
    cbn [tokenValuesOf t_timestamp t_price_usd t_total_supplied
         t_total_supplied_usd t_total_borrowed t_total_borrowed_usd
         t_utilization_rate t_supply_apy t_borrow_apy t_reserve_factor
         t_liquidation_threshold t_borrow_enabled t_supply_cap t_borrow_cap]
      in H1, H2, H3, H4, H5, H6, H7, H8, H9, H10, H11, H12, H13, H14.
    repeat (split; [assumption|]). assumption.
Qed.

End RoundTrip.

(** * Further properties of the ingestion and of the poller *)

Section IngestionFacts.
Context {rt : JsRuntime} {aave : AaveLibrary}.

(** The two ways in which a call of [indexBaseAaveMetrics] ends. *)
Lemma indexBaseAaveMetrics_cases w blockNumber storeInDb d :
  (exists e, indexBaseAaveMetrics w blockNumber storeInDb d = (inl e, d))
  \/ exists currentBlock raw,
       (blockNumber = Some currentBlock /\ currentBlock <> 0
        \/ (blockNumber = None \/ blockNumber = Some 0)
           /\ w_head w = Some currentBlock)
       /\ w_market w = Some raw
       /\ (storeInDb = false
           /\ indexBaseAaveMetrics w blockNumber storeInDb d
              = (inr (liveSnapshot currentBlock (w_clock w) raw), d)
           \/ storeInDb = true
              /\ exists d',
                   storeMetrics (w_db_faults w) (w_db_clock w)
                     (liveSnapshot currentBlock (w_clock w) raw) d
                   = (inr tt, d')
                   /\ indexBaseAaveMetrics w blockNumber storeInDb d
                      = (inr (liveSnapshot currentBlock (w_clock w) raw), d')).
Proof.
  unfold indexBaseAaveMetrics.
  destruct (match match blockNumber with
                  | Some n => if n =? 0 then None else Some n
                  | None => None
                  end with
            | Some n => Some n
            | None => w_head w
            end) as [currentBlock|] eqn:Hblock; [|left; eauto].
  destruct (negb (w_reservesList w)); [left; eauto|].
  destruct (w_market w) as [raw|]; [|left; eauto].
  destruct (negb (w_files w)); [left; eauto|].
  assert (Hrequested :
            blockNumber = Some currentBlock /\ currentBlock <> 0
            \/ (blockNumber = None \/ blockNumber = Some 0)
               /\ w_head w = Some currentBlock).
  { destruct blockNumber as [n|]; [|auto].
    destruct (Z.eqb_spec n 0) as [->|Hn]; [auto|].
    injection Hblock as <-. auto. }
  destruct storeInDb.
  - destruct (storeMetrics_cases (w_db_faults w) (w_db_clock w)
                (liveSnapshot currentBlock (w_clock w) raw) d)
      as [(d' & Hrun & _) | (e & Hrun)]; rewrite Hrun; [right|left; eauto].
    exists currentBlock, raw. split; [exact Hrequested|].
    split; [reflexivity|]. right. eauto.
  - right. exists currentBlock, raw. split; [exact Hrequested|].
    split; [reflexivity|]. left. auto.
Qed.

(** A call for a block leaves the rows of every other block. *)
Lemma indexBaseAaveMetrics_elsewhere w block storeInDb d k :
  block <> 0 -> k <> block ->
  marketRowAt (indexBaseAaveMetrics w (Some block) storeInDb d).2 k
  = marketRowAt d k
  /\ forall n,
       tokenRowAt (indexBaseAaveMetrics w (Some block) storeInDb d).2 n k
       = tokenRowAt d n k.
Proof.
  intros Hblock Hk.
  destruct (indexBaseAaveMetrics_cases w (Some block) storeInDb d)
    as [(e & ->)|(currentBlock & raw & Hreq & _ & Hrun)]; [auto|].
  assert (currentBlock = block) as ->.
  { destruct Hreq as [[[= ->] _]|[[[=]|[= ->]] _]]; [reflexivity|contradiction]. }
  destruct Hrun as [[_ ->]|(_ & d' & Hstore & ->)]; [auto|]. cbn [snd].
  destruct (storeMetrics_elsewhere (w_db_faults w) (w_db_clock w)
              (liveSnapshot block (w_clock w) raw) d) as (Hm & Ht & _).
  rewrite Hstore in Hm, Ht. cbn [snd] in Hm, Ht.
  split; [apply Hm; exact Hk|]. intros n. apply Ht. exact Hk.
Qed.

(** X12. What [indexBaseAaveMetrics] does to the database and which block it
    reports. A block number 0 is taken for no block number, so the head is
    indexed instead. A call that does not store, and a call that throws,
    leave the database as it was. A call that returns reports the block that
    was asked for, or the head when none was, with the reading of the clock
    as its timestamp, also for a block of the past; when it stores, the rows
    of the snapshot are written. *)
Theorem indexBaseAaveMetrics_effect w requested storeInDb d :
  indexBaseAaveMetrics w (Some 0) storeInDb d
  = indexBaseAaveMetrics w None storeInDb d
  /\ (storeInDb = false ->
      (indexBaseAaveMetrics w requested storeInDb d).2 = d)
  /\ (forall e d',
        indexBaseAaveMetrics w requested storeInDb d = (inl e, d') -> d' = d)
  /\ (forall s d',
        indexBaseAaveMetrics w requested storeInDb d = (inr s, d') ->
        (requested = Some (blockNumber s) /\ blockNumber s <> 0
         \/ (requested = None \/ requested = Some 0)
            /\ w_head w = Some (blockNumber s))
        /\ timestamp s = w_clock w
        /\ (storeInDb = true -> written s d')).
Proof.
  split; [reflexivity|].
  destruct (indexBaseAaveMetrics_cases w requested storeInDb d)
    as [(e & ->)|(currentBlock & raw & Hreq & _ & Hrun)].
  { split; [reflexivity|]. split; [intros ? ? [= _ <-]; reflexivity|].
    intros ? ? [=]. }
  destruct Hrun as [[-> ->]|(-> & d1 & Hstore & ->)].
  - split; [reflexivity|]. split; [intros ? ? [=]|].
    intros s d' [= <- <-]. split; [exact Hreq|]. split; [reflexivity|].
    intros [=].
  - split; [intros [=]|]. split; [intros ? ? [=]|].
    intros s d' [= <- <-]. split; [exact Hreq|]. split; [reflexivity|].
    intros _. eapply upserts_written, storeMetrics_ok, Hstore.
Qed.

End IngestionFacts.

Section PollerSchedules.
Context {rt : JsRuntime} {aave : AaveLibrary}.

Lemma poll_run_snoc p evs ev :
  poll_run p (evs ++ [ev]) = poll_step (poll_run p evs) ev.
Proof. unfold poll_run. rewrite fold_left_app. reflexivity. Qed.

Lemma heads_snoc evs ev :
  heads (evs ++ [ev])
  = heads evs ++ match ev with Observe (Some head) => [head] | _ => [] end.
Proof.
  unfold heads. rewrite omap_app. f_equal.
  destruct ev as [[head|]|i w]; reflexivity.
Qed.

(** Where the cursor and the runs in flight come from. *)
Lemma poll_run_heads currentBlock d evs :
  (lastProcessedBlock (poll_run (poller_start currentBlock d) evs) = currentBlock
   \/ currentBlock < lastProcessedBlock (poll_run (poller_start currentBlock d) evs)
      /\ lastProcessedBlock (poll_run (poller_start currentBlock d) evs)
         ∈ heads evs)
  /\ Forall (fun block => currentBlock < block /\ block ∈ heads evs)
       (inFlight (poll_run (poller_start currentBlock d) evs)).
Proof.
  induction evs as [|ev evs IH] using rev_ind; [cbn; auto|].
  rewrite poll_run_snoc, heads_snoc.
  remember (poll_run (poller_start currentBlock d) evs) as p eqn:Hp. clear Hp.
  destruct IH as [Hlast Hall].
  assert (Hall' : Forall (fun block =>
                            currentBlock < block
                            /\ block ∈ heads evs
                                 ++ match ev with
                                    | Observe (Some head) => [head]
                                    | _ => []
                                    end) (inFlight p)).
  { eapply Forall_impl; [exact Hall|]. cbn. intros block [Hlt Hin].
    split; [exact Hlt|]. apply elem_of_app. auto. }
  assert (Hlast' : lastProcessedBlock p = currentBlock
                   \/ currentBlock < lastProcessedBlock p
                      /\ lastProcessedBlock p
                         ∈ heads evs
                             ++ match ev with
                                | Observe (Some head) => [head]
                                | _ => []
                                end).
  { destruct Hlast as [Heq|[Hlt Hin]]; [auto|right].
    split; [exact Hlt|]. apply elem_of_app. auto. }
  destruct ev as [[head|]|i w]; cbn [poll_step].
  - destruct (Z.leb_spec head (lastProcessedBlock p)); [auto|].
    cbn [lastProcessedBlock inFlight]. split; [exact Hlast'|].
    apply Forall_app. split; [exact Hall'|]. apply Forall_singleton.
    split; [destruct Hlast as [Heq|[Hlt _]]; lia|].
    apply elem_of_app. right. apply list_elem_of_here.
  - auto.
  - destruct (inFlight p !! i) as [block|] eqn:Hi; [|auto].
    pose proof (Forall_lookup_1 _ _ _ _ Hall' Hi) as Hblock. cbn in Hblock.
    destruct (indexBaseAaveMetrics w (Some block) true (storage p))
      as [[e|s] d']; cbn [lastProcessedBlock inFlight];
      (split; [|apply Forall_delete, Hall']); [exact Hlast'|right; exact Hblock].
Qed.

(** X13. In every schedule, also when runs overlap, the cursor is the block at
    which polling started or a head that a run has read beyond it: it never
    falls below the start; and every run in flight is for such a head. *)
Theorem cursor_among_heads currentBlock d evs :
  currentBlock <= lastProcessedBlock (poll_run (poller_start currentBlock d) evs)
  /\ (lastProcessedBlock (poll_run (poller_start currentBlock d) evs)
      = currentBlock
      \/ lastProcessedBlock (poll_run (poller_start currentBlock d) evs)
         ∈ heads evs)
  /\ Forall (fun block => currentBlock < block /\ block ∈ heads evs)
       (inFlight (poll_run (poller_start currentBlock d) evs)).
Proof.
  destruct (poll_run_heads currentBlock d evs) as [Hlast Hall].
  split; [destruct Hlast as [->|[Hlt _]]; lia|].
  split; [destruct Hlast as [Heq|[_ Hin]]; auto|exact Hall].
Qed.

(** X14. The poller stores the heads that its runs have read and no other
    block: whatever the schedule, a block that no run has read as the head
    has, in the aggregate table and in every token table, the row that it had
    when polling started. The blocks between two polls are never filled in. *)
Theorem poller_stores_heads_only currentBlock d evs k :
  0 <= currentBlock ->
  k ∉ heads evs ->
  marketRowAt (storage (poll_run (poller_start currentBlock d) evs)) k
  = marketRowAt d k
  /\ forall n,
       tokenRowAt (storage (poll_run (poller_start currentBlock d) evs)) n k
       = tokenRowAt d n k.
Proof.
  intros Hstart. induction evs as [|ev evs IH] using rev_ind; [cbn; auto|].
  rewrite poll_run_snoc, heads_snoc. intros Hk.
  apply not_elem_of_app in Hk as [Hk Hev]. specialize (IH Hk).
  destruct (poll_run_heads currentBlock d evs) as [_ Hall].
  remember (poll_run (poller_start currentBlock d) evs) as p eqn:Hp. clear Hp.
  destruct ev as [[head|]|i w]; cbn [poll_step].
  - destruct (head <=? lastProcessedBlock p); exact IH.
  - exact IH.
  - destruct (inFlight p !! i) as [block|] eqn:Hi; [|exact IH].
    pose proof (Forall_lookup_1 _ _ _ _ Hall Hi) as [Hlt Hin]. cbn in Hlt, Hin.
    assert (Hne : k <> block) by (intros ->; contradiction).
    destruct (indexBaseAaveMetrics_elsewhere w block true (storage p) k)
      as [Hm Ht]; [lia|exact Hne|].
    destruct IH as [IHm IHt].
    destruct (indexBaseAaveMetrics w (Some block) true (storage p))
      as [[e|s] d']; cbn [storage snd] in *;
      (split; [congruence|intros n; rewrite Ht; apply IHt]).
Qed.

(** A run for a snapshot with a reserve whose table does not exist fails and
    leaves the database. *)
Lemma indexBaseAaveMetrics_missing_table w requested d sym :
  tokenTables d !! tableName sym = None ->
  match listedSymbols w with Some symbols => sym ∈ symbols | None => True end ->
  exists e, indexBaseAaveMetrics w requested true d = (inl e, d).
Proof.
  intros Hmissing Hlisted.
  destruct (indexBaseAaveMetrics_cases w requested true d)
    as [Hthrown|(currentBlock & raw & _ & Hraw & Hrun)]; [exact Hthrown|].
  exfalso. destruct Hrun as [[[=] _]|(_ & d' & Hstore & _)].
  apply storeMetrics_ok, upserts_applied in Hstore as (_ & Hall & _).
  unfold listedSymbols in Hlisted. rewrite Hraw in Hlisted. cbn in Hlisted.
  apply list_elem_of_fmap in Hlisted as (reserve & -> & Hin).
  rewrite Forall_forall in Hall.
  destruct (Hall (liveTokenMetric (baseCurrencyData raw) reserve)) as [tbl Htbl].
  - unfold liveSnapshot, snapshotOf. cbn [tokenMetrics].
    apply list_elem_of_fmap_2, Hin.
  - cbn in Htbl. congruence.
Qed.

(** X15. The poller stalls once the market lists a reserve for which
    [initializeDatabase] has made no table. While the chain reports a reserve
    whose table does not exist, every run fails, whatever the schedule: the
    cursor stays at the block at which polling started and the database is
    never written. *)
Theorem poller_stalls_without_table currentBlock d sym evs :
  tokenTables d !! tableName sym = None ->
  listedThroughout sym evs ->
  lastProcessedBlock (poll_run (poller_start currentBlock d) evs) = currentBlock
  /\ storage (poll_run (poller_start currentBlock d) evs) = d.
Proof.
  intros Hmissing. induction evs as [|ev evs IH] using rev_ind; [cbn; auto|].
  unfold listedThroughout. intros Hall.
  apply Forall_app in Hall as [Hevs Hev]. rewrite Forall_singleton in Hev.
  rewrite poll_run_snoc. destruct (IH Hevs) as [Hlast Hstorage].
  remember (poll_run (poller_start currentBlock d) evs) as p eqn:Hp. clear Hp.
  destruct ev as [[head|]|i w]; cbn [poll_step].
  - destruct (head <=? lastProcessedBlock p); auto.
  - auto.
  - destruct (inFlight p !! i) as [block|]; [|auto].
    rewrite Hstorage.
    destruct (indexBaseAaveMetrics_missing_table w (Some block) d sym
                Hmissing Hev) as (e & ->).
    auto.
Qed.

Lemma sequential_app p evs1 evs2 :
  sequential p (evs1 ++ evs2)
  = sequential p evs1 && sequential (poll_run p evs1) evs2.
Proof.
  revert p. induction evs1 as [|ev evs1 IH]; intros p; [reflexivity|].
  cbn [app sequential poll_run fold_left].
  destruct ev as [head|i w]; [destruct (inFlight p); [|reflexivity]|]; apply IH.
Qed.

Lemma one_run_run evs p :
  one_run p -> sequential p evs = true -> one_run (poll_run p evs).
Proof.
  revert p. induction evs as [|ev evs IH]; intros p Hone Hseq; [exact Hone|].
  cbn [sequential] in Hseq. cbn [poll_run fold_left].
  assert (Hev : match ev, inFlight p with
                | Observe _, _ :: _ => False
                | _, _ => True
                end).
  { destruct ev; [|exact I]. destruct (inFlight p); [exact I|discriminate]. }
  assert (Hrest : sequential (poll_step p ev) evs = true).
  { destruct ev; [|exact Hseq]. destruct (inFlight p); [exact Hseq|discriminate]. }
  destruct (poll_step_sequential p ev Hone Hev) as [Hone' _].
  apply IH; assumption.
Qed.

(** X22. While runs do not overlap the cursor only moves forward: in a
    schedule in which every run finishes before the next one starts, the
    cursor after any number of its events is at most the cursor at its end,
    whether the runs succeed or fail. *)
Theorem cursor_monotone_sequential currentBlock d evs n :
  sequential (poller_start currentBlock d) evs = true ->
  lastProcessedBlock (poll_run (poller_start currentBlock d) (take n evs))
  <= lastProcessedBlock (poll_run (poller_start currentBlock d) evs).
Proof.
  intros Hseq. rewrite <- (take_drop n evs) in Hseq.
  rewrite sequential_app in Hseq. apply andb_prop in Hseq as [Hseq1 Hseq2].
  assert (Hone : one_run (poller_start currentBlock d)) by (left; reflexivity).
  pose proof (one_run_run _ _ Hone Hseq1) as Hone'.
  pose proof (sequential_monotone _ _ Hone' Hseq2) as Hle.
  unfold poll_run in *. rewrite <- fold_left_app, take_drop in Hle. exact Hle.
Qed.

End PollerSchedules.

(** * The comparison of two blocks *)

Section Sets.

Lemma Set_add_spec set x :
  NoDup set ->
  NoDup (Set_add set x)
  /\ (forall y, y ∈ Set_add set x <-> y ∈ set \/ y = x)
  /\ exists more, Set_add set x = set ++ more /\ (forall y, y ∈ more -> y ∉ set).
Proof.
  intros Hnd. unfold Set_add. destruct (bool_decide_reflect (x ∈ set)) as [Hin|Hout].
  - split; [exact Hnd|]. split.
    + intros y. split; [auto|]. intros [Hy| ->]; assumption.
    + exists []. rewrite app_nil_r. split; [reflexivity|]. intros y Hy. inversion Hy.
  - split; [|split].
    + apply NoDup_app. split; [exact Hnd|]. split; [|apply NoDup_singleton].
      intros y Hy ->%list_elem_of_singleton. contradiction.
    + intros y. rewrite elem_of_app, list_elem_of_singleton. tauto.
    + exists [x]. split; [reflexivity|].
      intros y ->%list_elem_of_singleton. exact Hout.
Qed.

(** Adding items to a set keeps what was in it in place, adds each new item
    once, and puts the new items behind. *)
Lemma fold_Set_add items set :
  NoDup set ->
  NoDup (fold_left Set_add items set)
  /\ (forall y, y ∈ fold_left Set_add items set <-> y ∈ set \/ y ∈ items)
  /\ exists more,
       fold_left Set_add items set = set ++ more
       /\ (forall y, y ∈ more -> y ∉ set).
Proof.
  revert set. induction items as [|x items IH]; intros set Hnd; cbn [fold_left].
  - split; [exact Hnd|]. split.
    + intros y. rewrite elem_of_nil. tauto.
    + exists []. rewrite app_nil_r. split; [reflexivity|]. intros y Hy. inversion Hy.
  - destruct (Set_add_spec set x Hnd) as (Hnd1 & Hin1 & more1 & Heq1 & Hnew1).
    destruct (IH _ Hnd1) as (Hnd2 & Hin2 & more2 & Heq2 & Hnew2).
    split; [exact Hnd2|]. split.
    + intros y. rewrite Hin2, Hin1, elem_of_cons. tauto.
    + exists (more1 ++ more2). rewrite Heq2, Heq1, app_assoc.
      split; [reflexivity|]. intros y [Hy|Hy]%elem_of_app; [auto|].
      intros Hset. apply (Hnew2 y Hy). apply Hin1. auto.
Qed.

End Sets.

Section Finding.

Lemma findToken_None tokens sym :
  findToken tokens sym = None <-> sym ∉ map tm_symbol tokens.
Proof.
  unfold findToken. induction tokens as [|t tokens IH]; cbn [find map].
  - split; [intros _ Hin; inversion Hin|reflexivity].
  - rewrite not_elem_of_cons.
    destruct (String.eqb_spec (tm_symbol t) sym) as [Heq|Hne].
    + split; [discriminate|]. intros [Hne _]. congruence.
    + rewrite IH. split; [intros Hout; split; [congruence|exact Hout]|tauto].
Qed.

Lemma findToken_Some tokens sym t :
  findToken tokens sym = Some t <-> first_with sym tokens t.
Proof.
  unfold findToken, first_with. split.
  - induction tokens as [|t0 tokens IH]; cbn [find]; [discriminate|].
    destruct (String.eqb_spec (tm_symbol t0) sym) as [Heq|Hne].
    + intros [= <-]. exists [], tokens. split; [reflexivity|].
      split; [exact Heq|]. intros Hin. inversion Hin.
    + intros Hfind. destruct (IH Hfind) as (earlier & later & -> & Hsym & Hout).
      exists (t0 :: earlier), later. split; [reflexivity|].
      split; [exact Hsym|]. cbn. apply not_elem_of_cons. split; [congruence|exact Hout].
  - intros (earlier & later & -> & Hsym & Hout).
    induction earlier as [|t0 earlier IH]; cbn [find app].
    + rewrite Hsym, String.eqb_refl. reflexivity.
    + cbn in Hout. apply not_elem_of_cons in Hout as [Hne Hout].
      destruct (String.eqb_spec (tm_symbol t0) sym) as [Heq|_]; [congruence|].
      apply IH, Hout.
Qed.

End Finding.

Section Reports.

Lemma allTokens_spec startMetrics endMetrics :
  NoDup (allTokens startMetrics endMetrics)
  /\ (forall sym,
        sym ∈ allTokens startMetrics endMetrics
        <-> sym ∈ map tm_symbol (tokenMetrics startMetrics)
            \/ sym ∈ map tm_symbol (tokenMetrics endMetrics))
  /\ exists added,
       allTokens startMetrics endMetrics
       = new_Set (map tm_symbol (tokenMetrics startMetrics)) ++ added
       /\ (forall sym,
             sym ∈ new_Set (map tm_symbol (tokenMetrics startMetrics))
             -> sym ∈ map tm_symbol (tokenMetrics startMetrics))
       /\ (forall sym,
             sym ∈ added -> sym ∉ map tm_symbol (tokenMetrics startMetrics)).
Proof.
  unfold allTokens, new_Set.
  destruct (fold_Set_add (map tm_symbol (tokenMetrics startMetrics)
                          ++ map tm_symbol (tokenMetrics endMetrics)) []
              NoDup_nil_2) as (Hnd & Hin & _).
  split; [exact Hnd|]. split.
  { intros sym. rewrite Hin, elem_of_app, elem_of_nil. tauto. }
  rewrite fold_left_app.
  destruct (fold_Set_add (map tm_symbol (tokenMetrics startMetrics)) []
              NoDup_nil_2) as (Hnd1 & Hin1 & _).
  destruct (fold_Set_add (map tm_symbol (tokenMetrics endMetrics)) _ Hnd1)
    as (_ & _ & added & Heq & Hnew).
  exists added. split; [exact Heq|]. split.
  - intros sym Hsym. apply Hin1 in Hsym as [Hnil|Hsym]; [inversion Hnil|exact Hsym].
  - intros sym Hsym Hstart. apply (Hnew sym Hsym), Hin1. auto.
Qed.

Lemma tokenReport_is_Some startMetrics endMetrics sym :
  is_Some (tokenReport startMetrics endMetrics sym)
  <-> sym ∈ map tm_symbol (tokenMetrics startMetrics)
      \/ sym ∈ map tm_symbol (tokenMetrics endMetrics).
Proof.
  unfold tokenReport.
  pose proof (findToken_None (tokenMetrics startMetrics) sym) as Hs.
  pose proof (findToken_None (tokenMetrics endMetrics) sym) as He.
  destruct (findToken (tokenMetrics startMetrics) sym) as [a|],
           (findToken (tokenMetrics endMetrics) sym) as [b|].
  - split; [|eauto]. intros _. left.
    destruct (decide (sym ∈ map tm_symbol (tokenMetrics startMetrics)));
      [assumption|]. apply Hs in n. discriminate.
  - split; [|eauto]. intros _. left.
    destruct (decide (sym ∈ map tm_symbol (tokenMetrics startMetrics)));
      [assumption|]. apply Hs in n. discriminate.
  - split; [|eauto]. intros _. right.
    destruct (decide (sym ∈ map tm_symbol (tokenMetrics endMetrics)));
      [assumption|]. apply He in n. discriminate.
  - split; [intros [? [=]]|].
    intros [Hin|Hin]; [apply Hs in Hin|apply He in Hin]; tauto.
Qed.

(** An entry of the report is what the loop body prints for its symbol. *)
Lemma tokenReports_elem startMetrics endMetrics sym r :
  (sym, r) ∈ tokenReports startMetrics endMetrics
  <-> tokenReport startMetrics endMetrics sym = Some r.
Proof.
  unfold tokenReports. rewrite list_elem_of_omap. split.
  - intros (sym' & _ & Hr).
    destruct (tokenReport startMetrics endMetrics sym') as [r'|] eqn:Hr';
      [|discriminate].
    cbn in Hr. injection Hr as <- <-. exact Hr'.
  - intros Hr. exists sym. rewrite Hr. split; [|reflexivity].
    apply allTokens_spec, tokenReport_is_Some. rewrite Hr. eauto.
Qed.

Lemma omap_keys (f : string -> option TokenReport) (l : list string) :
  NoDup l ->
  NoDup (omap (fun sym => (fun r => (sym, r)) <$> f sym) l).*1
  /\ forall sym,
       sym ∈ (omap (fun sym => (fun r => (sym, r)) <$> f sym) l).*1
       <-> sym ∈ l /\ is_Some (f sym).
Proof.
  induction l as [|x l IH]; intros Hnd.
  - cbn. split; [constructor|]. intros sym. rewrite elem_of_nil. tauto.
  - apply NoDup_cons in Hnd as [Hx Hnd]. destruct (IH Hnd) as [IHnd IHin].
    cbn [omap list_omap]. destruct (f x) as [r|] eqn:Hfx; cbn.
    + split.
      * apply NoDup_cons. split; [|exact IHnd]. rewrite IHin. tauto.
      * intros sym. rewrite !elem_of_cons, IHin. split.
        -- intros [->|[Hin Hsome]]; [rewrite Hfx; eauto|auto].
        -- intros [[->|Hin] Hsome]; auto.
    + split; [exact IHnd|]. intros sym. rewrite elem_of_cons, IHin. split.
      * intros [Hin Hsome]. auto.
      * intros [[->|Hin] Hsome]; [|auto]. rewrite Hfx in Hsome.
        destruct Hsome as [? [=]].
Qed.

(** X16. The token section of a comparison has one entry for every symbol of
    either block and no other, however often a symbol occurs in a block. An
    entry compares the first token of that symbol in the start block with the
    first in the end block when both have one; it says REMOVED when only the
    start block has the symbol and ADDED when only the end block has it. *)
Theorem tokenReports_complete startMetrics endMetrics :
  NoDup (tokenReports startMetrics endMetrics).*1
  /\ (forall sym,
        sym ∈ (tokenReports startMetrics endMetrics).*1
        <-> sym ∈ map tm_symbol (tokenMetrics startMetrics)
            \/ sym ∈ map tm_symbol (tokenMetrics endMetrics))
  /\ (forall sym r,
        (sym, r) ∈ tokenReports startMetrics endMetrics ->
        match r with
        | Compared startToken endToken =>
            first_with sym (tokenMetrics startMetrics) startToken
            /\ first_with sym (tokenMetrics endMetrics) endToken
        | REMOVED startToken =>
            first_with sym (tokenMetrics startMetrics) startToken
            /\ sym ∉ map tm_symbol (tokenMetrics endMetrics)
        | ADDED endToken =>
            (sym ∉ map tm_symbol (tokenMetrics startMetrics))
            /\ first_with sym (tokenMetrics endMetrics) endToken
        end).
Proof.
  destruct (allTokens_spec startMetrics endMetrics) as (Hnd & Hin & _).
  destruct (omap_keys (tokenReport startMetrics endMetrics) _ Hnd)
    as [Hkeys Hmem].
  split; [exact Hkeys|]. split.
  - intros sym. unfold tokenReports. rewrite Hmem, Hin, tokenReport_is_Some.
    tauto.
  - intros sym r Hr%tokenReports_elem. unfold tokenReport in Hr.
    destruct (findToken (tokenMetrics startMetrics) sym) as [a|] eqn:Ha,
             (findToken (tokenMetrics endMetrics) sym) as [b|] eqn:Hb;
      try discriminate; injection Hr as <-;
      rewrite ?findToken_Some in *; rewrite ?findToken_None in *; auto.
Qed.

(** X17. The order and the symmetry of the token section. The entries of the
    symbols of the start block come first and the ADDED entries last. A
    block compared with itself has neither an ADDED nor a REMOVED entry. And
    with the two blocks exchanged, what was REMOVED is ADDED, what was ADDED
    is REMOVED, and the same pairs of tokens are compared. *)
Theorem tokenReports_symmetry startMetrics endMetrics :
  (exists before after,
      tokenReports startMetrics endMetrics = before ++ after
      /\ Forall (fun entry =>
                   match entry.2 with ADDED _ => False | _ => True end) before
      /\ Forall (fun entry =>
                   match entry.2 with ADDED _ => True | _ => False end) after)
  /\ (forall sym r,
        (sym, r) ∈ tokenReports startMetrics startMetrics ->
        exists t, r = Compared t t)
  /\ (forall sym a b,
        (sym, Compared a b) ∈ tokenReports startMetrics endMetrics
        <-> (sym, Compared b a) ∈ tokenReports endMetrics startMetrics)
  /\ (forall sym t,
        (sym, REMOVED t) ∈ tokenReports startMetrics endMetrics
        <-> (sym, ADDED t) ∈ tokenReports endMetrics startMetrics).
Proof.
  split; [|split; [|split]].
  - destruct (allTokens_spec startMetrics endMetrics)
      as (_ & _ & added & Heq & Hold & Hnew).
    unfold tokenReports. rewrite Heq, omap_app.
    eexists _, _. split; [reflexivity|]. split.
    + apply Forall_forall. intros [sym r] Hr.
      apply list_elem_of_omap in Hr as (sym' & Hsym & Hr).
      apply Hold in Hsym. unfold tokenReport in Hr.
      destruct (findToken (tokenMetrics startMetrics) sym') as [a|] eqn:Ha.
      * destruct (findToken (tokenMetrics endMetrics) sym');
          cbn in Hr; injection Hr as <- <-; exact I.
      * apply findToken_None in Ha. contradiction.
    + apply Forall_forall. intros [sym r] Hr.
      apply list_elem_of_omap in Hr as (sym' & Hsym & Hr).
      apply Hnew, findToken_None in Hsym. unfold tokenReport in Hr.
      rewrite Hsym in Hr.
      destruct (findToken (tokenMetrics endMetrics) sym');
        cbn in Hr; [|discriminate]. injection Hr as <- <-. exact I.
  - intros sym r Hr%tokenReports_elem. unfold tokenReport in Hr.
    destruct (findToken (tokenMetrics startMetrics) sym) as [t|];
      [|discriminate].
    injection Hr as <-. eauto.
  - intros sym a b. rewrite !tokenReports_elem. unfold tokenReport.
    destruct (findToken (tokenMetrics startMetrics) sym),
             (findToken (tokenMetrics endMetrics) sym);
      split; intros [=]; subst; reflexivity.
  - intros sym t. rewrite !tokenReports_elem. unfold tokenReport.
    destruct (findToken (tokenMetrics startMetrics) sym),
             (findToken (tokenMetrics endMetrics) sym);
      split; intros [=]; subst; reflexivity.
Qed.

End Reports.

(** * The time difference of a comparison *)

Section TimeDifference.

Lemma all_chars_app (p : ascii -> bool) (a b : string) :
  all_chars p (a +:+ b) = all_chars p a && all_chars p b.
Proof.
  induction a as [|c a IH]; [reflexivity|].
  change (p c && all_chars p (a +:+ b) = p c && all_chars p a && all_chars p b).
  rewrite IH. apply andb_assoc.
Qed.

Lemma trimStart_white_space s :
  all_chars is_white_space (trimStart s) = all_chars is_white_space s.
Proof.
  induction s as [|c s IH]; [reflexivity|]. cbn [trimStart all_chars].
  destruct (is_white_space c) eqn:Hc; [exact IH|].
  cbn [all_chars]. rewrite Hc. reflexivity.
Qed.

Lemma trimEnd_empty s :
  trimEnd s = EmptyString <-> all_chars is_white_space s = true.
Proof.
  induction s as [|c s IH]; cbn [trimEnd all_chars]; [tauto|].
  destruct (trimEnd s) as [|c' rest].
  - destruct (is_white_space c); cbn [andb]; [tauto|].
    split; discriminate.
  - split; [discriminate|]. intros [_ Hs]%andb_prop. apply IH in Hs.
    discriminate Hs.
Qed.

(** [trim] leaves nothing exactly when there is only white space. *)
Lemma trim_empty s :
  trim s = EmptyString <-> all_chars is_white_space s = true.
Proof. unfold trim. rewrite trimEnd_empty, trimStart_white_space. tauto. Qed.

Lemma timeParts_positive secondsDiff :
  60 <= secondsDiff <->
  0 < (timeParts secondsDiff).1.1
  \/ 0 < (timeParts secondsDiff).1.2
  \/ 0 < (timeParts secondsDiff).2.
Proof. unfold timeParts. cbn [fst snd]. Z.to_euclidean_division_equations. lia. Qed.

Lemma days_minute s : 60 <= s -> 60 * (s / 60) / 86400 = s / 86400.
Proof.
  intros Hs. pose proof (Z.div_mod (s / 60) 1440 ltac:(lia)) as Hdays.
  Z.to_euclidean_division_equations. lia.
Qed.

Lemma hours_minute s :
  60 <= s -> Z.rem (60 * (s / 60)) 86400 / 3600 = Z.rem s 86400 / 3600.
Proof.
  intros Hs. pose proof (Z.div_mod (s / 60) 1440 ltac:(lia)) as Hdays.
  pose proof (Z.div_mod ((s / 60) mod 1440) 60 ltac:(lia)) as Hhours.
  Z.to_euclidean_division_equations. lia.
Qed.

Lemma minutes_minute s :
  60 <= s -> Z.rem (60 * (s / 60)) 3600 / 60 = Z.rem s 3600 / 60.
Proof.
  intros Hs. pose proof (Z.div_mod (s / 60) 60 ltac:(lia)) as Hminutes.
  Z.to_euclidean_division_equations. lia.
Qed.

Lemma timeParts_minute secondsDiff :
  60 <= secondsDiff ->
  timeParts (60 * (secondsDiff / 60)) = timeParts secondsDiff.
Proof.
  intros Hs. unfold timeParts.
  rewrite days_minute, hours_minute, minutes_minute by exact Hs. reflexivity.
Qed.

(** When the result is empty. *)
Lemma formatTimeDifference_empty secondsDiff :
  formatTimeDifference secondsDiff = EmptyString <-> secondsDiff < 60.
Proof.
  unfold formatTimeDifference.
  pose proof (timeParts_positive secondsDiff) as Hpos.
  destruct (timeParts secondsDiff) as [[days hours] minutes].
  cbn [fst snd] in Hpos. rewrite trim_empty.
  destruct (Z.ltb_spec 0 days), (Z.ltb_spec 0 hours), (Z.ltb_spec 0 minutes);
    rewrite ?all_chars_app;
    try change (all_chars is_white_space " days ") with false;
    try change (all_chars is_white_space " hours ") with false;
    try change (all_chars is_white_space " minutes") with false;
    rewrite ?andb_false_r, ?andb_false_l; cbn [all_chars];
    (split; [try discriminate|]); lia.
Qed.

Lemma string_app_String c (a b : string) :
  String c a +:+ b = String c (a +:+ b).
Proof. reflexivity. Qed.

Lemma string_app_empty (b : string) : EmptyString +:+ b = b.
Proof. reflexivity. Qed.

Lemma string_app_assoc (a b c : string) : (a +:+ b) +:+ c = a +:+ (b +:+ c).
Proof.
  induction a as [|x a IH]; [reflexivity|].
  rewrite !string_app_String, IH. reflexivity.
Qed.

(** [trimEnd] works on the end of a string that does not hold white space
    only. *)
Lemma trimEnd_app (a b : string) :
  all_chars is_white_space b = false ->
  trimEnd (a +:+ b) = a +:+ trimEnd b.
Proof.
  intros Hb. induction a as [|c a IH]; [reflexivity|].
  rewrite !string_app_String. cbn [trimEnd]. rewrite IH.
  destruct (a +:+ trimEnd b) as [|c' rest] eqn:Hrest; [|reflexivity].
  exfalso. destruct a; [|discriminate Hrest].
  rewrite string_app_empty in Hrest. apply trimEnd_empty in Hrest. congruence.
Qed.

(** The decimal text of a number starts with a digit. *)
Lemma pretty_N_go_head (x : N) c s :
  is_white_space c = false ->
  exists c' rest,
    pretty_N_go x (String c s) = String c' rest /\ is_white_space c' = false.
Proof.
  revert c s. induction (N.lt_wf_0 x) as [x _ IH]; intros c s Hc.
  destruct (N.eq_dec x 0%N) as [->|Hx].
  - rewrite pretty_N_go_0. eauto.
  - rewrite pretty_N_go_step by lia. apply IH.
    + apply N.div_lt; lia.
    + unfold pretty_N_char.
      destruct (x mod 10)%N as [|[[[[]|[]|]|[[]|[]|]|]|[[[]|[]|]|[[]|[]|]|]|]];
        reflexivity.
Qed.

Lemma pretty_positive_head (n : Z) :
  0 < n ->
  exists c rest, pretty n = String c rest /\ is_white_space c = false.
Proof.
  intros Hn. destruct n as [|p|p]; try lia.
  change (pretty (Z.pos p)) with (pretty (N.pos p)).
  unfold pretty, pretty_N. destruct (decide (N.pos p = 0%N)); [discriminate|].
  rewrite pretty_N_go_step by lia.
  apply pretty_N_go_head. unfold pretty_N_char.
  destruct (N.pos p mod 10)%N as [|[[[[]|[]|]|[[]|[]|]|]|[[[]|[]|]|[[]|[]|]|]|]];
    reflexivity.
Qed.

Lemma trimStart_pretty (n : Z) (rest : string) :
  0 < n -> trimStart (pretty n +:+ rest) = pretty n +:+ rest.
Proof.
  intros Hn. destruct (pretty_positive_head n Hn) as (c & p & -> & Hc).
  rewrite string_app_String. cbn [trimStart]. rewrite Hc. reflexivity.
Qed.

(** The text for the days, hours and minutes that are printed. *)
Lemma formatTimeDifference_text secondsDiff :
  formatTimeDifference secondsDiff
  = String.concat " "
      (timePart (timeParts secondsDiff).1.1 "days"
       ++ timePart (timeParts secondsDiff).1.2 "hours"
       ++ timePart (timeParts secondsDiff).2 "minutes").
Proof.
  unfold formatTimeDifference, timePart, trim.
  destruct (timeParts secondsDiff) as [[days hours] minutes]. cbn [fst snd].
  destruct (Z.ltb_spec 0 days), (Z.ltb_spec 0 hours), (Z.ltb_spec 0 minutes);
    cbn [app String.concat];
    rewrite ?string_app_empty, ?string_app_assoc;
    rewrite ?trimStart_pretty by assumption;
    try reflexivity;
    repeat (rewrite trimEnd_app
              by (rewrite ?all_chars_app;
                  try change (all_chars is_white_space " days ") with false;
                  try change (all_chars is_white_space " hours ") with false;
                  try change (all_chars is_white_space " minutes") with false;
                  rewrite ?andb_false_r; reflexivity));
    rewrite ?string_app_String, ?string_app_empty; reflexivity.
Qed.

(** X18. [formatTimeDifference] shows whole minutes. The result is empty
    exactly when the difference is below one minute, a negative difference
    included, and the seconds beyond the last whole minute do not show. For
    a difference that is not negative the result is the text of a number of
    days, of hours below 24 and of minutes below 60, in this order and each
    left out when it is 0, that add up to the difference rounded down to a
    minute. *)
Theorem formatTimeDifference_minutes secondsDiff :
  (formatTimeDifference secondsDiff = EmptyString <-> secondsDiff < 60)
  /\ formatTimeDifference (60 * (secondsDiff / 60))
     = formatTimeDifference secondsDiff
  /\ (0 <= secondsDiff ->
      exists days hours minutes,
        0 <= days /\ 0 <= hours < 24 /\ 0 <= minutes < 60
        /\ 86400 * days + 3600 * hours + 60 * minutes = 60 * (secondsDiff / 60)
        /\ formatTimeDifference secondsDiff
           = String.concat " "
               (timePart days "days" ++ timePart hours "hours"
                ++ timePart minutes "minutes")).
Proof.
  split; [apply formatTimeDifference_empty|]. split.
  - destruct (Z.lt_ge_cases secondsDiff 60) as [Hlt|Hge].
    + transitivity EmptyString; [|symmetry];
        apply formatTimeDifference_empty; [|exact Hlt].
      Z.to_euclidean_division_equations. lia.
    + unfold formatTimeDifference. rewrite timeParts_minute by exact Hge.
      reflexivity.
  - intros Hs.
    exists (timeParts secondsDiff).1.1, (timeParts secondsDiff).1.2,
           (timeParts secondsDiff).2.
    split; [|split; [|split; [|split]]];
      try apply formatTimeDifference_text;
      unfold timeParts; cbn [fst snd]; Z.to_euclidean_division_equations; lia.
Qed.

End TimeDifference.

Section ComparisonReport.
Context {rt : JsRuntime} {aave : AaveLibrary}.

(** X19. What [compareBaseBlockMetrics] reports when it gets to the end: both
    blocks were found, the two snapshots are those of the blocks asked for,
    the time difference is that of the two block timestamps, and its line is
    empty exactly when the end block is less than a minute after the start
    block, as it is when the blocks are given in the reverse order; the
    token section is that of the two snapshots. When a block is not found
    nothing is compared. *)
Theorem compareBaseBlockMetrics_report startChain endChain files
    startBlock endBlock c :
  compareBaseBlockMetrics startChain endChain files startBlock endBlock = inr c ->
  (exists startTimestamp endTimestamp,
      startChain.1 = Some startTimestamp
      /\ endChain.1 = Some endTimestamp
      /\ timestamp (c_startBlock (comparisonData c)) = startTimestamp
      /\ timestamp (c_endBlock (comparisonData c)) = endTimestamp
      /\ timeDifferenceSeconds (comparisonData c) = endTimestamp - startTimestamp
      /\ (timeDifference c = EmptyString <-> endTimestamp - startTimestamp < 60))
  /\ blockNumber (c_startBlock (comparisonData c)) = startBlock
  /\ blockNumber (c_endBlock (comparisonData c)) = endBlock
  /\ tokenChanges c
     = tokenReports (c_startBlock (comparisonData c))
         (c_endBlock (comparisonData c))
  /\ files = true.
Proof.
  unfold compareBaseBlockMetrics, fetchBaseMetricsAtBlock.
  destruct startChain as [[startTimestamp|] [startRaw|]]; cbn [fst snd];
    try discriminate.
  destruct endChain as [[endTimestamp|] [endRaw|]]; cbn [fst snd];
    try discriminate.
  destruct files; cbn [negb]; [|discriminate].
  intros [= <-]. cbn.
  split; [|auto]. exists startTimestamp, endTimestamp.
  repeat (split; [reflexivity|]). apply formatTimeDifference_empty.
Qed.

End ComparisonReport.

(** * The [store] command *)

Section StoreCommand.

(** [initializeDatabase] leaves every row, whether it returns or throws. *)
Lemma initializeDatabase_rows faults now latestFile d k :
  marketRowAt (initializeDatabase faults now latestFile d).2 k = marketRowAt d k
  /\ forall n,
       tokenRowAt (initializeDatabase faults now latestFile d).2 n k
       = tokenRowAt d n k.
Proof.
  destruct (initializeDatabase_cases faults now latestFile d)
    as [[_ ->]|(_ & j & _ & -> & _)]; cbn [snd]; [auto|].
  split.
  - unfold marketRowAt.
    destruct (withTokenTables_lookup (take j (symbolsOf latestFile))
                (withMarketTable d) "") as [-> _].
    cbn [withMarketTable market]. destruct (market d); reflexivity.
  - intros n. unfold tokenRowAt.
    destruct (withTokenTables_lookup (take j (symbolsOf latestFile))
                (withMarketTable d) n) as [_ [->|(Hnone & -> & _)]];
      [reflexivity|].
    cbn [withMarketTable tokenTables] in Hnone. rewrite Hnone. reflexivity.
Qed.

(** X20. The [store] command. Without a latest metrics file it only sets up
    the schema for the default symbols. With a file, whatever fails, the rows
    of all other blocks stay as they were; when no statement fails it returns
    with every row of the file's snapshot written, whatever its symbols are;
    and it is not atomic as a whole: when the schema was set up and the
    command still fails, the tables that it has created stay while no row of
    the snapshot is stored. *)
Theorem storeCommand_outcomes faults1 now1 faults2 now2 latest d :
  (latest = None ->
   storeCommand faults1 now1 faults2 now2 latest d
   = initializeDatabase faults1 now1 None d)
  /\ (forall k,
        (forall metricsData,
           latest = Some metricsData -> k <> blockNumber metricsData) ->
        marketRowAt (storeCommand faults1 now1 faults2 now2 latest d).2 k
        = marketRowAt d k
        /\ forall n,
             tokenRowAt (storeCommand faults1 now1 faults2 now2 latest d).2 n k
             = tokenRowAt d n k)
  /\ (forall metricsData,
        latest = Some metricsData ->
        (forall i, faults1 i = false) ->
        ((forall i, faults2 i = false) ->
         (storeCommand faults1 now1 faults2 now2 latest d).1 = inr tt
         /\ written metricsData
              (storeCommand faults1 now1 faults2 now2 latest d).2)
        /\ ((storeCommand faults1 now1 faults2 now2 latest d).1 <> inr tt ->
            (storeCommand faults1 now1 faults2 now2 latest d).2
            = (initializeDatabase faults1 now1
                 (Some (map tm_symbol (tokenMetrics metricsData))) d).2
            /\ Forall (fun token =>
                         is_Some (tokenTables
                                    (storeCommand faults1 now1 faults2 now2
                                       latest d).2
                                  !! tableName (tm_symbol token)))
                 (tokenMetrics metricsData))).
Proof.
  split; [|split].
  - intros ->. unfold storeCommand. cbn [option_map].
    destruct (initializeDatabase faults1 now1 None d) as [[e|[]] d1];
      reflexivity.
  - intros k Hother. unfold storeCommand.
    pose proof (initializeDatabase_rows faults1 now1
                  (option_map (fun metricsData =>
                     map tm_symbol (tokenMetrics metricsData)) latest) d k)
      as [Hm Ht].
    destruct (initializeDatabase faults1 now1 _ d) as [[e|[]] d1];
      cbn [snd] in *; [auto|].
    destruct latest as [metricsData|]; [|auto].
    specialize (Hother metricsData eq_refl).
    destruct (storeMetrics_elsewhere faults2 now2 metricsData d1)
      as (Hm' & Ht' & _).
    split; [rewrite Hm' by exact Hother; exact Hm|].
    intros n. rewrite Ht' by exact Hother. apply Ht.
  - intros metricsData -> Hnf1. unfold storeCommand. cbn [option_map].
    destruct (initializeDatabase_ok faults1 now1 Hnf1
                (Some (map tm_symbol (tokenMetrics metricsData))) d)
      as (d1 & -> & Hmarket & Htables). cbn [snd].
    assert (Hall : Forall (fun token =>
              is_Some (tokenTables d1 !! tableName (tm_symbol token)))
              (tokenMetrics metricsData)).
    { apply Forall_forall. intros token Hin. apply Htables.
      apply list_elem_of_fmap. eauto. }
    split.
    + intros Hnf2.
      destruct (upserts_apply now2 metricsData d1 Hmarket Hall) as [d' Happ].
      rewrite (storeMetrics_run faults2 now2 metricsData d1 d' Hnf2 Happ).
      cbn [fst snd]. split; [reflexivity|]. eapply upserts_written, Happ.
    + destruct (storeMetrics_cases faults2 now2 metricsData d1)
        as [(d' & -> & _)|(e & ->)]; cbn [fst snd]; [congruence|].
      intros _. split; [reflexivity|exact Hall].
Qed.

End StoreCommand.

(** * The aggregates of a snapshot *)

Section Aggregates.
Context {rt : JsRuntime}.
Local Open Scope float_scope.

(** [NaN] is neither below nor above any number. *)
Lemma nan_not_lt (x y : float) :
  PrimFloat.is_nan x = true ->
  PrimFloat.ltb x y = false /\ PrimFloat.ltb y x = false.
Proof.
  unfold PrimFloat.is_nan. rewrite !FloatAxioms.ltb_spec, FloatAxioms.eqb_spec.
  intros Hnan%negb_true_iff.
  assert (Hx : Prim2SF x = S754_nan).
  { destruct (Prim2SF x) as [sg|sg| |sg m e]; try reflexivity; exfalso.
    - destruct sg; discriminate Hnan.
    - destruct sg; discriminate Hnan.
    - unfold SFeqb, SFcompare in Hnan.
      destruct sg; rewrite Z.compare_refl, Pos.compare_refl in Hnan;
        discriminate Hnan. }
  rewrite Hx. split; [reflexivity|].
  destruct (Prim2SF y) as [sg|sg| |sg m e]; reflexivity.
Qed.

(** X21. The average utilization of a snapshot, on both paths, is the
    utilization rate of the whole market, total borrows over total market
    size, under the same guard as a token's rate: it is 0 unless the total
    market size is above 0. So it is 0 and not [NaN] for a market without
    reserves, where every aggregate is 0, and it is also 0 when the total
    market size is [NaN]. *)
Theorem averageUtilization_guarded perToken block ts base formattedReserves :
  averageUtilization (snapshotOf perToken block ts base formattedReserves)
  = utilizationRate
      (totalMarketSize (snapshotOf perToken block ts base formattedReserves))
      (totalBorrows (snapshotOf perToken block ts base formattedReserves))
  /\ (Js.gt (totalMarketSize
               (snapshotOf perToken block ts base formattedReserves)) 0 = false ->
      averageUtilization (snapshotOf perToken block ts base formattedReserves)
      = 0)
  /\ (PrimFloat.is_nan
        (totalMarketSize (snapshotOf perToken block ts base formattedReserves))
      = true ->
      averageUtilization (snapshotOf perToken block ts base formattedReserves)
      = 0)
  /\ (formattedReserves = [] ->
      totalMarketSize (snapshotOf perToken block ts base formattedReserves) = 0
      /\ totalBorrows (snapshotOf perToken block ts base formattedReserves) = 0
      /\ totalAvailable (snapshotOf perToken block ts base formattedReserves) = 0
      /\ averageUtilization (snapshotOf perToken block ts base formattedReserves)
         = 0
      /\ tokenMetrics (snapshotOf perToken block ts base formattedReserves) = []).
Proof.
  split; [reflexivity|]. split; [|split].
  - cbn [averageUtilization totalMarketSize snapshotOf].
    unfold calculateAverageUtilization, calculateTotalMarketSize.
    intros ->. reflexivity.
  - cbn [averageUtilization totalMarketSize snapshotOf].
    unfold calculateAverageUtilization, calculateTotalMarketSize, Js.gt.
    intros Hnan. destruct (nan_not_lt _ 0 Hnan) as [_ ->]. reflexivity.
  - intros ->. repeat split; reflexivity.
Qed.

End Aggregates.


(** * The further properties on sample data *)

Module FurtherExamples.
Import RefRuntime Sample.

(** X2 on the snapshots of the blocks 100 and 101, stored in both orders in
    a database that has the tables of both reserves. *)
Lemma storeMetrics_commute_witness :
  (storeMetrics noFaults 2 snapshot101
     (storeMetrics noFaults 1 snapshot100 withNewcomer).2).2
  = (storeMetrics noFaults 1 snapshot100
       (storeMetrics noFaults 2 snapshot101 withNewcomer).2).2.
Proof.
  apply (storeMetrics_commute noFaults noFaults noFaults noFaults 1 2
           snapshot100 snapshot101 withNewcomer
           (storeMetrics noFaults 1 snapshot100 withNewcomer).2 _
           (storeMetrics noFaults 2 snapshot101 withNewcomer).2 _).
  - intros H. vm_compute in H. discriminate H.
  - vm_compute. reflexivity.
  - vm_compute. reflexivity.
  - vm_compute. reflexivity.
  - vm_compute. reflexivity.
Defined.

(** X4 on the empty database and the default symbols. *)
Lemma initializeDatabase_idempotent_witness :
  initializeDatabase noFaults 1699999001 None bootstrapped
  = (inr tt, bootstrapped).
Proof.
  apply (initializeDatabase_idempotent noFaults noFaults 1699999000 1699999001
           None emptyDatabase); intros i; reflexivity.
Defined.

(** X5 on a run whose third statement, the [CREATE TABLE] of the second
    default symbol, fails: the tables [aave_market_metrics] and
    [aave_token_weth] stay. *)
Lemma initializeDatabase_partial_witness :
  (initializeDatabase (fun i => Nat.eqb i 2) 1699999000 None emptyDatabase).1
  = inl (Unavailable 2)
  /\ is_Some (tokenTables
       (initializeDatabase (fun i => Nat.eqb i 2) 1699999000 None
          emptyDatabase).2 !! "aave_token_weth").
Proof.
  destruct (initializeDatabase_partial (fun i => Nat.eqb i 2) 1699999000 None
              emptyDatabase 1) as (Hr & _ & _ & Ht).
  - intros i Hi. destruct i as [|[|i]]; [reflexivity|reflexivity|lia].
  - reflexivity.
  - cbn. lia.
  - split; [exact Hr|]. apply (Ht "WETH"). cbn. apply list_elem_of_here.
Defined.

(** X8 on the database that holds the blocks 100 and 101, with a limit of
    1: the row of block 101 is returned and the rows of its two tokens are
    printed. *)
Lemma getRecentMetrics_newest_witness :
  match getRecentMetrics noFaults 1 twoBlocks with
  | inr (rows, printed) =>
      rows.*1 = [101] /\ length printed = 2%nat
      /\ StronglySorted (fun x y => y.1 < x.1) rows
  | inl _ => False
  end.
Proof.
  destruct (getRecentMetrics noFaults 1 twoBlocks) as [e|[rows printed]] eqn:Hrun;
    [vm_compute in Hrun; discriminate Hrun|].
  destruct (getRecentMetrics_newest noFaults 1 twoBlocks rows printed Hrun)
    as (tbl & _ & _ & _ & Hsorted & _).
  vm_compute in Hrun. injection Hrun as <- <-.
  split; [reflexivity|]. split; [reflexivity|]. exact Hsorted.
Defined.

(** X9 on the bootstrapped database, whose aggregate table is empty, with a
    server that fails every query after the first. *)
Example getRecentMetrics_empty :
  getRecentMetrics (fun i => negb (Nat.eqb i 0)) 5 bootstrapped = inr ([], [])
  /\ getRecentMetrics noFaults 5 emptyDatabase
     = inl (UndefinedTable "aave_market_metrics").
Proof. split; vm_compute; reflexivity. Qed.

(** X10 on the snapshot whose utilization is a third, stored in a database
    without rows: the row shown first holds [33.3333] for the number
    [33.33333333333333]. *)
Lemma stored_is_most_recent_witness :
  averageUtilization snapshot103 = (1 / 3 * 100)%float
  /\ exists row rest printed,
       getRecentMetrics noFaults 1
         (storeMetrics noFaults 1 snapshot103 bootstrapped).2
       = inr ((103, row) :: rest, printed)
       /\ m_average_utilization (m_values row) = Decimal 333333 4
       /\ exists tokenData,
            ("USDC"%string, tokenData) ∈ printed
            /\ t_utilization_rate (t_values tokenData) = Decimal 333333 4
            /\ t_total_supplied (t_values tokenData)
               = Decimal 3000000000000000000 18.
Proof.
  split; [vm_compute; reflexivity|].
  destruct (stored_is_most_recent noFaults 1 snapshot103 bootstrapped
              (storeMetrics noFaults 1 snapshot103 bootstrapped).2 noFaults 0)
    as (row & rest & printed & Hrun & _ & _ & _ & Hrate & _ & Htokens).
  - vm_compute. reflexivity.
  - intros block row. unfold marketRowAt.
    assert (Hm : market bootstrapped = Some ∅) by (vm_compute; reflexivity).
    rewrite Hm. cbn. rewrite lookup_empty. discriminate.
  - intros i. reflexivity.
  - exists row, rest, printed. split; [exact Hrun|].
    split; [rewrite Hrate; vm_compute; reflexivity|].
    destruct (Htokens [] (liveTokenMetric usd third) [])
      as (tokenData & Hin & _ & _ & Hsupplied & _ & _ & _ & Hutil & _).
    + reflexivity.
    + constructor.
    + exists tokenData. split; [exact Hin|].
      split; [rewrite Hutil; vm_compute; reflexivity|].
      rewrite Hsupplied. vm_compute. reflexivity.
Defined.

(** X11 on symbols of the default list: [USDbC] and [wstETH] are printed in
    upper case, [WETH] as it is. *)
Example tokenSymbol_samples :
  map (fun symbol => tokenSymbol (tableName symbol)) ["WETH"; "USDbC"; "wstETH"]
  = ["WETH"; "USDBC"; "WSTETH"].
Proof. vm_compute. reflexivity. Qed.

(** X14 on the schedule with two overlapping runs, which read the heads 103
    and 105: block 104 gets no row. *)
Lemma poller_stores_heads_only_witness :
  marketRowAt (storage (poll_run (poller_start 100 bootstrapped) overlapping)) 104
  = marketRowAt bootstrapped 104
  /\ is_Some (marketRowAt
                (storage (poll_run (poller_start 100 bootstrapped) overlapping))
                103).
Proof.
  destruct (poller_stores_heads_only 100 bootstrapped overlapping 104)
    as [Hm _].
  - lia.
  - cbn. rewrite !not_elem_of_cons. repeat split; try lia. apply not_elem_of_nil.
  - split; [exact Hm|]. vm_compute. eauto.
Defined.

(** X15 on the bootstrapped database, which has no table for AERO, once the
    market lists AERO: two runs in a row fail and the cursor stays at 100. *)
Lemma poller_stalls_without_table_witness :
  lastProcessedBlock (poll_run (poller_start 100 bootstrapped) afterListing) = 100
  /\ storage (poll_run (poller_start 100 bootstrapped) afterListing)
     = bootstrapped.
Proof.
  apply (poller_stalls_without_table 100 bootstrapped "AERO" afterListing).
  - vm_compute. reflexivity.
  - unfold listedThroughout, afterListing.
    apply Forall_cons. split; [exact I|].
    apply Forall_cons. split; [cbn; apply list_elem_of_further, list_elem_of_here|].
    apply Forall_cons. split; [exact I|].
    apply Forall_cons. split; [cbn; apply list_elem_of_further, list_elem_of_here|].
    apply Forall_nil_2.
Defined.

(** X18 on some differences. *)
Example formatTimeDifference_samples :
  map formatTimeDifference [-3600; 0; 59; 60; 3600; 90061; 172800]
  = [""; ""; ""; "1 minutes"; "1 hours"; "1 days 1 hours 1 minutes"; "2 days"].
Proof. vm_compute. reflexivity. Qed.

(** X19 on the comparison of the blocks 100 and 101, an hour apart, the
    second of which has the reserve AERO in addition. *)
Lemma compareBaseBlockMetrics_report_witness :
  match compareBaseBlockMetrics (Some 1700000000, Some (raw [weth]))
          (Some 1700003600, Some (raw [weth; newcomer])) true 100 101 with
  | inr c =>
      timeDifferenceSeconds (comparisonData c) = 3600
      /\ timeDifference c = "1 hours"
      /\ (tokenChanges c).*1 = ["WETH"; "AERO"]
      /\ blockNumber (c_endBlock (comparisonData c)) = 101
  | inl _ => False
  end.
Proof.
  destruct (compareBaseBlockMetrics _ _ _ _ _) as [e|c] eqn:Hrun;
    [vm_compute in Hrun; discriminate Hrun|].
  destruct (compareBaseBlockMetrics_report _ _ _ _ _ _ Hrun)
    as (_ & _ & Hend & _).
  split; [|split; [|split; [|exact Hend]]];
    vm_compute in Hrun; injection Hrun as <-; reflexivity.
Defined.

(** X20 on the snapshot with the reserve AERO and a database that was set up
    for the default symbols: the [store] command creates the missing table
    and stores the snapshot; when its sixth statement fails, the table stays
    and no row is stored. *)
Example storeCommand_samples :
  (storeCommand noFaults 1 noFaults 2 (Some snapshot101) bootstrapped).1 = inr tt
  /\ (storeCommand noFaults 1 (fun i => Nat.eqb i 2) 2 (Some snapshot101)
        bootstrapped).1 = inl (Unavailable 2)
  /\ is_Some (tokenTables
       (storeCommand noFaults 1 (fun i => Nat.eqb i 2) 2 (Some snapshot101)
          bootstrapped).2 !! "aave_token_aero")
  /\ marketRowAt
       (storeCommand noFaults 1 (fun i => Nat.eqb i 2) 2 (Some snapshot101)
          bootstrapped).2 101 = None.
Proof.
  split; [vm_compute; reflexivity|]. split; [vm_compute; reflexivity|].
  split; [vm_compute; eauto|vm_compute; reflexivity].
Qed.

(** X22 on a schedule without overlap in which the first run fails: the
    cursor goes from 100 to 100 to 104. *)
Lemma cursor_monotone_sequential_witness :
  lastProcessedBlock
    (poll_run (poller_start 100 bootstrapped)
       (take 2 [Observe (Some 103); Complete 0 (offline 1700000010);
                Observe (Some 104); Complete 0 (calm 104 1700000012)]))
  <= lastProcessedBlock
       (poll_run (poller_start 100 bootstrapped)
          [Observe (Some 103); Complete 0 (offline 1700000010);
           Observe (Some 104); Complete 0 (calm 104 1700000012)]).
Proof.
  apply (cursor_monotone_sequential 100 bootstrapped
           [Observe (Some 103); Complete 0 (offline 1700000010);
            Observe (Some 104); Complete 0 (calm 104 1700000012)] 2).
  vm_compute. reflexivity.
Defined.

End FurtherExamples.
